(** * b0x.nz link shortener: the request-security layer ([_security.js])

    A shallow embedding of the validation and request-guard functions of
    [_security.js] (and of [generateCode] from [api/shorten.js]), with the
    properties stated about them.

    JavaScript strings are sequences of UTF-16 code units; they are
    modelled as lists of integers, one per code unit.  Regular expression
    literals are kept as syntax trees and matched with derivatives.
    Host-platform built-ins whose behaviour rests on Unicode tables or on
    the URL Standard ([String.prototype.normalize], [toLowerCase], the
    [URL] class, [TextDecoder], [JSON.parse]) are interfaces; the functions
    of the repository are written against those interfaces. *)

From Stdlib Require Import String Ascii ZArith Bool Lia List.
Import ListNotations.

Set Implicit Arguments.
Open Scope Z_scope.

(* ================================================================== *)
(** * JavaScript strings *)
(* ================================================================== *)

(** A string value: the list of its UTF-16 code units. *)
Definition jsstring := list Z.

(** A code unit is a 16-bit number. *)
Definition is_code_unit (c : Z) : bool := (0 <=? c) && (c <? 65536).

Definition is_string (s : jsstring) : bool := forallb is_code_unit s.

(** String literals of the source, written with Rocq's ASCII strings. *)
Definition lit (s : string) : jsstring :=
  map (fun a => Z.of_N (N_of_ascii a)) (list_ascii_of_string s).

(** [a === b] on strings. *)
Fixpoint str_eqb (a b : jsstring) : bool :=
  match a, b with
  | [], [] => true
  | x :: a', y :: b' => (x =? y) && str_eqb a' b'
  | _, _ => false
  end.

(** [s.startsWith(p)] *)
Fixpoint startsWith (p s : jsstring) : bool :=
  match p, s with
  | [], _ => true
  | x :: p', y :: s' => (x =? y) && startsWith p' s'
  | _ :: _, [] => false
  end.

(** [s.includes(p)] *)
Fixpoint includes (p s : jsstring) : bool :=
  startsWith p s ||
  match s with
  | [] => false
  | _ :: s' => includes p s'
  end.

(** [s.slice(n)] for [0 <= n]. *)
Definition slice (n : nat) (s : jsstring) : jsstring := skipn n s.

(** [set.has(s)] for a [Set] of strings given by its literal. *)
Definition has (set : list jsstring) (s : jsstring) : bool :=
  existsb (str_eqb s) set.

(** Longest prefix, and the rest, with respect to a class of code units. *)
Fixpoint takeWhile (p : Z -> bool) (s : jsstring) : jsstring :=
  match s with
  | [] => []
  | c :: t => if p c then c :: takeWhile p t else []
  end.

Fixpoint dropWhile (p : Z -> bool) (s : jsstring) : jsstring :=
  match s with
  | [] => []
  | c :: t => if p c then dropWhile p t else s
  end.

(** ECMAScript [WhiteSpace] and [LineTerminator] code points, the ones
    [String.prototype.trim] removes: TAB, LF, VT, FF, CR, SP, NBSP,
    U+1680, U+2000..U+200A, LS, PS, U+202F, U+205F, U+3000 and ZWNBSP. *)
Definition is_white (c : Z) : bool :=
  ((9 <=? c) && (c <=? 13)) || (c =? 32) || (c =? 160) || (c =? 5760) ||
  ((8192 <=? c) && (c <=? 8202)) || (c =? 8232) || (c =? 8233) ||
  (c =? 8239) || (c =? 8287) || (c =? 12288) || (c =? 65279).

(** [s.trim()] *)
Definition trim (s : jsstring) : jsstring :=
  rev (dropWhile is_white (rev (dropWhile is_white s))).

(** ASCII classes used below. *)
Definition is_ascii (c : Z) : bool := (0 <=? c) && (c <? 128).
Definition is_upper (c : Z) : bool := (65 <=? c) && (c <=? 90).
Definition is_lower (c : Z) : bool := (97 <=? c) && (c <=? 122).
Definition is_digit (c : Z) : bool := (48 <=? c) && (c <=? 57).

(** Printable ASCII without the space: U+0021..U+007E. *)
Definition is_graphic (c : Z) : bool := (33 <=? c) && (c <=? 126).

(* ================================================================== *)
(** * Regular expression literals *)
(* ================================================================== *)

Module RegExp.

(** The pattern language the source uses: classes of code units given by
    ranges, concatenation, alternation, iteration.  [Any] stands for an
    arbitrary code unit and serves for the unanchored sides of a pattern. *)
Inductive regex : Type :=
| Void
| Eps
| Any
| Cls (rs : list (Z * Z))
| Cat (r1 r2 : regex)
| Alt (r1 r2 : regex)
| Star (r : regex).

Definition in_ranges (rs : list (Z * Z)) (c : Z) : bool :=
  existsb (fun r => (fst r <=? c) && (c <=? snd r)) rs.

(** The other case of an ASCII letter. *)
Definition swap_case (c : Z) : Z :=
  if is_upper c then c + 32 else if is_lower c then c - 32 else c.

(** Class membership.  With the [i] flag two code units match when their
    canonical forms agree; the classes of the source hold ASCII only, and
    the canonical form of a code unit above U+007F is never an ASCII one,
    so under [i] a class accepts its members and their ASCII case
    variants. *)
Definition cls_test (ic : bool) (rs : list (Z * Z)) (c : Z) : bool :=
  in_ranges rs c || (ic && in_ranges rs (swap_case c)).

Fixpoint nullable (r : regex) : bool :=
  match r with
  | Void | Any | Cls _ => false
  | Eps | Star _ => true
  | Cat r1 r2 => nullable r1 && nullable r2
  | Alt r1 r2 => nullable r1 || nullable r2
  end.

Fixpoint deriv (ic : bool) (c : Z) (r : regex) : regex :=
  match r with
  | Void | Eps => Void
  | Any => Eps
  | Cls rs => if cls_test ic rs c then Eps else Void
  | Cat r1 r2 =>
      if nullable r1
      then Alt (Cat (deriv ic c r1) r2) (deriv ic c r2)
      else Cat (deriv ic c r1) r2
  | Alt r1 r2 => Alt (deriv ic c r1) (deriv ic c r2)
  | Star r1 => Cat (deriv ic c r1) (Star r1)
  end.

(** The whole string is in the language of the pattern. *)
Fixpoint accepts (ic : bool) (r : regex) (s : jsstring) : bool :=
  match s with
  | [] => nullable r
  | c :: t => accepts ic (deriv ic c r) t
  end.

(** Pattern combinators for the literal syntax. *)
Definition chr (a : ascii) : regex :=
  let c := Z.of_N (N_of_ascii a) in Cls [(c, c)].

Definition rng (a b : ascii) : Z * Z :=
  (Z.of_N (N_of_ascii a), Z.of_N (N_of_ascii b)).

Definition one (a : ascii) : Z * Z := rng a a.

Fixpoint seq_of (l : list regex) : regex :=
  match l with
  | [] => Eps
  | [r] => r
  | r :: l' => Cat r (seq_of l')
  end.

Fixpoint alt_of (l : list regex) : regex :=
  match l with
  | [] => Void
  | [r] => r
  | r :: l' => Alt r (alt_of l')
  end.

(** A literal run of characters, as in [local] or [http]. *)
Definition str (s : string) : regex :=
  seq_of (map chr (list_ascii_of_string s)).

Definition plus (r : regex) : regex := Cat r (Star r).

(** [r{0,n}] *)
Fixpoint upto (n : nat) (r : regex) : regex :=
  match n with
  | O => Eps
  | S n' => Alt Eps (Cat r (upto n' r))
  end.

(** [r{m,m+n}] *)
Fixpoint rep (m n : nat) (r : regex) : regex :=
  match m with
  | O => upto n r
  | S m' => Cat r (rep m' n r)
  end.

(** [\d] *)
Definition digit : regex := Cls [rng "0" "9"].

(** A regular expression literal: the pattern, whether it opens with [^]
    and closes with [$], and the [i] flag. *)
Record t := mk {
  bos : bool;
  body : regex;
  eos : bool;
  ignoreCase : bool
}.

(** [re.test(s)]: some substring of [s] matches, at the start and at the
    end of [s] where the pattern is anchored. *)
Definition test (re : t) (s : jsstring) : bool :=
  let left := if bos re then body re else Cat (Star Any) (body re) in
  let whole := if eos re then left else Cat left (Star Any) in
  accepts (ignoreCase re) whole s.

(** ** The language of a pattern *)

Inductive matches (ic : bool) : regex -> jsstring -> Prop :=
| MEps : matches ic Eps []
| MAny c : matches ic Any [c]
| MCls rs c : cls_test ic rs c = true -> matches ic (Cls rs) [c]
| MCat r1 r2 s1 s2 :
    matches ic r1 s1 -> matches ic r2 s2 -> matches ic (Cat r1 r2) (s1 ++ s2)
| MAltL r1 r2 s : matches ic r1 s -> matches ic (Alt r1 r2) s
| MAltR r1 r2 s : matches ic r2 s -> matches ic (Alt r1 r2) s
| MStarNil r : matches ic (Star r) []
| MStarApp r s1 s2 :
    matches ic r s1 -> matches ic (Star r) s2 -> matches ic (Star r) (s1 ++ s2).

End RegExp.

Import RegExp.

(** [r{m,n}] with [m <= n]. *)
Definition quant (m n : nat) (r : regex) : regex := rep m (n - m) r.

(* ================================================================== *)
(** * Values and results *)
(* ================================================================== *)

(** What a handler may pass to a validator: a string, or a value of
    another type ([typeof raw !== 'string']). *)
Inductive jsvalue : Type :=
| JString (s : jsstring)
| JOther.

(** [{ ok: true, ... }] or [{ ok: false, error }]. *)
Inductive result (E A : Type) : Type :=
| Ok (a : A)
| Err (e : E).

Arguments Ok {E A} a.
Arguments Err {E A} e.

Definition is_ok {E A} (r : result E A) : bool :=
  match r with Ok _ => true | Err _ => false end.

(** [x || ''] on the result of [headers.get]. *)
Definition or_empty (h : option jsstring) : jsstring :=
  match h with Some s => s | None => [] end.

(* ================================================================== *)
(** * Platform interfaces *)
(* ================================================================== *)

(** String methods that consult the Unicode character database. *)
Class StringBuiltins : Type := {
  toLowerCase : jsstring -> jsstring;
  normalizeNFKC : jsstring -> jsstring
}.

(** The [URL] class of the URL Standard, as far as [validateUrl] uses it:
    the constructor ([None] when it throws), five getters, three setters
    and the serialiser. *)
Class URLBuiltin : Type := {
  URL : Type;
  URL_new : jsstring -> option URL;
  protocol : URL -> jsstring;
  username : URL -> jsstring;
  password : URL -> jsstring;
  hostname : URL -> jsstring;
  port : URL -> jsstring;
  set_protocol : URL -> jsstring -> URL;
  set_hostname : URL -> jsstring -> URL;
  set_port : URL -> jsstring -> URL;
  URL_toString : URL -> jsstring
}.

(** Values [JSON.parse] produces. *)
#[warnings="-register-all"]
Inductive json : Type :=
| JNull
| JBool (b : bool)
| JNumber (n : Z)
| JText (s : jsstring)
| JArray (items : list json)
| JObject (fields : list (jsstring * json)).

(** [new TextDecoder('utf-8', { fatal: true }).decode] and [JSON.parse];
    [None] when they throw. *)
Class BodyBuiltins : Type := {
  utf8_decode : list Z -> option jsstring;
  JSON_parse : jsstring -> option json
}.

(* ================================================================== *)
(** * What the functions rely on from the platform *)
(* ================================================================== *)

(** Lower case within Basic Latin. *)
Definition ascii_lower (c : Z) : Z := if is_upper c then c + 32 else c.

(** On a string of Basic Latin, [toLowerCase] changes the capitals [A-Z]
    and nothing else, and [normalize('NFKC')] changes nothing. *)
Class StringLaws `{StringBuiltins} : Prop := {
  toLowerCase_ascii :
    forall s, forallb is_ascii s = true -> toLowerCase s = map ascii_lower s;
  normalizeNFKC_ascii :
    forall s, forallb is_ascii s = true -> normalizeNFKC s = s
}.

(** An [http:] or [https:] URL. *)
Definition is_web `{URLBuiltin} (p : URL) : Prop :=
  protocol p = lit "http:" \/ protocol p = lit "https:".

(** Properties of the URL Standard's parser, setters and serialiser on the
    [http:] and [https:] URLs that the constructor returns: a setter given
    the value its getter shows changes nothing; the host name is in lower
    case ASCII; the port of the scheme is never shown; the serialisation
    starts with the scheme and two slashes and, when there are no
    credentials, is printable ASCII without spaces.  (Whether the class reads
    its own serialisation back as the same URL is not among them: where a
    statement needs it, it says so.) *)
Class URLLaws `{URLBuiltin} : Prop := {
  set_protocol_same :
    forall s p, URL_new s = Some p -> is_web p -> set_protocol p (protocol p) = p;
  set_hostname_same :
    forall s p, URL_new s = Some p -> is_web p -> set_hostname p (hostname p) = p;
  hostname_lower :
    forall s p, URL_new s = Some p -> is_web p ->
      forallb (fun c => is_ascii c && negb (is_upper c)) (hostname p) = true;
  default_port_hidden :
    forall s p, URL_new s = Some p ->
      (protocol p = lit "http:" -> port p <> lit "80") /\
      (protocol p = lit "https:" -> port p <> lit "443");
  href_graphic :
    forall s p, URL_new s = Some p -> is_web p ->
      username p = [] -> password p = [] ->
      forallb is_graphic (URL_toString p) = true;
  href_prefix :
    forall s p, URL_new s = Some p -> is_web p ->
      exists rest, URL_toString p = protocol p ++ lit "//" ++ rest
}.

(* ================================================================== *)
(** * Admin key authentication *)
(* ================================================================== *)

Definition is_high_surrogate (c : Z) : bool := (55296 <=? c) && (c <=? 56319).
Definition is_low_surrogate (c : Z) : bool := (56320 <=? c) && (c <=? 57343).

(** UTF-8 bytes of one scalar value. *)
Definition utf8_of_scalar (x : Z) : list Z :=
  if x <? 128 then [x]
  else if x <? 2048 then [192 + x / 64; 128 + x mod 64]
  else if x <? 65536 then
    [224 + x / 4096; 128 + (x / 64) mod 64; 128 + x mod 64]
  else
    [240 + x / 262144; 128 + (x / 4096) mod 64;
     128 + (x / 64) mod 64; 128 + x mod 64].

(** The scalar value of a surrogate pair. *)
Definition pair_scalar (c d : Z) : Z := 65536 + (c - 55296) * 1024 + (d - 56320).

(** [new TextEncoder().encode(s)]: the string is read as a sequence of
    scalar values, a surrogate pair giving one supplementary code point and
    a surrogate without its partner giving U+FFFD, and each scalar value is
    written in UTF-8. *)
Fixpoint TextEncoder_encode (s : jsstring) : list Z :=
  match s with
  | [] => []
  | c :: t =>
      if is_high_surrogate c then
        match t with
        | d :: t' =>
            if is_low_surrogate d
            then utf8_of_scalar (pair_scalar c d)
                   ++ TextEncoder_encode t'
            else utf8_of_scalar 65533 ++ TextEncoder_encode t
        | [] => utf8_of_scalar 65533
        end
      else if is_low_surrogate c then utf8_of_scalar 65533 ++ TextEncoder_encode t
      else utf8_of_scalar c ++ TextEncoder_encode t
  end.

(** A string in which every surrogate belongs to a pair. *)
Fixpoint well_formed (s : jsstring) : bool :=
  match s with
  | [] => true
  | c :: t =>
      if is_high_surrogate c then
        match t with
        | d :: t' => is_low_surrogate d && well_formed t'
        | [] => false
        end
      else negb (is_low_surrogate c) && well_formed t
  end.

(** [arr[i]] on a typed array: [undefined] outside the bounds. *)
Definition at_index (arr : list Z) (i : nat) : option Z := nth_error arr i.

(** [arr[i % arr.length]]: the index is [NaN] when the array is empty, and the
    read gives [undefined]. *)
Definition at_index_mod (arr : list Z) (i : nat) : option Z :=
  match length arr with
  | O => None
  | n => nth_error arr (i mod n)
  end.

(** [x ?? 0], and [undefined] read as a number by a bit operator. *)
Definition or_zero (x : option Z) : Z :=
  match x with Some v => v | None => 0 end.

(** [for (let i = 0; i < n; i++) diff |= f(i)] from [diff = 0]. *)
Definition or_loop (n : nat) (f : nat -> Z) : Z :=
  fold_left (fun diff i => Z.lor diff (f i)) (seq 0 n) 0.

Definition timingSafeEqual (a b : jsstring) : bool :=
  let ab := TextEncoder_encode a in
  let bb := TextEncoder_encode b in
  if negb (length ab =? length bb)%nat then
    let diff :=
      or_loop (length ab)
        (fun i => Z.lxor (or_zero (at_index ab i)) (or_zero (at_index_mod bb i))) in
    false
  else
    let diff :=
      or_loop (length ab)
        (fun i => Z.lxor (or_zero (at_index ab i)) (or_zero (at_index bb i))) in
    diff =? 0.

(** The part of a request the security layer reads: three headers and the
    body stream ([None] for a header that is absent, and for a request
    without a body). *)
Inductive stream : Type :=
| Closed
| Errored
| Data (chunk : list Z) (rest : stream).

Record Request : Type := {
  Authorization : option jsstring;
  ContentType : option jsstring;
  ContentLength : option jsstring;
  requestBody : option stream
}.

Record Env : Type := { ADMIN_KEY : option jsstring }.

(** A call of the comparator, with its arguments. *)
Inductive call : Type := Compare (presented reference : jsstring).

(** [checkAdminAuth] returns its verdict together with the calls of
    [timingSafeEqual] it made. *)
Definition checkAdminAuth (request : Request) (env : Env) : bool * list call :=
  match ADMIN_KEY env with
  | None => (false, [])
  | Some adminKey =>
      if (length adminKey =? 0)%nat || (length adminKey <? 16)%nat then (false, [])
      else
        let auth := trim (or_empty (Authorization request)) in
        if negb (startsWith (lit "Bearer ") auth) then (false, [])
        else
          let token := slice 7 auth in
          (timingSafeEqual token adminKey, [Compare token adminKey])
  end.

(* ================================================================== *)
(** * URL validation and normalisation *)
(* ================================================================== *)

Definition BLOCKED_HOSTNAMES : list jsstring :=
  [ lit "localhost";
    lit "metadata.google.internal";
    lit "metadata.goog";
    lit "instance-data";
    lit "computemetadata" ].

(** The patterns of [BLOCKED_IPV4], in the order of the source. *)
Definition BLOCKED_IPV4 : list RegExp.t :=
  [ mk true (str "0.") false false;
    mk true (str "127.") false false;
    mk true (str "10.") false false;
    mk true
       (seq_of [str "172.";
                alt_of [Cat (chr "1") (Cls [rng "6" "9"]);
                        Cat (chr "2") digit;
                        Cat (chr "3") (Cls [one "0"; one "1"])];
                chr "."])
       false false;
    mk true (str "192.168.") false false;
    mk true (str "169.254.") false false;
    mk true
       (seq_of [str "100.";
                alt_of [Cat (chr "6") (Cls [rng "4" "9"]);
                        Cat (Cls [rng "7" "9"]) digit;
                        seq_of [chr "1"; Cls [one "0"; one "1"]; digit];
                        seq_of [str "12"; Cls [rng "0" "7"]]];
                chr "."])
       false false;
    mk true (str "198.51.100.") false false;
    mk true (str "203.0.113.") false false;
    mk true (str "240.") false false;
    mk true (str "255.255.255.255") true false ].

Definition BLOCKED_IPV6 : list RegExp.t :=
  [ mk true (str "::1") true true;
    mk true (str "::") false false;
    mk true (str "fc") false true;
    mk true (str "fd") false true;
    mk true (str "fe80") false true;
    mk true (str "ff") false true ].

(** [/\.(local|internal|localhost|lan|corp|intranet)$/i] *)
Definition INTERNAL_SUFFIX_RE : RegExp.t :=
  mk false
     (Cat (chr ".")
          (alt_of [str "local"; str "internal"; str "localhost";
                   str "lan"; str "corp"; str "intranet"]))
     true true.

(** [/^\d{1,3}(\.\d{1,3}){3}$/] *)
Definition RAW_IPV4_RE : RegExp.t :=
  mk true
     (Cat (quant 1 3 digit) (quant 3 3 (Cat (chr ".") (quant 1 3 digit))))
     true false.

(** [list.some(re => re.test(h))] *)
Definition some_test (res : list RegExp.t) (h : jsstring) : bool :=
  existsb (fun re => test re h) res.

Definition isBlockedHostname `{StringBuiltins} (hostname : jsstring) : bool :=
  let h := toLowerCase hostname in
  if has BLOCKED_HOSTNAMES h then true
  else if test INTERNAL_SUFFIX_RE h then true
  else if test RAW_IPV4_RE h then some_test BLOCKED_IPV4 h
  else if includes (lit ":") h then some_test BLOCKED_IPV6 h
  else false.

(** The class of [stripControlChars]: U+0000..U+001F, U+007F,
    U+200B..U+200D, U+FEFF and U+202A..U+202E, in the order of the source. *)
Definition CONTROL_CLASS : list (Z * Z) :=
  [ (0, 31); (127, 127); (8203, 8205); (65279, 65279); (8234, 8238) ].

(** [s.replace(/[class]/g, '')]: every code unit of the class is dropped. *)
Definition remove_class (rs : list (Z * Z)) (s : jsstring) : jsstring :=
  filter (fun c => negb (cls_test false rs c)) s.

Definition stripControlChars (s : jsstring) : jsstring :=
  remove_class CONTROL_CLASS s.

(** The class of the scheme group after its first letter:
    [[a-zA-Z0-9+\-.]]. *)
Definition SCHEME_CLASS : list (Z * Z) :=
  [ rng "a" "z"; rng "A" "Z"; rng "0" "9"; one "+"; one "-"; one "." ].

(** The scheme pattern of [validateUrl]: anchored at the start, a letter,
    then any number of [[a-zA-Z0-9+\-.]], then [://]; flag [i]. *)
Definition SCHEME_RE : RegExp.t :=
  mk true
     (seq_of [Cls [rng "a" "z"; rng "A" "Z"]; Star (Cls SCHEME_CLASS); str "://"])
     false true.

(** [str.match(SCHEME_RE)], reduced to its first group.  The group is a run
    of class characters which a colon ends, and the colon is outside the
    class: when the pattern matches, the group is the longest such run. *)
Definition schemeMatch (s : jsstring) : option jsstring :=
  if test SCHEME_RE s
  then Some (takeWhile (cls_test true SCHEME_CLASS) s)
  else None.

(** The failures of [validateUrl], one per message of the source. *)
Inductive UrlError : Type :=
| UrlNotString          (* URL must be a string. *)
| UrlEmpty              (* URL must not be empty. *)
| UrlTooLong            (* URL must be 2048 characters or fewer. *)
| UrlSchemeMissing      (* URL must include a scheme (https:// or http://). *)
| UrlSchemeNotAllowed (scheme : jsstring)
                        (* URL scheme ... is not allowed. Only http and https are accepted. *)
| UrlUnparseable        (* URL is not valid and could not be parsed. *)
| UrlProtocolNotAllowed (* Only http and https URLs are accepted. *)
| UrlCredentials        (* URLs with embedded credentials are not accepted. *)
| UrlHostMissing        (* URL must contain a valid hostname. *)
| UrlHostNotDomain      (* URL hostname does not appear to be a valid domain. *)
| UrlBlockedAddress.    (* URL resolves to a reserved or private address. *)

(** A string is truthy when it is not empty. *)
Definition truthy (s : jsstring) : bool := negb (length s =? 0)%nat.

(** The steps of [validateUrl] on the parsed URL. *)
Definition checkParsed `{StringBuiltins} `{URLBuiltin} (parsed : URL)
  : result UrlError jsstring :=
  if negb (str_eqb (protocol parsed) (lit "http:")) &&
     negb (str_eqb (protocol parsed) (lit "https:"))
  then Err UrlProtocolNotAllowed
  else if truthy (username parsed) || truthy (password parsed)
  then Err UrlCredentials
  else
    let hostname_ := hostname parsed in
    if negb (truthy hostname_) then Err UrlHostMissing
    else
      let isRawIp := test RAW_IPV4_RE hostname_ || includes (lit ":") hostname_ in
      if negb isRawIp && negb (includes (lit ".") hostname_)
      then Err UrlHostNotDomain
      else if isBlockedHostname hostname_ then Err UrlBlockedAddress
      else
        let parsed := set_protocol parsed (toLowerCase (protocol parsed)) in
        let parsed := set_hostname parsed (toLowerCase (hostname parsed)) in
        let parsed :=
          if (str_eqb (protocol parsed) (lit "http:") &&
              str_eqb (port parsed) (lit "80")) ||
             (str_eqb (protocol parsed) (lit "https:") &&
              str_eqb (port parsed) (lit "443"))
          then set_port parsed (lit "")
          else parsed in
        Ok (URL_toString parsed).

(** [stripControlChars(raw).trim()] followed by [normalize('NFKC')]. *)
Definition cleanUrlInput `{StringBuiltins} (raw : jsstring) : jsstring :=
  normalizeNFKC (trim (stripControlChars raw)).

Definition validateUrl `{StringBuiltins} `{URLBuiltin} (raw : jsvalue)
  : result UrlError jsstring :=
  match raw with
  | JOther => Err UrlNotString
  | JString raw =>
      let s := cleanUrlInput raw in
      if (length s =? 0)%nat then Err UrlEmpty
      else if (2048 <? length s)%nat then Err UrlTooLong
      else
        match schemeMatch s with
        | None => Err UrlSchemeMissing
        | Some group =>
            let scheme := toLowerCase group in
            if negb (str_eqb scheme (lit "http")) &&
               negb (str_eqb scheme (lit "https"))
            then Err (UrlSchemeNotAllowed scheme)
            else
              match URL_new s with
              | None => Err UrlUnparseable
              | Some parsed => checkParsed parsed
              end
        end
  end.

(* ================================================================== *)
(** * Slug validation *)
(* ================================================================== *)

Definition RESERVED_SLUGS : list jsstring :=
  map lit
    [ "api"; "admin"; "assets"; "static"; "public"; "cdn";
      "_headers"; "_redirects"; "_routes"; "favicon"; "robots";
      "sitemap"; "index"; "health"; "ping"; "status";
      "login"; "logout"; "signup"; "register"; "dashboard";
      "wp-admin"; "wp-login"; ".env"; ".git" ]%string.

(** [[a-z0-9]] and [[a-z0-9\-_]] *)
Definition SLUG_HEAD_CLASS : list (Z * Z) := [ rng "a" "z"; rng "0" "9" ].
Definition SLUG_CLASS : list (Z * Z) :=
  [ rng "a" "z"; rng "0" "9"; one "-"; one "_" ].

(** [/^[a-z0-9][a-z0-9\-_]{1,31}$/] *)
Definition SLUG_RE : RegExp.t :=
  mk true (Cat (Cls SLUG_HEAD_CLASS) (quant 1 31 (Cls SLUG_CLASS))) true false.

(** [/^[a-z0-9\-_]+$/] *)
Definition LOOKUP_RE : RegExp.t :=
  mk true (plus (Cls SLUG_CLASS)) true false.

Inductive SlugError : Type :=
| SlugNotString      (* customSlug must be a string. / slug must be a string. *)
| SlugTooShort       (* customSlug must be at least 2 characters. *)
| SlugTooLong        (* customSlug must be 32 characters or fewer. *)
| SlugBadFormat      (* customSlug may only contain a-z, 0-9, hyphens, and underscores, ... *)
| SlugReserved (slug : jsstring)
                     (* The slug ... is reserved and cannot be used. *)
| SlugPathSeparator  (* customSlug must not contain path separators. *)
| LookupBadLength    (* slug must be between 1 and 64 characters. *)
| LookupBadChars     (* slug contains invalid characters. *)
| LookupTraversal.   (* slug must not contain path traversal sequences. *)

(** [stripControlChars(raw).trim().toLowerCase().normalize('NFKC')] *)
Definition cleanCustomSlug `{StringBuiltins} (raw : jsstring) : jsstring :=
  normalizeNFKC (toLowerCase (trim (stripControlChars raw))).

Definition validateCustomSlug `{StringBuiltins} (raw : jsvalue)
  : result SlugError jsstring :=
  match raw with
  | JOther => Err SlugNotString
  | JString raw =>
      let slug := cleanCustomSlug raw in
      if (length slug <? 2)%nat then Err SlugTooShort
      else if (32 <? length slug)%nat then Err SlugTooLong
      else if negb (test SLUG_RE slug) then Err SlugBadFormat
      else if has RESERVED_SLUGS slug then Err (SlugReserved slug)
      else if includes (lit "..") slug || includes (lit "/") slug ||
              includes [92] slug
      then Err SlugPathSeparator
      else Ok slug
  end.

(** [stripControlChars(raw).trim().toLowerCase()] *)
Definition cleanLookupSlug `{StringBuiltins} (raw : jsstring) : jsstring :=
  toLowerCase (trim (stripControlChars raw)).

Definition validateLookupSlug `{StringBuiltins} (raw : jsvalue)
  : result SlugError jsstring :=
  match raw with
  | JOther => Err SlugNotString
  | JString raw =>
      let slug := cleanLookupSlug raw in
      if (length slug <? 1)%nat || (64 <? length slug)%nat then Err LookupBadLength
      else if negb (test LOOKUP_RE slug) then Err LookupBadChars
      else if includes (lit "..") slug then Err LookupTraversal
      else Ok slug
  end.

(** ** Generated codes ([api/shorten.js]) *)

Definition CHARS : jsstring := lit "abcdefghijklmnopqrstuvwxyz0123456789".
Definition SHORT_LENGTH : nat := 4.

(** [generateCode(length)], given the [Uint8Array] of that length as
    [crypto.getRandomValues] filled it: each byte [b] becomes
    [CHARS[b % CHARS.length]], and the characters are joined. *)
Definition generateCode (array : list Z) : jsstring :=
  flat_map
    (fun b =>
       match nth_error CHARS (Z.to_nat (b mod Z.of_nat (length CHARS))) with
       | Some c => [c]
       | None => []
       end)
    array.

(** The contents of a [Uint8Array]. *)
Definition is_bytes (a : list Z) : bool :=
  forallb (fun b => (0 <=? b) && (b <? 256)) a.

(* ================================================================== *)
(** * Request guards *)
(* ================================================================== *)

Definition MAX_BODY_BYTES : Z := 8192.

(** [parseInt(s, 10)]: leading white space, an optional sign, then the
    longest run of decimal digits; [None] stands for [NaN], the result when
    there is no digit.  The value is compared with [MAX_BODY_BYTES] only, and
    the rounding of a long digit string to a double does not change that
    comparison, so the integer is kept exact. *)
Definition parseInt10 (s : jsstring) : option Z :=
  let s1 := dropWhile is_white s in
  let signed :=
    match s1 with
    | 45 :: t => (-1, t)
    | 43 :: t => (1, t)
    | _ => (1, s1)
    end in
  match takeWhile is_digit (snd signed) with
  | [] => None
  | ds => Some (fst signed * fold_left (fun acc d => acc * 10 + (d - 48)) ds 0)
  end.

(** [x > MAX_BODY_BYTES], false for [NaN]. *)
Definition exceeds_cap (x : option Z) : bool :=
  match x with Some n => MAX_BODY_BYTES <? n | None => false end.

(** What the function does to the body reader, in order. *)
Inductive io : Type :=
| Read (chunk : list Z)   (* [reader.read()] gave a chunk *)
| ReadDone                (* [reader.read()] gave [done] *)
| ReadFailed              (* [reader.read()] threw *)
| Cancel.                 (* [reader.cancel()] *)

Inductive BodyError : Type :=
| BodyContentType   (* Content-Type must be application/json. *)
| BodyTooLarge      (* Request body too large. *)
| BodyUnreadable    (* Could not read request body. *)
| BodyInvalidJson   (* Invalid JSON payload. *)
| BodyNotObject.    (* JSON payload must be an object. *)

(** How the [while (true)] loop over the reader ends. *)
Inductive loop_end : Type :=
| Finished (chunks : list (list Z)) (total : Z)
| TooLarge
| Threw.

(** The loop, started with the chunks kept so far and their total size. *)
Fixpoint read_loop (body : stream) (chunks : list (list Z)) (total : Z)
  : loop_end * list io :=
  match body with
  | Closed => (Finished chunks total, [ReadDone])
  | Errored => (Threw, [ReadFailed])
  | Data value rest =>
      let total := total + Z.of_nat (length value) in
      if MAX_BODY_BYTES <? total then (TooLarge, [Read value; Cancel])
      else
        let r := read_loop rest (chunks ++ [value]) total in
        (fst r, Read value :: snd r)
  end.

(** [typeof parsed !== 'object' || parsed === null || Array.isArray(parsed)] *)
Definition not_plain_object (v : json) : bool :=
  match v with JObject _ => false | _ => true end.

(** [(headers.get('Content-Type') || '').split(';')[0].trim().toLowerCase()] *)
Definition mediaType `{StringBuiltins} (request : Request) : jsstring :=
  toLowerCase
    (trim (takeWhile (fun c => negb (c =? 59)) (or_empty (ContentType request)))).

(** [parseInt(headers.get('Content-Length') || '0', 10)] *)
Definition declaredLength (request : Request) : option Z :=
  parseInt10 (match ContentLength request with
              | Some ((_ :: _) as v) => v
              | _ => lit "0"
              end).

(** [readJsonBody], with the record of its dealings with the body reader. *)
Definition readJsonBody `{StringBuiltins} `{BodyBuiltins} (request : Request)
  : result BodyError json * list io :=
  let ct := mediaType request in
  if negb (str_eqb ct (lit "application/json")) then (Err BodyContentType, [])
  else
    let contentLength := declaredLength request in
    if exceeds_cap contentLength then (Err BodyTooLarge, [])
    else
      match requestBody request with
      | None => (Err BodyUnreadable, [])
      | Some body =>
          match read_loop body [] 0 with
          | (TooLarge, log) => (Err BodyTooLarge, log)
          | (Threw, log) => (Err BodyUnreadable, log)
          | (Finished chunks total, log) =>
              let merged := concat chunks in
              match utf8_decode merged with
              | None => (Err BodyUnreadable, log)
              | Some text =>
                  match JSON_parse text with
                  | None => (Err BodyInvalidJson, log)
                  | Some parsed =>
                      if not_plain_object parsed then (Err BodyNotObject, log)
                      else (Ok parsed, log)
                  end
              end
          end
      end.

(** A body stream that delivers the given chunks and goes on as [tail],
    and the number of bytes in a list of chunks. *)
Definition feed (chunks : list (list Z)) (tail : stream) : stream :=
  fold_right Data tail chunks.

Definition byte_count (chunks : list (list Z)) : Z :=
  fold_right (fun chunk n => Z.of_nat (length chunk) + n) 0 chunks.

(* ================================================================== *)
(** * The wording of the specification *)
(* ================================================================== *)

(** A lower-case letter or a digit; the same, or a hyphen or an
    underscore. *)
Definition is_lower_alnum (c : Z) : bool := is_lower c || is_digit c.
Definition is_slug_char (c : Z) : bool :=
  is_lower c || is_digit c || (c =? 45) || (c =? 95).

(** The pattern of an assigned slug: a first character that is a
    lower-case letter or a digit, then 1 to 31 slug characters. *)
Definition slug_shape (slug : jsstring) : Prop :=
  exists h t, slug = h :: t /\ is_lower_alnum h = true /\
              forallb is_slug_char t = true /\ (1 <= length t <= 31)%nat.

(** The code points the text sanitizer is to remove, category by category
    as the specification names them. *)
Definition spec_removed (c : Z) : bool :=
  ((0 <=? c) && (c <=? 31)) || (c =? 127)          (* ASCII control characters *)
  || (c =? 8203) || (c =? 8204) || (c =? 8205)     (* zero-width space, non-joiner, joiner *)
  || (c =? 65279)                                  (* byte-order mark *)
  || ((8234 <=? c) && (c <=? 8238)).               (* directional embeddings and overrides *)

(* ================================================================== *)
(** * A reference platform *)
(* ================================================================== *)

(** Executable instances of the platform interfaces, for running the
    functions on concrete requests.  Each follows its standard on a stated
    part of the inputs: Basic Latin and the fullwidth forms for the string
    methods; for [URL], printable-ASCII [http] and [https] URLs whose host
    is a plain domain name or a dotted-quad IPv4 address in canonical form.
    The URL parser answers [None] on every string outside that part; hosts
    with characters beyond ASCII, Punycode labels and IPv6 literals, which
    the URL Standard accepts, are outside it.  The instances serve the
    concrete runs only; the general statements are over the interfaces. *)
Module Reference.

(** ** Strings *)

(** Lower case of a Basic Latin or fullwidth capital (U+FF21..U+FF3A). *)
Definition lower_unit (c : Z) : Z :=
  if is_upper c then c + 32
  else if (65313 <=? c) && (c <=? 65338) then c + 32
  else c.

(** Compatibility mapping of the fullwidth forms U+FF01..U+FF5E to
    U+0021..U+007E. *)
Definition nfkc_unit (c : Z) : Z :=
  if (65281 <=? c) && (c <=? 65374) then c - 65248 else c.

#[export] Instance strings : StringBuiltins := {
  toLowerCase := map lower_unit;
  normalizeNFKC := map nfkc_unit
}.

(** ** Decimal numerals *)

Fixpoint dec_digits (fuel : nat) (n : Z) (acc : jsstring) : jsstring :=
  match fuel with
  | O => acc
  | S fuel' =>
      let acc' := (48 + n mod 10) :: acc in
      if n <? 10 then acc' else dec_digits fuel' (n / 10) acc'
  end.

(** The decimal numeral of [0 <= n < 10^20]. *)
Definition dec (n : Z) : jsstring := dec_digits 20 n [].

Definition digits_value (ds : jsstring) : Z :=
  fold_left (fun acc d => acc * 10 + (d - 48)) ds 0.

(** ** URL records *)

Record url : Type := mkurl {
  u_scheme : jsstring;
  u_username : jsstring;
  u_password : jsstring;
  u_host : jsstring;
  u_port : option Z;
  u_path : jsstring;
  u_query : option jsstring;
  u_fragment : option jsstring
}.

Definition HTTP : jsstring := lit "http".
Definition HTTPS : jsstring := lit "https".

Definition default_port (scheme : jsstring) : Z :=
  if str_eqb scheme HTTP then 80 else 443.

(** ** Percent-encoding *)

Definition hex_digit (n : Z) : Z := if n <? 10 then 48 + n else 55 + n.

Definition pct_encode (set : Z -> bool) (s : jsstring) : jsstring :=
  flat_map (fun c => if set c then [37; hex_digit (c / 16); hex_digit (c mod 16)]
                     else [c]) s.

Definition one_of (l : list Z) (c : Z) : bool := existsb (Z.eqb c) l.

(** Within printable ASCII: the fragment, special-query and path
    percent-encode sets. *)
Definition fragment_set : Z -> bool := one_of [32; 34; 60; 62; 96].
Definition query_set : Z -> bool := one_of [32; 34; 35; 60; 62; 39].
Definition path_set : Z -> bool := one_of [32; 34; 35; 60; 62; 63; 96; 123; 125].

(** ** Hosts *)

(** The pieces of [s] between the occurrences of [d]: [s.split(d)]. *)
Fixpoint split_on (d : Z) (s : jsstring) : list jsstring :=
  match s with
  | [] => [[]]
  | c :: t =>
      if c =? d then [] :: split_on d t
      else
        match split_on d t with
        | seg :: segs => (c :: seg) :: segs
        | [] => [[c]]
        end
  end.

Definition host_char (c : Z) : bool :=
  is_lower c || is_digit c || (c =? 45) || (c =? 46).

(** The last label of a host, a trailing dot set aside. *)
Definition last_label (h : jsstring) : jsstring :=
  match rev (split_on 46 h) with
  | [] :: l :: _ => l
  | l :: _ => l
  | [] => []
  end.

(** A label that makes the host parser read the host as an IPv4 address. *)
Definition numeric_label (l : jsstring) : bool :=
  (truthy l && forallb is_digit l) || startsWith (lit "0x") l.

Definition canonical_octet (l : jsstring) : bool :=
  truthy l && forallb is_digit l && (length l <=? 3)%nat &&
  (str_eqb l (lit "0") || negb (startsWith (lit "0") l)) &&
  (digits_value l <=? 255).

Definition canonical_ipv4 (h : jsstring) : bool :=
  let ls := split_on 46 h in
  (length ls =? 4)%nat && forallb canonical_octet ls.

(** The host parser on ASCII domains and canonical dotted quads: the result
    is the host in lower case.  Punycode labels and numeric hosts in other
    notations are outside the reference. *)
Definition host_parse (v : jsstring) : option jsstring :=
  let h := map lower_unit v in
  if truthy h && forallb host_char h && negb (includes (lit "xn--") h) &&
     (negb (numeric_label (last_label h)) || canonical_ipv4 h)
  then Some h
  else None.

Definition port_parse (scheme ds : jsstring) : option (option Z) :=
  if negb (forallb is_digit ds) then None
  else if (length ds =? 0)%nat then Some None
  else
    let n := digits_value ds in
    if 65535 <? n then None
    else Some (if n =? default_port scheme then None else Some n).

(** ** The parser *)

Definition url_char (c : Z) : bool :=
  (32 <=? c) && (c <=? 126) && negb (one_of [92; 94] c).

Definition userinfo_char (c : Z) : bool :=
  is_upper c || is_lower c || is_digit c || one_of [45; 46; 95; 126] c.

Definition is_c0_or_space (c : Z) : bool := (0 <=? c) && (c <=? 32).

Definition strip_c0_space (s : jsstring) : jsstring :=
  rev (dropWhile is_c0_or_space (rev (dropWhile is_c0_or_space s))).

Definition not_in (l : list Z) (c : Z) : bool := negb (one_of l c).

(** The scheme and what follows [://]. *)
Definition scheme_prefix (s : jsstring) : option (jsstring * jsstring) :=
  if str_eqb (map lower_unit (firstn 7 s)) (lit "http://")
  then Some (HTTP, skipn 7 s)
  else if str_eqb (map lower_unit (firstn 8 s)) (lit "https://")
  then Some (HTTPS, skipn 8 s)
  else None.

(** User name and password of an authority, and its host and port part. *)
Definition split_authority (auth : jsstring)
  : option (jsstring * jsstring * jsstring) :=
  match split_on 64 auth with
  | [hp] => Some ([], [], hp)
  | [ui; hp] =>
      if forallb (fun c => userinfo_char c || (c =? 58)) ui then
        match split_on 58 ui with
        | [user] => Some (user, [], hp)
        | [user; pass] => Some (user, pass, hp)
        | _ => None
        end
      else None
  | _ => None
  end.

Definition split_hostport (scheme hp : jsstring) : option (jsstring * option Z) :=
  match split_on 58 hp with
  | [h] =>
      match host_parse h with
      | Some host => Some (host, None)
      | None => None
      end
  | [h; ds] =>
      match host_parse h, port_parse scheme ds with
      | Some host, Some p => Some (host, p)
      | _, _ => None
      end
  | _ => None
  end.

(** A path segment that the parser would resolve: [.], [..] and their
    percent-encoded spellings. *)
Definition dot_segment (seg : jsstring) : bool :=
  has (map lit [ "."; ".."; "%2e"; ".%2e"; "%2e."; "%2e%2e" ]%string)
      (map lower_unit seg).

Definition plain_path (path : jsstring) : bool :=
  forallb (fun seg => negb (dot_segment seg)) (split_on 47 path).

(** The query of what follows the path, what follows the query, and the
    fragment of that, before percent-encoding. *)
Definition query_part (after_path : jsstring) : option jsstring :=
  match after_path with
  | c :: r => if c =? 63 then Some (takeWhile (not_in [35]) r) else None
  | [] => None
  end.

Definition after_query (after_path : jsstring) : jsstring :=
  match after_path with
  | c :: r => if c =? 63 then dropWhile (not_in [35]) r else after_path
  | [] => []
  end.

Definition fragment_part (s : jsstring) : option jsstring :=
  match s with
  | c :: r => if c =? 35 then Some r else None
  | [] => None
  end.

(** Path, query and fragment of what follows the authority. *)
Definition split_tail (tail : jsstring)
  : jsstring * option jsstring * option jsstring :=
  let path_raw := takeWhile (not_in [63; 35]) tail in
  let after_path := dropWhile (not_in [63; 35]) tail in
  (pct_encode path_set (match path_raw with [] => [47] | _ => path_raw end),
   option_map (pct_encode query_set) (query_part after_path),
   option_map (pct_encode fragment_set) (fragment_part (after_query after_path))).

Definition parse (input : jsstring) : option url :=
  let s := strip_c0_space input in
  if negb (forallb url_char s) then None
  else
    match scheme_prefix s with
    | None => None
    | Some (scheme, rest) =>
        let auth := takeWhile (not_in [47; 63; 35]) rest in
        let tail := dropWhile (not_in [47; 63; 35]) rest in
        match split_authority auth with
        | None => None
        | Some (user, pass, hp) =>
            match split_hostport scheme hp with
            | None => None
            | Some (host, port_) =>
                match split_tail tail with
                | (path, query, fragment) =>
                    if plain_path path
                    then Some (mkurl scheme user pass host port_ path query fragment)
                    else None
                end
            end
        end
    end.

(** ** Serialiser, getters and setters *)

Definition userinfo_text (user pass : jsstring) : jsstring :=
  if truthy user || truthy pass
  then user ++ (if truthy pass then 58 :: pass else []) ++ [64]
  else [].

Definition port_text (p : option Z) : jsstring :=
  match p with Some n => 58 :: dec n | None => [] end.

Definition query_text (q : option jsstring) : jsstring :=
  match q with Some q => 63 :: q | None => [] end.

Definition fragment_text (f : option jsstring) : jsstring :=
  match f with Some f => 35 :: f | None => [] end.

Definition serialize (u : url) : jsstring :=
  u_scheme u ++ lit "://" ++
  userinfo_text (u_username u) (u_password u) ++
  u_host u ++ port_text (u_port u) ++
  u_path u ++ query_text (u_query u) ++ fragment_text (u_fragment u).

Definition get_protocol (u : url) : jsstring := u_scheme u ++ [58].

Definition get_port (u : url) : jsstring :=
  match u_port u with Some n => dec n | None => [] end.

Definition with_protocol (u : url) (v : jsstring) : url :=
  let name := map lower_unit (takeWhile (not_in [58]) v) in
  if str_eqb name HTTP || str_eqb name HTTPS then
    mkurl name (u_username u) (u_password u) (u_host u)
          (match u_port u with
           | Some n => if n =? default_port name then None else Some n
           | None => None
           end)
          (u_path u) (u_query u) (u_fragment u)
  else u.

Definition with_hostname (u : url) (v : jsstring) : url :=
  match host_parse v with
  | Some h =>
      mkurl (u_scheme u) (u_username u) (u_password u) h (u_port u)
            (u_path u) (u_query u) (u_fragment u)
  | None => u
  end.

Definition with_port (u : url) (v : jsstring) : url :=
  let ds := takeWhile is_digit v in
  match v, ds with
  | [], _ =>
      mkurl (u_scheme u) (u_username u) (u_password u) (u_host u) None
            (u_path u) (u_query u) (u_fragment u)
  | _, [] => u
  | _, _ =>
      match port_parse (u_scheme u) ds with
      | Some p =>
          mkurl (u_scheme u) (u_username u) (u_password u) (u_host u) p
                (u_path u) (u_query u) (u_fragment u)
      | None => u
      end
  end.

#[export] Instance urls : URLBuiltin := {
  URL := url;
  URL_new := parse;
  protocol := get_protocol;
  username := u_username;
  password := u_password;
  hostname := u_host;
  port := get_port;
  set_protocol := with_protocol;
  set_hostname := with_hostname;
  set_port := with_port;
  URL_toString := serialize
}.

(** ** The records the parser returns *)

(** A code unit that the parser keeps as it is in a component with the
    given percent-encode set. *)
Definition kept (set : Z -> bool) (c : Z) : bool := url_char c && negb (set c).

(** What one of the three sets turns a character into is kept by it. *)
Definition stable (set : Z -> bool) : Prop :=
  forall c, set c = true ->
    forallb (kept set) [37; hex_digit (c / 16); hex_digit (c mod 16)] = true.

Record canonical (u : url) : Prop := {
  can_scheme : u_scheme u = HTTP \/ u_scheme u = HTTPS;
  can_host : host_parse (u_host u) = Some (u_host u);
  can_port :
    match u_port u with
    | Some n => 0 <= n <= 65535 /\ n <> default_port (u_scheme u)
    | None => True
    end;
  can_path_head : exists t, u_path u = 47 :: t;
  can_path : forallb (kept path_set) (u_path u) = true;
  can_plain : plain_path (u_path u) = true;
  can_query :
    match u_query u with
    | Some q => forallb (kept query_set) q = true
    | None => True
    end;
  can_fragment :
    match u_fragment u with
    | Some f => forallb (kept fragment_set) f = true
    | None => True
    end
}.

(** ** Body decoding *)

(** UTF-8 decoding of bytes below 128, and [JSON.parse] of the texts
    [{}], [[]] and [null]. *)
Definition decode_ascii (bytes : list Z) : option jsstring :=
  if forallb is_ascii bytes then Some bytes else None.

Definition parse_json (text : jsstring) : option json :=
  if str_eqb text (lit "{}") then Some (JObject [])
  else if str_eqb text (lit "[]") then Some (JArray [])
  else if str_eqb text (lit "null") then Some JNull
  else None.

#[export] Instance bodies : BodyBuiltins := {
  utf8_decode := decode_ascii;
  JSON_parse := parse_json
}.

End Reference.

(* ================================================================== *)
(** * IPv4 addresses *)
(* ================================================================== *)

Definition is_octet (x : Z) : bool := (0 <=? x) && (x <=? 255).

(** The host name of the address [a.b.c.d] as the URL parser shows it: four
    decimal numbers without leading zeros. *)
Definition dotted_quad (a b c d : Z) : jsstring :=
  Reference.dec a ++ [46] ++ Reference.dec b ++ [46] ++
  Reference.dec c ++ [46] ++ Reference.dec d.

(** The blocked ranges as the specification lists them: 0.0.0.0/8,
    127.0.0.0/8, 10.0.0.0/8, 172.16.0.0/12, 192.168.0.0/16, 169.254.0.0/16,
    100.64.0.0/10, 198.51.100.0/24, 203.0.113.0/24, 240.0.0.0/4 and
    255.255.255.255. *)
Definition spec_blocked_ipv4 (a b c d : Z) : bool :=
  (a =? 0) || (a =? 127) || (a =? 10) ||
  ((a =? 172) && (16 <=? b) && (b <=? 31)) ||
  ((a =? 192) && (b =? 168)) ||
  ((a =? 169) && (b =? 254)) ||
  ((a =? 100) && (64 <=? b) && (b <=? 127)) ||
  ((a =? 198) && (b =? 51) && (c =? 100)) ||
  ((a =? 203) && (b =? 0) && (c =? 113)) ||
  ((240 <=? a) && (a <=? 255)) ||
  ((a =? 255) && (b =? 255) && (c =? 255) && (d =? 255)).

(** The same list with 240.0.0.0/8 in the place of 240.0.0.0/4. *)
Definition covered_ipv4 (a b c d : Z) : bool :=
  (a =? 0) || (a =? 127) || (a =? 10) ||
  ((a =? 172) && (16 <=? b) && (b <=? 31)) ||
  ((a =? 192) && (b =? 168)) ||
  ((a =? 169) && (b =? 254)) ||
  ((a =? 100) && (64 <=? b) && (b <=? 127)) ||
  ((a =? 198) && (b =? 51) && (c =? 100)) ||
  ((a =? 203) && (b =? 0) && (c =? 113)) ||
  (a =? 240) ||
  ((a =? 255) && (b =? 255) && (c =? 255) && (d =? 255)).

(** Some pattern of the list, anchored at the start only, matches the
    prefix [p]. *)
Definition prefix_hit (res : list RegExp.t) (p : jsstring) : bool :=
  existsb
    (fun re => bos re && negb (eos re) && accepts (ignoreCase re) (body re) p)
    res.

(* ================================================================== *)
(** * Deciding a pattern from a prefix *)
(* ================================================================== *)

(** The pattern that [test] runs on the whole string. *)
Definition pattern_of (re : RegExp.t) : regex :=
  let left := if bos re then body re else Cat (Star Any) (body re) in
  if eos re then left else Cat left (Star Any).

(** What is left of a pattern after the prefix [p]. *)
Definition derivs (ic : bool) (p : jsstring) (r : regex) : regex :=
  fold_left (fun r c => deriv ic c r) p r.

(** A pattern that, by its syntax, no string matches. *)
Fixpoint empty_lang (r : regex) : bool :=
  match r with
  | Void => true
  | Eps | Any | Cls _ | Star _ => false
  | Cat r1 r2 => empty_lang r1 || empty_lang r2
  | Alt r1 r2 => empty_lang r1 && empty_lang r2
  end.

(** No pattern of the list matches a string that starts with [p]. *)
Definition dead_after (res : list RegExp.t) (p : jsstring) : bool :=
  forallb (fun re => empty_lang (derivs (ignoreCase re) p (pattern_of re))) res.

(** The first octets of an address, each followed by its dot. *)
Definition quad1 (a : Z) : jsstring := Reference.dec a ++ [46].
Definition quad2 (a b : Z) : jsstring := quad1 a ++ Reference.dec b ++ [46].
Definition quad3 (a b c : Z) : jsstring := quad2 a b ++ Reference.dec c ++ [46].

(** Whether the first octet, the first two or the first three settle that
    the address is in a blocked range, and whether they leave it open. *)
Definition hit1 (a : Z) : bool :=
  (a =? 0) || (a =? 127) || (a =? 10) || (a =? 240).
Definition open1 (a : Z) : bool :=
  (a =? 172) || (a =? 192) || (a =? 169) || (a =? 100) ||
  (a =? 198) || (a =? 203) || (a =? 255).
Definition hit2 (a b : Z) : bool :=
  ((a =? 172) && (16 <=? b) && (b <=? 31)) ||
  ((a =? 192) && (b =? 168)) ||
  ((a =? 169) && (b =? 254)) ||
  ((a =? 100) && (64 <=? b) && (b <=? 127)).
Definition open2 (a b : Z) : bool :=
  ((a =? 198) && (b =? 51)) || ((a =? 203) && (b =? 0)) ||
  ((a =? 255) && (b =? 255)).
Definition hit3 (a b c : Z) : bool :=
  ((a =? 198) && (b =? 51) && (c =? 100)) ||
  ((a =? 203) && (b =? 0) && (c =? 113)).
Definition open3 (a b c : Z) : bool :=
  (a =? 255) && (b =? 255) && (c =? 255).

(** The words of [INTERNAL_SUFFIX_RE]. *)
Definition INTERNAL_SUFFIXES : list jsstring :=
  map lit [ "local"; "internal"; "localhost"; "lan"; "corp"; "intranet" ]%string.

(** The position of a character of [CHARS] in it. *)
Definition char_index (c : Z) : Z := if is_lower c then c - 97 else c - 48 + 26.

(* ================================================================== *)
(** * More of the URL Standard *)
(* ================================================================== *)

(** Two more properties of the parser: the scheme of the URL it returns is
    the scheme the input spells, in lower case; and an [http:] or [https:]
    URL has a host. *)
Class URLSchemeLaws `{URLBuiltin} : Prop := {
  protocol_of_scheme :
    forall s g p, schemeMatch s = Some g -> URL_new s = Some p ->
      protocol p = map ascii_lower g ++ [58];
  host_present :
    forall s p, URL_new s = Some p -> is_web p -> hostname p <> []
}.

(* ================================================================== *)
(** * Response headers ([_security.js]) *)
(* ================================================================== *)

(** A plain object with string values, its keys in the order in which they
    were added. *)
Definition object := list (jsstring * jsstring).

(** [o[k]] *)
Fixpoint get_key (k : jsstring) (o : object) : option jsstring :=
  match o with
  | [] => None
  | (k', v) :: o' => if str_eqb k' k then Some v else get_key k o'
  end.

(** [o[k] = v]: the value of a key that is there is replaced where it
    stands, a new key goes to the end. *)
Fixpoint set_key (k v : jsstring) (o : object) : object :=
  match o with
  | [] => [(k, v)]
  | (k', v') :: o' =>
      if str_eqb k' k then (k', v) :: o' else (k', v') :: set_key k v o'
  end.

(** [Object.assign(target, source)], and the spread [...source] in an
    object literal. *)
Definition assign (target source : object) : object :=
  fold_left (fun o kv => set_key (fst kv) (snd kv) o) source target.

Definition SECURITY_HEADERS : object :=
  [ (lit "X-Content-Type-Options", lit "nosniff");
    (lit "X-Frame-Options", lit "DENY");
    (lit "Referrer-Policy", lit "strict-origin-when-cross-origin");
    (lit "Permissions-Policy",
     lit "geolocation=(), microphone=(), camera=(), payment=()");
    (lit "Cache-Control", lit "no-store, no-cache");
    (lit "Content-Security-Policy",
     lit "default-src 'none'; frame-ancestors 'none'") ].

Definition CORS_PUBLIC : object :=
  [ (lit "Access-Control-Allow-Origin", lit "*");
    (lit "Access-Control-Allow-Methods", lit "POST, OPTIONS");
    (lit "Access-Control-Allow-Headers", lit "Content-Type") ].

Definition CORS_ADMIN : object :=
  [ (lit "Access-Control-Allow-Origin", lit "*");
    (lit "Access-Control-Allow-Methods", lit "GET, DELETE, OPTIONS");
    (lit "Access-Control-Allow-Headers", lit "Content-Type, Authorization") ].

(** [secureHeaders(...sets)] is [Object.assign({}, SECURITY_HEADERS, ...sets)]. *)
Definition secureHeaders (sets : list object) : object :=
  fold_left assign (SECURITY_HEADERS :: sets) [].

(* ================================================================== *)
(** * Responses *)
(* ================================================================== *)

(** The [error] texts of the responses: a failure of one of the validators,
    or a text of the handler itself. *)
Inductive failure : Type :=
| BodyFailure (e : BodyError)
| UrlFailure (e : UrlError)
| SlugFailure (e : SlugError)
| UrlFieldRequired       (* A "url" field is required. *)
| SlugTaken (slug : jsstring)
                         (* The slug "..." is already taken. *)
| SlugNotFound           (* Slug not found. *)
| EmptyBatch             (* "slugs" array must not be empty. *)
| BatchTooLarge (limit : nat)
                         (* Batch requests are limited to ... slugs. *)
| InvalidBatchSlug (shown : jsstring) (e : SlugError)
                         (* Invalid slug "...": followed by the failure *)
| SlugFieldRequired      (* Payload must include "slug" (string) or "slugs" (array of strings). *)
| Unauthorized           (* Unauthorized. Your clearance level is insufficient. *)
| RetrieveFailed         (* Failed to retrieve records. *)
| PurgeFailed            (* Purge failed. *)
| DeleteFailed           (* Delete failed. *)
| DeleteFieldRequired.   (* Provide either { "slug": "..." } to delete one, or { "purgeAll": true } to wipe all. *)

(** A value of a response object: a string, one of the error texts, a
    value that [JSON.parse] gave ([None] is [undefined], a property that
    [JSON.stringify] leaves out), a number, a boolean, an array or an
    object. *)
#[warnings="-register-all"]
Inductive datum : Type :=
| Text (s : jsstring)
| Message (f : failure)
| Value (v : option json)
| Number (n : Z)
| Flag (b : bool)
| Items (l : list datum)
| Fields (l : list (jsstring * datum)).

(** The first argument of [new Response]: the text
    [JSON.stringify(data, null, 2)] of an object literal, kept as the
    literal; a plain text; or [null]. *)
Inductive response_body : Type :=
| JsonBody (data : list (jsstring * datum))
| TextBody (s : jsstring)
| NoBody.

(** A response, as the arguments that [new Response] was given:
    [res_headers] is the object passed as [headers], with its keys as they
    are written in the source.  (The [Headers] of the response compare names
    without regard to letter case; the keys that the handlers pass differ
    by more than their case.) *)
Record Response : Type := mkResponse {
  res_status : Z;
  res_headers : object;
  res_body : response_body
}.

(** More of the platform: [String(v)], the conversion that a template
    literal and the [Headers] class apply to a value ([None] is
    [undefined]); whether [new Response] takes a status and a set of
    headers, or throws; and [JSON.stringify] of a value. *)
Class HandlerBuiltins : Type := {
  ToString : option json -> jsstring;
  Response_new_ok : Z -> object -> bool;
  JSON_stringify : json -> jsstring
}.

(* ================================================================== *)
(** * Handlers and their surroundings *)
(* ================================================================== *)

(** What [kv.list] returns: the names of the keys of a page, the cursor of
    the next page, if any, and whether the listing is complete. *)
Record page : Type := {
  page_keys : list jsstring;
  page_cursor : option jsstring;
  list_complete : bool
}.

(** What is decided outside the code: the texts that the successive calls
    of [getRandomConspiracy] return and the text of [getStatusMessage] for a
    status (both of [_conspiracies.js]), the bytes that
    [crypto.getRandomValues] hands out, the time that
    [new Date().toISOString()] shows, which operations on the KV namespace
    fail, by their rank among the operations of the run, for reads started
    together the order in which they complete, as the list of their ranks
    among them, and the pages that the successive calls of [kv.list]
    return; a call after the last of these pages returns an empty page
    marked complete. *)
Record Outside : Type := {
  conspiracies : nat -> jsstring;
  getStatusMessage : Z -> jsstring;
  entropy : nat -> Z;
  clock : jsstring;
  kv_fails : nat -> bool;
  arrival : nat -> list nat;
  pages : list page
}.

Inductive kv_event : Type :=
| KvGet (key : jsstring)
| KvPut (key value : jsstring)
| KvList (cursor : option jsstring)
| KvDelete (key : jsstring).

(** What a run changes: the entries of the [LINKS] namespace, the
    operations made on it, the number of random bytes drawn, the number of
    calls of [getRandomConspiracy], and the dealings with the reader of the
    request body. *)
Record World : Type := mkWorld {
  entries : object;
  events : list kv_event;
  drawn : nat;
  asked : nat;
  reads : list io
}.

(** A computation returns a value or throws. *)
Inductive outcome (A : Type) : Type :=
| Returned (a : A)
| Thrown.

Arguments Returned {A} a.
Arguments Thrown {A}.

Definition act (A : Type) : Type := Outside -> World -> outcome A * World.

Definition ret {A : Type} (a : A) : act A := fun _ w => (Returned a, w).

Definition throw {A : Type} : act A := fun _ w => (Thrown, w).

Definition bind {A B : Type} (m : act A) (f : A -> act B) : act B :=
  fun o w =>
    match m o w with
    | (Returned a, w') => f a o w'
    | (Thrown, w') => (Thrown, w')
    end.

Notation "x <- m ;; f" := (bind m (fun x => f))
  (at level 61, m at next level, right associativity).

(** [try { block } catch { handler }] *)
Definition try_catch {A : Type} (block handler : act A) : act A :=
  fun o w =>
    match block o w with
    | (Thrown, w') => handler o w'
    | done => done
    end.

(** [await kv.get(key)]: [null] for a key without entry. *)
Definition kv_get (key : jsstring) : act (option jsstring) :=
  fun o w =>
    let w' := mkWorld (entries w) (events w ++ [KvGet key])
                      (drawn w) (asked w) (reads w) in
    if kv_fails o (length (events w)) then (Thrown, w')
    else (Returned (get_key key (entries w)), w').

(** [await kv.put(key, value)] *)
Definition kv_put (key value : jsstring) : act unit :=
  fun o w =>
    let log := events w ++ [KvPut key value] in
    if kv_fails o (length (events w))
    then (Thrown, mkWorld (entries w) log (drawn w) (asked w) (reads w))
    else (Returned tt,
          mkWorld (set_key key value (entries w)) log (drawn w) (asked w) (reads w)).

(** [await kv.delete(key)] *)
Definition kv_delete (key : jsstring) : act unit :=
  fun o w =>
    let log := events w ++ [KvDelete key] in
    if kv_fails o (length (events w))
    then (Thrown, mkWorld (entries w) log (drawn w) (asked w) (reads w))
    else (Returned tt,
          mkWorld (filter (fun kv => negb (str_eqb (fst kv) key)) (entries w))
                  log (drawn w) (asked w) (reads w)).

(** [await kv.list({ cursor, limit: 1000 })], [script] being the pages that
    are still to come. *)
Definition kv_list (script : list page) (cursor : option jsstring) : act page :=
  fun o w =>
    let w' := mkWorld (entries w) (events w ++ [KvList cursor])
                      (drawn w) (asked w) (reads w) in
    if kv_fails o (length (events w)) then (Thrown, w')
    else (Returned (match script with
                    | p :: _ => p
                    | [] => {| page_keys := []; page_cursor := None;
                               list_complete := true |}
                    end),
          w').

(** [await kv.get(key, { type: 'json' })]: the entry read by [JSON.parse]. *)
Definition kv_get_json `{BodyBuiltins} (key : jsstring) : act json :=
  text <- kv_get key ;;
  match text with
  | None => ret JNull
  | Some t =>
      match JSON_parse t with
      | Some v => ret v
      | None => throw
      end
  end.

Definition getRandomConspiracy : act jsstring :=
  fun o w =>
    (Returned (conspiracies o (asked w)),
     mkWorld (entries w) (events w) (drawn w) (S (asked w)) (reads w)).

(** [crypto.getRandomValues(new Uint8Array(length))] *)
Definition getRandomValues (len : nat) : act (list Z) :=
  fun o w =>
    (Returned (map (fun i => entropy o i mod 256) (seq (drawn w) len)),
     mkWorld (entries w) (events w) (drawn w + len) (asked w) (reads w)).

(** [new Date().toISOString()] *)
Definition Date_now : act jsstring := fun o w => (Returned (clock o), w).

(** [getStatusMessage(status)] *)
Definition statusMessage (status : Z) : act jsstring :=
  fun o w => (Returned (getStatusMessage o status), w).

(** [await readJsonBody(request)] *)
Definition readBody `{StringBuiltins} `{BodyBuiltins} (request : Request)
  : act (result BodyError json) :=
  fun _ w =>
    let r := readJsonBody request in
    (Returned (fst r),
     mkWorld (entries w) (events w) (drawn w) (asked w) (reads w ++ snd r)).

(** [new Response(body, { status, headers })] *)
Definition new_Response `{HandlerBuiltins}
    (b : response_body) (status : Z) (headers : object) : act Response :=
  fun _ w =>
    if Response_new_ok status headers
    then (Returned (mkResponse status headers b), w)
    else (Thrown, w).

(** [jsonResponse(data, status, extraHeaders)] *)
Definition jsonResponse `{HandlerBuiltins}
    (data : list (jsstring * datum)) (status : Z) (extraHeaders : object)
  : act Response :=
  new_Response (JsonBody data) status
    (assign [(lit "Content-Type", lit "application/json")]
            (secureHeaders [extraHeaders])).

(** ** Values of [JSON.parse] in a handler *)

(** The entry of a key among the properties of an object. *)
Fixpoint field (k : jsstring) (fields : list (jsstring * json)) : option json :=
  match fields with
  | [] => None
  | (k', v) :: rest => if str_eqb k' k then Some v else field k rest
  end.

(** [v.k] for a key that no prototype defines: the own property of an
    object, [undefined] on every other value. *)
Definition prop (v : json) (k : jsstring) : option json :=
  match v with
  | JObject fields => field k fields
  | _ => None
  end.

(** A value as a validator sees it: a string or not. *)
Definition to_jsvalue (v : option json) : jsvalue :=
  match v with
  | Some (JText s) => JString s
  | _ => JOther
  end.

(** [v === undefined || v === null] *)
Definition nullish (v : option json) : bool :=
  match v with
  | None | Some JNull => true
  | _ => false
  end.

(** Truthiness of a value of [JSON.parse], and of a string or [null]. *)
Definition json_truthy (v : json) : bool :=
  match v with
  | JNull => false
  | JBool b => b
  | JNumber n => negb (n =? 0)
  | JText s => truthy s
  | JArray _ | JObject _ => true
  end.

Definition truthy_opt (s : option jsstring) : bool :=
  match s with
  | Some s => truthy s
  | None => false
  end.

(** ** What a handler is called with *)

(** The request, the headers and properties of it that the handlers read
    besides those of [Request], the origin of its URL
    ([new URL(request.url).origin]) and the [slug] parameter of the route. *)
Record EventContext : Type := {
  request : Request;
  CF_Connecting_IP : option jsstring;
  X_Forwarded_For : option jsstring;
  User_Agent : option jsstring;
  cf_country : option jsstring;
  origin : jsstring;
  params_slug : option jsstring
}.

(* ================================================================== *)
(** * Creating a link ([api/shorten.js]) *)
(* ================================================================== *)

Module Shorten.

Definition MAX_RETRIES : nat := 8.

(** [generateCode(length)], with its call of [crypto.getRandomValues]. *)
Definition newCode (len : nat) : act jsstring :=
  array <- getRandomValues len ;;
  ret (generateCode array).

(** The [for] loop of [generateUniqueSlug] over the values of [i] that are
    left, and the [return] after it. *)
Fixpoint unique_loop (indices : list nat) : act jsstring :=
  match indices with
  | [] => newCode (SHORT_LENGTH + 2)
  | i :: rest =>
      let len := if (i <? 5)%nat then SHORT_LENGTH else (SHORT_LENGTH + 1)%nat in
      slug <- newCode len ;;
      existing <- kv_get slug ;;
      if negb (truthy_opt existing) then ret slug
      else unique_loop rest
  end.

Definition generateUniqueSlug : act jsstring :=
  unique_loop (seq 0 MAX_RETRIES).

(** The three values taken from the request for the record. *)
Definition client_ip (context : EventContext) : jsstring :=
  if truthy_opt (CF_Connecting_IP context)
  then or_empty (CF_Connecting_IP context)
  else
    let first :=
      option_map (fun v => trim (takeWhile (fun c => negb (c =? 44)) v))
                 (X_Forwarded_For context) in
    if truthy_opt first then or_empty first else lit "unknown".

Definition client_userAgent (context : EventContext) : jsstring :=
  firstn 512 (if truthy_opt (User_Agent context)
              then or_empty (User_Agent context)
              else lit "unknown").

Definition client_country (context : EventContext) : jsstring :=
  if truthy_opt (cf_country context)
  then or_empty (cf_country context)
  else lit "unknown".

(** The record of a link. *)
Definition record (context : EventContext) (normalisedUrl slug createdAt : jsstring)
  : json :=
  JObject
    [ (lit "url", JText normalisedUrl);
      (lit "slug", JText slug);
      (lit "ip", JText (client_ip context));
      (lit "userAgent", JText (client_userAgent context));
      (lit "country", JText (client_country context));
      (lit "createdAt", JText createdAt) ].

(** The value of the [X-Status] header of the answer to a creation; its
    sixteenth character is U+2014. *)
Definition RECORD_CREATED : jsstring :=
  lit "RECORD CREATED " ++ [8212] ++ lit " IT KNOWS WHERE YOU GO".

Section Handler.

Context `{SB : StringBuiltins} `{UB : URLBuiltin} `{BB : BodyBuiltins}
        `{HB : HandlerBuiltins}.

(** The end of [onRequestPost], from the slug on: the record is written and
    the answer is made. *)
Definition store (context : EventContext) (normalisedUrl slug : jsstring)
  : act Response :=
  createdAt <- Date_now ;;
  _ <- kv_put slug (JSON_stringify (record context normalisedUrl slug createdAt)) ;;
  let baseUrl := origin context in
  let shortUrl := baseUrl ++ lit "/" ++ slug in
  truth <- getRandomConspiracy ;;
  jsonResponse
    [ (lit "shortUrl", Text shortUrl); (lit "slug", Text slug);
      (lit "url", Text normalisedUrl); (lit "truth", Text truth) ]
    200
    (set_key (lit "X-Status") RECORD_CREATED (assign [] CORS_PUBLIC)).

Definition onRequestPost (context : EventContext) : act Response :=
  bodyResult <- readBody (request context) ;;
  match bodyResult with
  | Err e =>
      truth <- getRandomConspiracy ;;
      jsonResponse
        [ (lit "error", Message (BodyFailure e)); (lit "truth", Text truth) ]
        400 CORS_PUBLIC
  | Ok payload =>
      let url := prop payload (lit "url") in
      let customSlug := prop payload (lit "customSlug") in
      if nullish url then
        truth <- getRandomConspiracy ;;
        jsonResponse
          [ (lit "error", Message UrlFieldRequired); (lit "truth", Text truth) ]
          400 CORS_PUBLIC
      else
        match validateUrl (to_jsvalue url) with
        | Err e =>
            truth <- getRandomConspiracy ;;
            jsonResponse
              [ (lit "error", Message (UrlFailure e)); (lit "truth", Text truth) ]
              422 CORS_PUBLIC
        | Ok normalisedUrl =>
            match customSlug with
            | Some raw =>
                match validateCustomSlug (to_jsvalue (Some raw)) with
                | Err e =>
                    truth <- getRandomConspiracy ;;
                    jsonResponse
                      [ (lit "error", Message (SlugFailure e));
                        (lit "truth", Text truth) ]
                      422 CORS_PUBLIC
                | Ok slug =>
                    existing <- kv_get slug ;;
                    if truthy_opt existing then
                      truth <- getRandomConspiracy ;;
                      jsonResponse
                        [ (lit "error", Message (SlugTaken slug));
                          (lit "slug", Text slug); (lit "truth", Text truth) ]
                        409 CORS_PUBLIC
                    else store context normalisedUrl slug
                end
            | None =>
                slug <- generateUniqueSlug ;;
                store context normalisedUrl slug
            end
        end
  end.

(** [onRequestOptions] *)
Definition onRequestOptions : act Response :=
  new_Response NoBody 204 (secureHeaders [CORS_PUBLIC]).

End Handler.

End Shorten.

(* ================================================================== *)
(** * Following a link ([[slug].js]) *)
(* ================================================================== *)

Module Redirect.

Definition BASE_HEADERS : object := secureHeaders [].

(** The pattern of the check before the lookup: anchored at both ends, a
    letter or digit, then up to 63 letters, digits, hyphens or underscores;
    flag [i]. *)
Definition ROUTE_RE : RegExp.t :=
  mk true (Cat (Cls SLUG_HEAD_CLASS) (quant 0 63 (Cls SLUG_CLASS))) true true.

Definition TEXT_PLAIN : jsstring := lit "text/plain; charset=utf-8".

(** What the handler returns: the answer of [context.next()], or a
    response of its own. *)
Inductive answer : Type :=
| Next
| Respond (r : Response).

Section Handler.

Context `{SB : StringBuiltins} `{BB : BodyBuiltins} `{HB : HandlerBuiltins}.

(** The text of the 302 response. *)
Definition notice (message target : jsstring) : jsstring :=
  message ++ [10; 10] ++ lit "DESTINATION: " ++ target ++
  [10; 10] ++ lit "If you are reading this in a terminal, you know too much.".

(** The headers of the 302 response, [target] being [data.url] as a
    string. *)
Definition found_headers (target conspiracy : jsstring) : object :=
  [ (lit "Location", target);
    (lit "Content-Type", TEXT_PLAIN);
    (lit "X-Truth", conspiracy);
    (lit "X-Redirect-To", target);
    (lit "Cache-Control", lit "no-store, no-cache");
    (lit "X-Frame-Options", lit "DENY");
    (lit "X-Content-Type-Options", lit "nosniff") ].

(** The [try] block, after the two checks on the slug. *)
Definition lookup (slug : jsstring) : act Response :=
  data <- kv_get_json (toLowerCase slug) ;;
  if negb (json_truthy data) then
    message <- statusMessage 404 ;;
    truth <- getRandomConspiracy ;;
    new_Response (TextBody message) 404
      (set_key (lit "X-Status") (lit "MEMORY-HOLED")
         (set_key (lit "X-Truth") truth
            (assign [(lit "Content-Type", TEXT_PLAIN)] BASE_HEADERS)))
  else
    conspiracy <- getRandomConspiracy ;;
    message <- statusMessage 302 ;;
    let target := ToString (prop data (lit "url")) in
    new_Response (TextBody (notice message target)) 302
                 (found_headers target conspiracy).

(** The response of the [catch] block, and that of the check on the slug. *)
Definition plain (status : Z) : act Response :=
  message <- statusMessage status ;;
  truth <- getRandomConspiracy ;;
  new_Response (TextBody message) status
    (set_key (lit "X-Truth") truth
       (assign [(lit "Content-Type", TEXT_PLAIN)] BASE_HEADERS)).

Definition onRequest (context : EventContext) : act answer :=
  match params_slug context with
  | None => ret Next
  | Some slug =>
      if negb (truthy slug) || startsWith (lit "api") slug ||
         includes (lit ".") slug
      then ret Next
      else if negb (test ROUTE_RE slug) || (64 <? length slug)%nat then
        r <- plain 400 ;; ret (Respond r)
      else
        r <- try_catch (lookup slug) (plain 500) ;; ret (Respond r)
  end.

End Handler.

End Redirect.

(* ================================================================== *)
(** * Looking a link up ([api/lookup.js]) *)
(* ================================================================== *)

Module Lookup.

Definition BATCH_LIMIT : nat := 50.

(** [x || null] *)
Definition or_null (v : option json) : option json :=
  match v with
  | Some x => if json_truthy x then Some x else Some JNull
  | None => Some JNull
  end.

(** Whether a response value has the key [k], at its top or below. *)
Fixpoint shows (k : jsstring) (d : datum) : bool :=
  match d with
  | Text _ | Message _ | Value _ | Number _ | Flag _ => false
  | Items l => existsb (shows k) l
  | Fields l =>
      (fix among (l : list (jsstring * datum)) : bool :=
         match l with
         | [] => false
         | (k', d') :: l' => str_eqb k' k || shows k d' || among l'
         end) l
  end.

Section Handler.

Context `{SB : StringBuiltins} `{BB : BodyBuiltins} `{HB : HandlerBuiltins}.

Definition formatRecord (record : json) (baseUrl : jsstring) (includePrivate : bool)
  : list (jsstring * datum) :=
  [ (lit "slug", Value (prop record (lit "slug")));
    (lit "shortUrl",
     Text (baseUrl ++ lit "/" ++ ToString (prop record (lit "slug"))));
    (lit "url", Value (prop record (lit "url")));
    (lit "createdAt", Value (prop record (lit "createdAt")));
    (lit "country", Value (or_null (prop record (lit "country")))) ]
  ++ (if includePrivate
      then [ (lit "ip", Value (or_null (prop record (lit "ip"))));
             (lit "userAgent", Value (or_null (prop record (lit "userAgent")))) ]
      else []).

(** The [for] loop of the batch: every slug is validated, the first failure
    ends the loop. *)
Fixpoint validate_all (slugs : list json)
  : result (json * SlugError) (list jsstring) :=
  match slugs with
  | [] => Ok []
  | raw :: rest =>
      match validateLookupSlug (to_jsvalue (Some raw)) with
      | Err e => Err (raw, e)
      | Ok slug =>
          match validate_all rest with
          | Err f => Err f
          | Ok validated => Ok (slug :: validated)
          end
      end
  end.

(** The reads that [validated.map] starts, one per slug and in the order of
    the slugs, before any of them completes: each gives its value or
    fails. *)
Fixpoint start_all (keys : list jsstring) (o : Outside) (w : World)
  : list (outcome json) * World :=
  match keys with
  | [] => ([], w)
  | key :: rest =>
      match kv_get_json key o w with
      | (first, w1) =>
          match start_all rest o w1 with
          | (others, w2) => (first :: others, w2)
          end
      end
  end.

(** The values of the reads when none failed. *)
Fixpoint all_returned (l : list (outcome json)) : option (list json) :=
  match l with
  | [] => Some []
  | Returned v :: rest => option_map (cons v) (all_returned rest)
  | Thrown :: _ => None
  end.

(** The slugs with their records, in the order in which the reads
    completed. *)
Definition completed (o : Outside) (keys : list jsstring) (records : list json)
  : list (jsstring * json) :=
  flat_map
    (fun i =>
       match nth_error keys i, nth_error records i with
       | Some s, Some record => [(s, record)]
       | _, _ => []
       end)
    (arrival o (length keys)).

(** [await Promise.all(validated.map(...))]: the two arrays as the
    callbacks filled them, or the failure of a read. *)
Definition read_batch (validated : list jsstring) (baseUrl : jsstring)
    (isAdmin : bool) : act (list datum * list datum) :=
  fun o w =>
    match start_all validated o w with
    | (outcomes, w') =>
        match all_returned outcomes with
        | None => (Thrown, w')
        | Some records =>
            let done := completed o validated records in
            (Returned
               (map (fun sr => Fields (formatRecord (snd sr) baseUrl isAdmin))
                    (filter (fun sr => json_truthy (snd sr)) done),
                map (fun sr => Text (fst sr))
                    (filter (fun sr => negb (json_truthy (snd sr))) done)),
             w')
        end
    end.

(** The last answer of the handler, with its examples. *)
Definition usage (truth : jsstring) : list (jsstring * datum) :=
  [ (lit "error", Message SlugFieldRequired);
    (lit "examples",
     Fields [ (lit "single", Fields [ (lit "slug", Text (lit "ab3x")) ]);
              (lit "batch",
               Fields [ (lit "slugs",
                         Items [ Text (lit "ab3x"); Text (lit "yz9q") ]) ]) ]);
    (lit "truth", Text truth) ].

Definition onRequestPost (context : EventContext) (env : Env) : act Response :=
  bodyResult <- readBody (request context) ;;
  match bodyResult with
  | Err e =>
      truth <- getRandomConspiracy ;;
      jsonResponse
        [ (lit "error", Message (BodyFailure e)); (lit "truth", Text truth) ]
        400 CORS_PUBLIC
  | Ok payload =>
      let isAdmin := fst (checkAdminAuth (request context) env) in
      let baseUrl := origin context in
      let slug := prop payload (lit "slug") in
      let slugs := prop payload (lit "slugs") in
      match slug with
      | Some raw =>
          match validateLookupSlug (to_jsvalue (Some raw)) with
          | Err e =>
              truth <- getRandomConspiracy ;;
              jsonResponse
                [ (lit "error", Message (SlugFailure e)); (lit "truth", Text truth) ]
                422 CORS_PUBLIC
          | Ok key =>
              record <- kv_get_json key ;;
              if negb (json_truthy record) then
                truth <- getRandomConspiracy ;;
                jsonResponse
                  [ (lit "error", Message SlugNotFound); (lit "slug", Text key);
                    (lit "truth", Text truth) ]
                  404
                  (set_key (lit "X-Status") (lit "MEMORY-HOLED")
                           (assign [] CORS_PUBLIC))
              else jsonResponse (formatRecord record baseUrl isAdmin) 200 CORS_PUBLIC
          end
      | None =>
          match slugs with
          | Some (JArray items) =>
              if (length items =? 0)%nat then
                truth <- getRandomConspiracy ;;
                jsonResponse
                  [ (lit "error", Message EmptyBatch); (lit "truth", Text truth) ]
                  400 CORS_PUBLIC
              else if (BATCH_LIMIT <? length items)%nat then
                truth <- getRandomConspiracy ;;
                jsonResponse
                  [ (lit "error", Message (BatchTooLarge BATCH_LIMIT));
                    (lit "truth", Text truth) ]
                  400 CORS_PUBLIC
              else
                match validate_all items with
                | Err (raw, e) =>
                    truth <- getRandomConspiracy ;;
                    jsonResponse
                      [ (lit "error",
                         Message (InvalidBatchSlug (firstn 40 (ToString (Some raw))) e));
                        (lit "truth", Text truth) ]
                      422 CORS_PUBLIC
                | Ok validated =>
                    found <- read_batch validated baseUrl isAdmin ;;
                    truth <- getRandomConspiracy ;;
                    jsonResponse
                      [ (lit "results", Items (fst found));
                        (lit "notFound", Items (snd found));
                        (lit "count", Number (Z.of_nat (length (fst found))));
                        (lit "truth", Text truth) ]
                      200 CORS_PUBLIC
                end
          | _ =>
              truth <- getRandomConspiracy ;;
              jsonResponse (usage truth) 400 CORS_PUBLIC
          end
      end
  end.

(** [onRequestOptions] *)
Definition onRequestOptions : act Response :=
  new_Response NoBody 204 (secureHeaders [CORS_PUBLIC]).

End Handler.

End Lookup.

(* ================================================================== *)
(** * Administration ([api/admin.js]) *)
(* ================================================================== *)

Module Admin.

Section Handler.

Context `{SB : StringBuiltins} `{BB : BodyBuiltins} `{HB : HandlerBuiltins}.

(** The value of [WWW-Authenticate]. *)
Definition CHALLENGE : jsstring :=
  lit "Bearer realm=" ++ [34] ++ lit "b0x.nz" ++ [34].

Definition unauthorized : act Response :=
  truth <- getRandomConspiracy ;;
  jsonResponse
    [ (lit "error", Message Unauthorized); (lit "truth", Text truth) ]
    401
    (set_key (lit "WWW-Authenticate") CHALLENGE (assign [] CORS_ADMIN)).

(** [await Promise.all(result.keys.map(...))] in [getAllLinks]: the reads
    of a page, started together; the values that are truthy, in the order
    in which the reads completed. *)
Definition read_page (keys : list jsstring) : act (list json) :=
  fun o w =>
    match Lookup.start_all keys o w with
    | (outcomes, w') =>
        match Lookup.all_returned outcomes with
        | None => (Thrown, w')
        | Some records =>
            (Returned
               (map snd (filter (fun sr => json_truthy (snd sr))
                                (Lookup.completed o keys records))),
             w')
        end
    end.

(** The [do ... while] loop of [getAllLinks]. *)
Fixpoint links_loop (script : list page) (cursor : option jsstring)
    (links : list json) : act (list json) :=
  result <- kv_list script cursor ;;
  found <- read_page (page_keys result) ;;
  let links := links ++ found in
  let cursor := page_cursor result in
  if list_complete result then ret links
  else if truthy_opt cursor then
    match script with
    | _ :: rest => links_loop rest cursor links
    | [] => ret links
    end
  else ret links.

Definition getAllLinks : act (list json) :=
  fun o => links_loop (pages o) None [] o.

Definition onRequestGet (context : EventContext) (env : Env) : act Response :=
  if negb (fst (checkAdminAuth (request context) env)) then unauthorized
  else
    try_catch
      (links <- getAllLinks ;;
       truth <- getRandomConspiracy ;;
       jsonResponse
         [ (lit "links", Items (map (fun v => Value (Some v)) links));
           (lit "count", Number (Z.of_nat (length links)));
           (lit "truth", Text truth) ]
         200 CORS_ADMIN)
      (jsonResponse [ (lit "error", Message RetrieveFailed) ] 500 CORS_ADMIN).

(** [await Promise.all(result.keys.map(k => env.LINKS.delete(k.name)))]:
    the deletions of a page, started together. *)
Fixpoint start_deletes (keys : list jsstring) (o : Outside) (w : World)
  : bool * World :=
  match keys with
  | [] => (true, w)
  | key :: rest =>
      match kv_delete key o w with
      | (first, w1) =>
          match start_deletes rest o w1 with
          | (others, w2) =>
              (match first with Returned _ => others | Thrown => false end, w2)
          end
      end
  end.

Definition delete_page (keys : list jsstring) : act unit :=
  fun o w =>
    match start_deletes keys o w with
    | (true, w') => (Returned tt, w')
    | (false, w') => (Thrown, w')
    end.

(** The [do ... while] loop of the purge. *)
Fixpoint purge_loop (script : list page) (cursor : option jsstring)
    (deleted : nat) : act nat :=
  result <- kv_list script cursor ;;
  _ <- delete_page (page_keys result) ;;
  let deleted := (deleted + length (page_keys result))%nat in
  let cursor := page_cursor result in
  if list_complete result then ret deleted
  else if truthy_opt cursor then
    match script with
    | _ :: rest => purge_loop rest cursor deleted
    | [] => ret deleted
    end
  else ret deleted.

(** [purgeAll === true] *)
Definition is_true (v : option json) : bool :=
  match v with
  | Some (JBool true) => true
  | _ => false
  end.

Definition onRequestDelete (context : EventContext) (env : Env) : act Response :=
  if negb (fst (checkAdminAuth (request context) env)) then unauthorized
  else
    bodyResult <- readBody (request context) ;;
    match bodyResult with
    | Err e =>
        truth <- getRandomConspiracy ;;
        jsonResponse
          [ (lit "error", Message (BodyFailure e)); (lit "truth", Text truth) ]
          400 CORS_ADMIN
    | Ok payload =>
        let slug := prop payload (lit "slug") in
        let purgeAll := prop payload (lit "purgeAll") in
        if is_true purgeAll then
          try_catch
            (deleted <- (fun o => purge_loop (pages o) None 0 o) ;;
             truth <- getRandomConspiracy ;;
             jsonResponse
               [ (lit "success", Flag true);
                 (lit "deleted", Number (Z.of_nat deleted));
                 (lit "truth", Text truth) ]
               200 CORS_ADMIN)
            (jsonResponse [ (lit "error", Message PurgeFailed) ] 500 CORS_ADMIN)
        else
          match slug with
          | Some raw =>
              match validateLookupSlug (to_jsvalue (Some raw)) with
              | Err e =>
                  truth <- getRandomConspiracy ;;
                  jsonResponse
                    [ (lit "error", Message (SlugFailure e));
                      (lit "truth", Text truth) ]
                    422 CORS_ADMIN
              | Ok key =>
                  try_catch
                    (_ <- kv_delete key ;;
                     truth <- getRandomConspiracy ;;
                     jsonResponse
                       [ (lit "success", Flag true); (lit "slug", Text key);
                         (lit "truth", Text truth) ]
                       200 CORS_ADMIN)
                    (jsonResponse [ (lit "error", Message DeleteFailed) ]
                                  500 CORS_ADMIN)
              end
          | None =>
              truth <- getRandomConspiracy ;;
              jsonResponse
                [ (lit "error", Message DeleteFieldRequired);
                  (lit "truth", Text truth) ]
                400 CORS_ADMIN
          end
    end.

(** [onRequestOptions] *)
Definition onRequestOptions : act Response :=
  new_Response NoBody 204 (secureHeaders [CORS_ADMIN]).

End Handler.

End Admin.

(* ================================================================== *)
(** * A reference platform for the handlers *)
(* ================================================================== *)

(** Executable instances of [HandlerBuiltins] and, for the entries of the
    namespace, of [BodyBuiltins]: [String] and [JSON.stringify] on the
    values of [json], numbers being integers below 10^20 in absolute value;
    [new Response] as the Workers runtime has it, which refuses a header
    value that holds NUL, LF or CR and a status outside 200..599; and
    [JSON.parse] on the compact text of an object whose values are strings,
    [None] on every other text. *)
Module ReferenceValues.

Definition number_text (n : Z) : jsstring :=
  if n <? 0 then 45 :: Reference.dec (- n) else Reference.dec n.

(** [String(v)] of a value of [JSON.parse]. *)
Fixpoint text_of (v : json) : jsstring :=
  match v with
  | JNull => lit "null"
  | JBool b => if b then lit "true" else lit "false"
  | JNumber n => number_text n
  | JText s => s
  | JArray items =>
      (fix join (l : list json) : jsstring :=
         match l with
         | [] => []
         | x :: l' =>
             match x with JNull => [] | _ => text_of x end ++
             match l' with [] => [] | _ => 44 :: join l' end
         end) items
  | JObject _ => lit "[object Object]"
  end.

Definition to_string (v : option json) : jsstring :=
  match v with
  | None => lit "undefined"
  | Some v => text_of v
  end.

Definition response_ok (status : Z) (headers : object) : bool :=
  (200 <=? status) && (status <=? 599) &&
  forallb (fun kv => forallb (Reference.not_in [0; 10; 13]) (snd kv)) headers.

(** ** [JSON.stringify] *)

Definition hex_lower (n : Z) : Z := if n <? 10 then 48 + n else 87 + n.

(** [\uXXXX] *)
Definition unicode_escape (c : Z) : jsstring :=
  [92; 117; hex_lower (c / 4096); hex_lower ((c / 256) mod 16);
   hex_lower ((c / 16) mod 16); hex_lower (c mod 16)].

Definition escape_unit (c : Z) : jsstring :=
  if c =? 34 then [92; 34]
  else if c =? 92 then [92; 92]
  else if c =? 8 then [92; 98]
  else if c =? 9 then [92; 116]
  else if c =? 10 then [92; 110]
  else if c =? 12 then [92; 102]
  else if c =? 13 then [92; 114]
  else if c <? 32 then unicode_escape c
  else [c].

(** The characters of a string between the quotes: the quote, the
    backslash and the controls escaped, and so a surrogate without its
    partner. *)
Fixpoint escape (s : jsstring) : jsstring :=
  match s with
  | [] => []
  | c :: t =>
      if is_high_surrogate c then
        match t with
        | d :: t' =>
            if is_low_surrogate d then c :: d :: escape t'
            else unicode_escape c ++ escape t
        | [] => unicode_escape c
        end
      else if is_low_surrogate c then unicode_escape c ++ escape t
      else escape_unit c ++ escape t
  end.

Definition quote (s : jsstring) : jsstring := [34] ++ escape s ++ [34].

Fixpoint stringify (v : json) : jsstring :=
  match v with
  | JNull => lit "null"
  | JBool b => if b then lit "true" else lit "false"
  | JNumber n => number_text n
  | JText s => quote s
  | JArray items =>
      [91] ++
      (fix join (l : list json) : jsstring :=
         match l with
         | [] => []
         | x :: l' =>
             stringify x ++ match l' with [] => [] | _ => 44 :: join l' end
         end) items ++
      [93]
  | JObject fields =>
      [123] ++
      (fix join (l : list (jsstring * json)) : jsstring :=
         match l with
         | [] => []
         | (k, x) :: l' =>
             quote k ++ [58] ++ stringify x ++
             match l' with [] => [] | _ => 44 :: join l' end
         end) fields ++
      [125]
  end.

#[export] Instance values : HandlerBuiltins := {
  ToString := to_string;
  Response_new_ok := response_ok;
  JSON_stringify := stringify
}.

(** ** [JSON.parse] of an object of strings *)

Definition hex_value (c : Z) : option Z :=
  if is_digit c then Some (c - 48)
  else if (97 <=? c) && (c <=? 102) then Some (c - 87)
  else if (65 <=? c) && (c <=? 70) then Some (c - 55)
  else None.

Definition hex4_value (a b c d : Z) : option Z :=
  match hex_value a, hex_value b, hex_value c, hex_value d with
  | Some x, Some y, Some z, Some u => Some (((x * 16 + y) * 16 + z) * 16 + u)
  | _, _, _, _ => None
  end.

(** A string literal, read from after its opening quote: the string, and
    what follows the closing quote. *)
Fixpoint read_string (s : jsstring) : option (jsstring * jsstring) :=
  match s with
  | [] => None
  | c :: t =>
      if c =? 34 then Some ([], t)
      else if c =? 92 then
        match t with
        | e :: t' =>
            let simple (x : Z) :=
              match read_string t' with
              | Some (r, rest) => Some (x :: r, rest)
              | None => None
              end in
            if e =? 34 then simple 34
            else if e =? 92 then simple 92
            else if e =? 47 then simple 47
            else if e =? 98 then simple 8
            else if e =? 102 then simple 12
            else if e =? 110 then simple 10
            else if e =? 114 then simple 13
            else if e =? 116 then simple 9
            else if e =? 117 then
              match t' with
              | h1 :: h2 :: h3 :: h4 :: t'' =>
                  match hex4_value h1 h2 h3 h4, read_string t'' with
                  | Some x, Some (r, rest) => Some (x :: r, rest)
                  | _, _ => None
                  end
              | _ => None
              end
            else None
        | [] => None
        end
      else if c <? 32 then None
      else
        match read_string t with
        | Some (r, rest) => Some (c :: r, rest)
        | None => None
        end
  end.

(** The members of an object, read from after the brace or a comma; of
    two members with the same key the later one gives the value. *)
Fixpoint read_members (fuel : nat) (s : jsstring)
  : option (list (jsstring * json)) :=
  match fuel with
  | O => None
  | S fuel' =>
      match s with
      | 34 :: s1 =>
          match read_string s1 with
          | Some (k, 58 :: 34 :: s2) =>
              match read_string s2 with
              | Some (v, [125]) => Some [(k, JText v)]
              | Some (v, 44 :: s3) =>
                  match read_members fuel' s3 with
                  | Some rest =>
                      Some ((k, match field k rest with
                                | Some later => later
                                | None => JText v
                                end)
                              :: filter (fun kv => negb (str_eqb (fst kv) k)) rest)
                  | None => None
                  end
              | _ => None
              end
          | _ => None
          end
      | _ => None
      end
  end.

Definition parse_object (text : jsstring) : option json :=
  match text with
  | [123; 125] => Some (JObject [])
  | 123 :: s =>
      match read_members (length text) s with
      | Some fields => Some (JObject fields)
      | None => None
      end
  | _ => None
  end.

#[export] Instance records : BodyBuiltins := {
  utf8_decode := Reference.decode_ascii;
  JSON_parse := parse_object
}.

End ReferenceValues.

(* ================================================================== *)
(** * Sample runs *)
(* ================================================================== *)

(** Surroundings, worlds and requests on which the handlers can be run. *)
Module Sample.

(** Surroundings in which the KV operations of the given ranks fail, the
    random bytes are 0, 1, 2, ..., reads started together complete in the
    reverse order, and a listing is complete at once. *)
Definition outside (fails : nat -> bool) : Outside :=
  {| conspiracies := fun _ => lit "The pigeons are watching.";
     getStatusMessage := fun status => lit "STATUS " ++ Reference.dec status;
     entropy := fun i => Z.of_nat i;
     clock := lit "2026-01-01T00:00:00.000Z";
     kv_fails := fails;
     arrival := fun n => rev (seq 0 n);
     pages := [] |}.

Definition steady : Outside := outside (fun _ => false).

(** The start of a run on a namespace. *)
Definition world (namespace : object) : World := mkWorld namespace [] 0 0 [].

(** A [POST] request whose body is the JSON text of a value. *)
Definition post (payload : json) (authorization : option jsstring) : EventContext :=
  {| request :=
       {| Authorization := authorization;
          ContentType := Some (lit "application/json");
          ContentLength := None;
          requestBody := Some (feed [ReferenceValues.stringify payload] Closed) |};
     CF_Connecting_IP := Some (lit "203.0.113.7");
     X_Forwarded_For := None;
     User_Agent := Some (lit "curl/8.5.0");
     cf_country := Some (lit "NZ");
     origin := lit "https://b0x.nz";
     params_slug := None |}.

(** The body of a request for a link under a slug of the caller's choice. *)
Definition link : json :=
  JObject [ (lit "url", JText (lit "https://Example.com/a b"));
            (lit "customSlug", JText (lit " My-Link ")) ].

(** A deployment with an administration key, and the header of its holder. *)
Definition env : Env := {| ADMIN_KEY := Some (lit "s3cr3t-admin-key-001") |}.

Definition bearer : jsstring := lit "Bearer s3cr3t-admin-key-001".

(** A [GET] request for the path of a slug. *)
Definition get (slug : jsstring) : EventContext :=
  {| request :=
       {| Authorization := None; ContentType := None;
          ContentLength := None; requestBody := None |};
     CF_Connecting_IP := Some (lit "203.0.113.7");
     X_Forwarded_For := None;
     User_Agent := Some (lit "curl/8.5.0");
     cf_country := Some (lit "NZ");
     origin := lit "https://b0x.nz";
     params_slug := Some slug |}.

(** The run that creates the link on an empty namespace, and the world it
    leaves. *)
Definition creation : outcome Response * World :=
  @Shorten.onRequestPost Reference.strings Reference.urls
     ReferenceValues.records ReferenceValues.values
     (post link None) steady (world []).

Definition stored : World := snd creation.

(** The body of a request about the slug of the link. *)
Definition query : json := JObject [ (lit "slug", JText (lit "my-link")) ].

End Sample.

(* ================================================================== *)
(** * Facts about strings *)
(* ================================================================== *)

Lemma str_eqb_eq (a b : jsstring) : str_eqb a b = true <-> a = b.
Proof.
  revert b; induction a as [|x a IH]; intros [|y b]; simpl; split;
    try congruence; try reflexivity.
  - rewrite andb_true_iff, Z.eqb_eq, IH. intros [-> ->]; reflexivity.
  - intros E; injection E as -> ->. rewrite Z.eqb_refl. apply IH; reflexivity.
Qed.

Lemma str_eqb_refl (a : jsstring) : str_eqb a a = true.
Proof. apply str_eqb_eq; reflexivity. Qed.

Lemma str_eqb_neq (a b : jsstring) : str_eqb a b = false <-> a <> b.
Proof.
  rewrite <- str_eqb_eq. destruct (str_eqb a b); split; congruence.
Qed.

Lemma startsWith_app (p s : jsstring) : startsWith p (p ++ s) = true.
Proof. induction p; simpl; [reflexivity | rewrite Z.eqb_refl; assumption]. Qed.

Lemma startsWith_prefix (p s : jsstring) :
  startsWith p s = true <-> exists rest, s = p ++ rest.
Proof.
  split.
  - revert s; induction p as [|x p IH]; intros s H; simpl in *.
    + exists s; reflexivity.
    + destruct s as [|y s]; [discriminate|].
      apply andb_true_iff in H as [E H]. apply Z.eqb_eq in E; subst y.
      destruct (IH _ H) as [rest ->]. exists rest; reflexivity.
  - intros [rest ->]. apply startsWith_app.
Qed.

Lemma includes_here (p s : jsstring) :
  startsWith p s = true -> includes p s = true.
Proof. intros H. destruct s; simpl; rewrite H; reflexivity. Qed.

Lemma includes_infix (p s : jsstring) :
  includes p s = true <-> exists pre post, s = pre ++ p ++ post.
Proof.
  split.
  - induction s as [|c s IH]; simpl; intros H.
    + rewrite orb_false_r in H. apply startsWith_prefix in H as [rest E].
      exists [], rest; exact E.
    + apply orb_true_iff in H as [H|H].
      * apply startsWith_prefix in H as [rest E]. exists [], rest; exact E.
      * destruct (IH H) as (pre & post & ->). exists (c :: pre), post; reflexivity.
  - intros (pre & post & ->). induction pre as [|c pre IH].
    + simpl app. apply includes_here, startsWith_app.
    + simpl. rewrite IH. apply orb_true_r.
Qed.

Lemma dropWhile_head (p : Z -> bool) (s : jsstring) :
  match dropWhile p s with [] => True | c :: _ => p c = false end.
Proof.
  induction s as [|c s IH]; simpl; [exact I|].
  destruct (p c) eqn:E; [exact IH | exact E].
Qed.

Lemma takeWhile_app_stop (p : Z -> bool) (a b : jsstring) :
  forallb p a = true ->
  match b with [] => True | c :: _ => p c = false end ->
  takeWhile p (a ++ b) = a /\ dropWhile p (a ++ b) = b.
Proof.
  intros Ha Hb. induction a as [|x a IH]; simpl in *.
  - destruct b as [|c b]; simpl; [split; reflexivity|]. rewrite Hb. split; reflexivity.
  - apply andb_true_iff in Ha as [Hx Ha]. rewrite Hx.
    destruct (IH Ha) as [-> ->]. split; reflexivity.
Qed.

Lemma dropWhile_none (p : Z -> bool) (s : jsstring) :
  match s with [] => True | c :: _ => p c = false end -> dropWhile p s = s.
Proof. destruct s as [|c s]; simpl; [reflexivity|]. intros ->; reflexivity. Qed.

Lemma forallb_impl (p q : Z -> bool) (s : jsstring) :
  (forall c, p c = true -> q c = true) ->
  forallb p s = true -> forallb q s = true.
Proof.
  intros Hpq. rewrite !forallb_forall. intros H c Hc. apply Hpq, H, Hc.
Qed.

(** A string without white space at either end is not changed by [trim]. *)
Lemma trim_fixed (s : jsstring) :
  forallb (fun c => negb (is_white c)) s = true -> trim s = s.
Proof.
  intros H. unfold trim.
  assert (D : forall t, forallb (fun c => negb (is_white c)) t = true ->
                        dropWhile is_white t = t).
  { intros t Ht. apply dropWhile_none. destruct t as [|c t]; [exact I|].
    simpl in Ht. apply andb_true_iff in Ht as [Hc _].
    destruct (is_white c); [discriminate | reflexivity]. }
  rewrite (D s H), D, rev_involutive; [reflexivity|].
  rewrite forallb_forall in *. intros c Hc. apply H, in_rev, Hc.
Qed.

Lemma graphic_not_white (c : Z) : is_graphic c = true -> is_white c = false.
Proof. unfold is_graphic, is_white. lia. Qed.

Lemma graphic_ascii (c : Z) : is_graphic c = true -> is_ascii c = true.
Proof. unfold is_graphic, is_ascii. lia. Qed.

(* ================================================================== *)
(** * Facts about regular expressions *)
(* ================================================================== *)

Module RegExpFacts.
Import RegExp.

#[local] Hint Constructors matches : core.

Lemma matches_nil_nullable (ic : bool) (r : regex) :
  nullable r = true <-> matches ic r [].
Proof.
  split.
  - induction r; simpl; intros H; try discriminate; auto.
    + apply andb_true_iff in H as [H1 H2].
      change (@nil Z) with (@nil Z ++ @nil Z). auto.
    + apply orb_true_iff in H as [H|H]; auto.
  - intros H. remember (@nil Z) as s eqn:E.
    induction H; simpl; try discriminate; auto.
    + apply app_eq_nil in E as [-> ->]. rewrite IHmatches1, IHmatches2; auto.
    + rewrite IHmatches; auto.
    + rewrite IHmatches; auto using orb_true_r.
Qed.

Lemma matches_deriv (ic : bool) (c : Z) (r : regex) (s : jsstring) :
  matches ic (deriv ic c r) s <-> matches ic r (c :: s).
Proof.
  split.
  - revert s; induction r; simpl; intros s H.
    + inversion H.
    + inversion H.
    + inversion H; subst. auto.
    + destruct (cls_test ic rs c) eqn:E; inversion H; subst. auto.
    + destruct (nullable r1) eqn:N.
      * inversion H; subst.
        -- match goal with X : matches _ (Cat _ _) _ |- _ => inversion X; subst end.
           change (c :: s1 ++ s2) with ((c :: s1) ++ s2). auto.
        -- change (c :: s) with ([] ++ c :: s).
           constructor; [apply matches_nil_nullable; exact N | auto].
      * inversion H; subst. change (c :: s1 ++ s2) with ((c :: s1) ++ s2). auto.
    + inversion H; subst; auto.
    + inversion H; subst. change (c :: s1 ++ s2) with ((c :: s1) ++ s2). auto.
  - intros H. remember (c :: s) as w eqn:E. revert s E.
    induction H; intros t E; simpl; try discriminate.
    + injection E as -> <-. auto.
    + injection E as -> <-. rewrite H. auto.
    + destruct s1 as [|x s1]; simpl in E.
      * subst s2. pose proof (proj2 (matches_nil_nullable ic r1) H) as N.
        rewrite N. auto.
      * injection E as -> <-.
        destruct (nullable r1); auto.
    + auto.
    + auto.
    + destruct s1 as [|x s1]; simpl in E.
      * auto.
      * injection E as -> <-. auto.
Qed.

(** The derivative matcher decides the language. *)
Lemma accepts_matches (ic : bool) (r : regex) (s : jsstring) :
  accepts ic r s = true <-> matches ic r s.
Proof.
  revert r; induction s as [|c s IH]; intros r; simpl.
  - apply matches_nil_nullable.
  - rewrite IH. apply matches_deriv.
Qed.

Lemma matches_star_any (ic : bool) (s : jsstring) : matches ic (Star Any) s.
Proof.
  induction s as [|c s IH]; [constructor|].
  change (c :: s) with ([c] ++ s). auto.
Qed.

(** A pattern anchored at the start accepts every extension of a string
    that its body matches. *)
Lemma test_prefix (b : regex) (ic : bool) (p rest : jsstring) :
  matches ic b p -> test (mk true b false ic) (p ++ rest) = true.
Proof.
  intros H. unfold test; simpl. apply accepts_matches.
  constructor; [exact H | apply matches_star_any].
Qed.

Lemma test_prefix_inv (b : regex) (ic : bool) (s : jsstring) :
  test (mk true b false ic) s = true ->
  exists p rest, s = p ++ rest /\ matches ic b p.
Proof.
  unfold test; simpl. intros H. apply accepts_matches in H.
  inversion H; subst. eauto.
Qed.

Lemma test_whole (b : regex) (ic : bool) (s : jsstring) :
  test (mk true b true ic) s = true <-> matches ic b s.
Proof. unfold test; simpl. apply accepts_matches. Qed.

Lemma matches_cat_inv (ic : bool) (r1 r2 : regex) (s : jsstring) :
  matches ic (Cat r1 r2) s ->
  exists s1 s2, s = s1 ++ s2 /\ matches ic r1 s1 /\ matches ic r2 s2.
Proof. intros H; inversion H; subst; eauto. Qed.

Lemma matches_cls_inv (ic : bool) (rs : list (Z * Z)) (s : jsstring) :
  matches ic (Cls rs) s -> exists c, s = [c] /\ cls_test ic rs c = true.
Proof. intros H; inversion H; subst; eauto. Qed.

Lemma matches_star_cls (ic : bool) (rs : list (Z * Z)) (s : jsstring) :
  matches ic (Star (Cls rs)) s <-> forallb (cls_test ic rs) s = true.
Proof.
  split.
  - intros H. remember (Star (Cls rs)) as r eqn:E.
    induction H; try discriminate; [reflexivity|].
    injection E as ->. inversion H; subst. simpl.
    rewrite IHmatches2 by reflexivity.
    match goal with X : cls_test _ _ _ = true |- _ => rewrite X end. reflexivity.
  - induction s as [|c s IH]; simpl; intros H; [constructor|].
    apply andb_true_iff in H as [Hc Hs].
    change (c :: s) with ([c] ++ s). auto.
Qed.

Lemma matches_upto_cls (ic : bool) (rs : list (Z * Z)) (n : nat) (s : jsstring) :
  matches ic (upto n (Cls rs)) s <->
  forallb (cls_test ic rs) s = true /\ (length s <= n)%nat.
Proof.
  revert s; induction n as [|n IH]; intros s; simpl.
  - split.
    + intros H; inversion H; subst. split; [reflexivity | simpl; lia].
    + intros [_ L]. destruct s; [constructor | simpl in L; lia].
  - split.
    + intros H; inversion H; subst.
      * match goal with X : matches _ Eps _ |- _ => inversion X; subst end.
        split; [reflexivity | simpl; lia].
      * match goal with X : matches _ (Cat _ _) _ |- _ => inversion X; subst end.
        match goal with X : matches _ (Cls _) _ |- _ => inversion X; subst end.
        match goal with X : matches _ (upto _ _) _ |- _ =>
          apply IH in X; destruct X as [F L] end.
        simpl. split; [|lia].
        match goal with X : cls_test _ _ _ = true |- _ => rewrite X end. exact F.
    + intros [F L]. destruct s as [|c s]; [auto|].
      simpl in F, L. apply andb_true_iff in F as [Fc Fs].
      apply MAltR. change (c :: s) with ([c] ++ s).
      constructor; [auto|]. apply IH. split; [exact Fs | lia].
Qed.

Lemma matches_rep_cls (ic : bool) (rs : list (Z * Z)) (m n : nat) (s : jsstring) :
  matches ic (rep m n (Cls rs)) s <->
  forallb (cls_test ic rs) s = true /\ (m <= length s <= m + n)%nat.
Proof.
  revert s; induction m as [|m IH]; intros s; simpl.
  - rewrite matches_upto_cls. intuition lia.
  - split.
    + intros H; inversion H; subst.
      match goal with X : matches _ (Cls _) _ |- _ => inversion X; subst end.
      match goal with X : matches _ (rep _ _ _) _ |- _ =>
        apply IH in X; destruct X as [F L] end.
      simpl. split; [|lia].
      match goal with X : cls_test _ _ _ = true |- _ => rewrite X end. exact F.
    + intros [F L]. destruct s as [|c s]; [simpl in L; lia|].
      simpl in F, L. apply andb_true_iff in F as [Fc Fs].
      change (c :: s) with ([c] ++ s).
      constructor; [auto|]. apply IH. split; [exact Fs | lia].
Qed.

(** A literal [://] matches itself only, with or without the [i] flag. *)
Lemma matches_colon_slashes (ic : bool) (s : jsstring) :
  matches ic (str "://") s -> s = lit "://".
Proof.
  unfold str. cbn [list_ascii_of_string map seq_of]. intros H.
  apply matches_cat_inv in H as (s1 & s2 & -> & H1 & H2).
  apply matches_cat_inv in H2 as (s3 & s4 & -> & H3 & H4).
  apply matches_cls_inv in H1 as (a & -> & Ha).
  apply matches_cls_inv in H3 as (b & -> & Hb).
  apply matches_cls_inv in H4 as (c & -> & Hc).
  assert (E : forall x d, (d = 58 \/ d = 47) ->
                cls_test ic [(d, d)] x = true -> x = d).
  { intros x d Hd. unfold cls_test, in_ranges, swap_case, is_upper, is_lower.
    destruct ic; simpl; destruct ((65 <=? x) && (x <=? 90)) eqn:U;
      destruct ((97 <=? x) && (x <=? 122)) eqn:L; lia. }
  apply (E a 58) in Ha; [|auto]. apply (E b 47) in Hb; [|auto].
  apply (E c 47) in Hc; [|auto]. subst. reflexivity.
Qed.

End RegExpFacts.

(* ================================================================== *)
(** * The text sanitizer *)
(* ================================================================== *)

Lemma control_class_spec (c : Z) :
  cls_test false CONTROL_CLASS c = spec_removed c.
Proof.
  unfold cls_test, in_ranges, CONTROL_CLASS, spec_removed; simpl. lia.
Qed.

Lemma remove_class_idempotent (rs : list (Z * Z)) (s : jsstring) :
  remove_class rs (remove_class rs s) = remove_class rs s.
Proof.
  unfold remove_class. induction s as [|c s IH]; simpl; [reflexivity|].
  destruct (cls_test false rs c) eqn:E; simpl; [exact IH|].
  rewrite E; simpl. rewrite IH. reflexivity.
Qed.

(** C8. [stripControlChars] is idempotent, and its result is the input with
    the code units of the listed categories left out: ASCII control
    characters (U+0000..U+001F, U+007F), the zero-width marks
    U+200B..U+200D, the byte-order mark U+FEFF and the directional
    characters U+202A..U+202E.  Every other code unit stays, in its place. *)
Theorem stripControlChars_idempotent_exact (s : jsstring) :
  stripControlChars (stripControlChars s) = stripControlChars s /\
  stripControlChars s = filter (fun c => negb (spec_removed c)) s.
Proof.
  split.
  - apply remove_class_idempotent.
  - unfold stripControlChars, remove_class. apply filter_ext.
    intros c. rewrite control_class_spec. reflexivity.
Qed.

Lemma stripControlChars_fixed (s : jsstring) :
  forallb is_graphic s = true -> stripControlChars s = s.
Proof.
  intros H. unfold stripControlChars, remove_class.
  induction s as [|c s IH]; simpl in *; [reflexivity|].
  apply andb_true_iff in H as [Hc Hs]. rewrite (IH Hs).
  replace (cls_test false CONTROL_CLASS c) with false; [reflexivity|].
  rewrite control_class_spec. unfold spec_removed, is_graphic in *. lia.
Qed.

(* ================================================================== *)
(** * The timing-safe comparator *)
(* ================================================================== *)

Module Comparator.

(** ** The accumulation loops *)

Lemma or_fold_zero (f : nat -> Z) (l : list nat) (d : Z) :
  fold_left (fun diff i => Z.lor diff (f i)) l d = 0 <->
  d = 0 /\ forall i, In i l -> f i = 0.
Proof.
  revert d; induction l as [|i l IH]; intros d; simpl.
  - intuition.
  - rewrite IH, Z.lor_eq_0_iff. split.
    + intros [[Hd Hi] Hl]. split; [exact Hd|]. intros j [<-|Hj]; auto.
    + intros [Hd H]. repeat split; auto.
Qed.

Lemma or_loop_zero (n : nat) (f : nat -> Z) :
  or_loop n f = 0 <-> forall i, (i < n)%nat -> f i = 0.
Proof.
  unfold or_loop. rewrite or_fold_zero. split.
  - intros [_ H] i Hi. apply H, in_seq. lia.
  - intros H. split; [reflexivity|]. intros i Hi. apply H. apply in_seq in Hi. lia.
Qed.

(** With arrays of one length, the loop ends on zero exactly when the
    arrays are equal. *)
Lemma xor_loop_equal (ab bb : list Z) :
  length ab = length bb ->
  (or_loop (length ab)
     (fun i => Z.lxor (or_zero (at_index ab i)) (or_zero (at_index bb i))) = 0
   <-> ab = bb).
Proof.
  intros L. rewrite or_loop_zero. split.
  - intros H. apply nth_error_ext. intros i.
    destruct (Nat.lt_ge_cases i (length ab)) as [Hi|Hi].
    + specialize (H i Hi). apply (proj1 (Z.lxor_eq_0_iff _ _)) in H.
      unfold at_index in H.
      destruct (nth_error ab i) eqn:A.
      * destruct (nth_error bb i) eqn:B; [simpl in H; congruence|].
        apply nth_error_None in B. lia.
      * apply nth_error_None in A. lia.
    + rewrite (proj2 (nth_error_None ab i)) by lia.
      rewrite (proj2 (nth_error_None bb i)) by lia. reflexivity.
  - intros -> i _. apply Z.lxor_nilpotent.
Qed.

(** [timingSafeEqual] compares the UTF-8 encodings of its arguments. *)
Lemma timingSafeEqual_encodings (a b : jsstring) :
  timingSafeEqual a b = true <-> TextEncoder_encode a = TextEncoder_encode b.
Proof.
  unfold timingSafeEqual.
  destruct (length (TextEncoder_encode a) =? length (TextEncoder_encode b))%nat eqn:L;
    simpl.
  - apply Nat.eqb_eq in L. rewrite Z.eqb_eq. apply xor_loop_equal, L.
  - apply Nat.eqb_neq in L. split; [discriminate|]. intros E. rewrite E in L. lia.
Qed.

(** ** UTF-8 is a prefix code on scalar values *)

Section PrefixCode.

#[local] Opaque Z.add Z.div Z.modulo.

Lemma utf8_of_scalar_prefix (x y : Z) (r1 r2 : list Z) :
  0 <= x < 1114112 -> 0 <= y < 1114112 ->
  utf8_of_scalar x ++ r1 = utf8_of_scalar y ++ r2 -> x = y /\ r1 = r2.
Proof.
  intros Hx Hy. unfold utf8_of_scalar.
  destruct (x <? 128) eqn:X1;
    [|destruct (x <? 2048) eqn:X2; [|destruct (x <? 65536) eqn:X3]];
  (destruct (y <? 128) eqn:Y1;
    [|destruct (y <? 2048) eqn:Y2; [|destruct (y <? 65536) eqn:Y3]]);
  cbn [app]; intros E; injection E; clear E; intros;
  first [ split; [Z.div_mod_to_equations; lia | congruence]
        | exfalso; Z.div_mod_to_equations; lia ].
Qed.

End PrefixCode.

Lemma utf8_of_scalar_nonempty (x : Z) (r : list Z) : utf8_of_scalar x ++ r <> [].
Proof.
  unfold utf8_of_scalar.
  destruct (x <? 128); [|destruct (x <? 2048); [|destruct (x <? 65536)]];
    discriminate.
Qed.

(** ** The encoder is injective on well-formed strings *)

(** A well-formed string is empty, or starts with a code unit that is its
    own scalar value, or starts with a surrogate pair. *)
Lemma well_formed_cases (s : jsstring) :
  is_string s = true -> well_formed s = true ->
  s = [] \/
  (exists c t, s = c :: t /\ 0 <= c < 65536 /\
               is_string t = true /\ well_formed t = true /\
               TextEncoder_encode s = utf8_of_scalar c ++ TextEncoder_encode t) \/
  (exists c d t, s = c :: d :: t /\ 65536 <= pair_scalar c d < 1114112 /\
               (forall c' d', 65536 <= pair_scalar c' d' < 1114112 ->
                              is_high_surrogate c' = true -> is_low_surrogate d' = true ->
                              pair_scalar c d = pair_scalar c' d' -> c = c' /\ d = d') /\
               is_high_surrogate c = true /\ is_low_surrogate d = true /\
               is_string t = true /\ well_formed t = true /\
               TextEncoder_encode s = utf8_of_scalar (pair_scalar c d) ++ TextEncoder_encode t).
Proof.
  destruct s as [|c s]; [left; reflexivity|]. intros S W. right.
  cbn [is_string forallb] in S. apply andb_true_iff in S as [Sc S].
  cbn [well_formed TextEncoder_encode] in *.
  destruct (is_high_surrogate c) eqn:Hc.
  - right. destruct s as [|d s]; [discriminate|].
    apply andb_true_iff in W as [Ld W]. rewrite Ld.
    cbn [forallb] in S. apply andb_true_iff in S as [Sd S].
    exists c, d, s. repeat split; auto;
      unfold pair_scalar, is_high_surrogate, is_low_surrogate in *; lia.
  - left. apply andb_true_iff in W as [Lc W]. apply negb_true_iff in Lc. rewrite Lc.
    exists c, s. unfold is_code_unit in Sc. repeat split; auto; lia.
Qed.

Lemma encode_nil (s : jsstring) :
  is_string s = true -> well_formed s = true ->
  TextEncoder_encode s = [] -> s = [].
Proof.
  intros S W E.
  destruct (well_formed_cases s S W) as [H|[(c & t & _ & _ & _ & _ & H)|(c & d & t & H)]];
    [exact H| |].
  - rewrite H in E. apply utf8_of_scalar_nonempty in E. destruct E.
  - destruct H as (_ & _ & _ & _ & _ & _ & _ & H).
    rewrite H in E. apply utf8_of_scalar_nonempty in E. destruct E.
Qed.

Lemma encode_injective_bounded (n : nat) (a b : jsstring) :
  (length a <= n)%nat ->
  is_string a = true -> is_string b = true ->
  well_formed a = true -> well_formed b = true ->
  TextEncoder_encode a = TextEncoder_encode b -> a = b.
Proof.
  revert a b. induction n as [|n IH]; intros a b Ln Sa Sb Wa Wb E.
  - destruct a; [|simpl in Ln; lia]. symmetry. apply encode_nil; auto.
  - destruct (well_formed_cases a Sa Wa)
      as [->|[(c & t & -> & Rc & St & Wt & Ea)
             |(c & d & t & -> & Rp & Ip & Hc & Ld & St & Wt & Ea)]].
    + symmetry. apply encode_nil; auto.
    + destruct (well_formed_cases b Sb Wb)
        as [->|[(c' & t' & -> & Rc' & St' & Wt' & Eb)
               |(c' & d' & t' & -> & Rp' & Ip' & Hc' & Ld' & St' & Wt' & Eb)]].
      * apply encode_nil in E; auto.
      * rewrite Ea, Eb in E. apply utf8_of_scalar_prefix in E as [-> E]; [|lia|lia].
        f_equal. apply IH; auto. simpl in Ln; lia.
      * rewrite Ea, Eb in E. apply utf8_of_scalar_prefix in E as [X E]; lia.
    + destruct (well_formed_cases b Sb Wb)
        as [->|[(c' & t' & -> & Rc' & St' & Wt' & Eb)
               |(c' & d' & t' & -> & Rp' & Ip' & Hc' & Ld' & St' & Wt' & Eb)]].
      * apply encode_nil in E; auto.
      * rewrite Ea, Eb in E. apply utf8_of_scalar_prefix in E as [X E]; lia.
      * rewrite Ea, Eb in E. apply utf8_of_scalar_prefix in E as [X E]; [|lia|lia].
        destruct (Ip c' d' Rp' Hc' Ld' X) as [-> ->].
        f_equal. f_equal. apply IH; auto. simpl in Ln; lia.
Qed.

Lemma encode_injective (a b : jsstring) :
  is_string a = true -> is_string b = true ->
  well_formed a = true -> well_formed b = true ->
  TextEncoder_encode a = TextEncoder_encode b -> a = b.
Proof. apply (@encode_injective_bounded (length a)). lia. Qed.

End Comparator.

(** C4 (amended).  The comparator answers [true] on every pair [(a, a)];
    on two different strings in which every surrogate code unit belongs to
    a pair it answers [false].  It is a total function of its arguments:
    reads outside an array give [undefined], which the loops take as zero. *)
Theorem timingSafeEqual_reflexive_and_separating :
  (forall a : jsstring, timingSafeEqual a a = true) /\
  (forall a b : jsstring,
      is_string a = true -> is_string b = true ->
      well_formed a = true -> well_formed b = true ->
      a <> b -> timingSafeEqual a b = false).
Proof.
  split.
  - intros a. apply Comparator.timingSafeEqual_encodings. reflexivity.
  - intros a b Sa Sb Wa Wb N.
    destruct (timingSafeEqual a b) eqn:E; [|reflexivity].
    apply Comparator.timingSafeEqual_encodings in E.
    elim N. apply Comparator.encode_injective; assumption.
Qed.

Lemma timingSafeEqual_reflexive_and_separating_witness :
  timingSafeEqual (lit "correct-horse-battery") (lit "correct-horse-battery") = true /\
  timingSafeEqual (lit "correct-horse-battery") (lit "correct-horse-batterz") = false.
Proof.
  split.
  - apply (proj1 timingSafeEqual_reflexive_and_separating).
  - apply (proj2 timingSafeEqual_reflexive_and_separating);
      try reflexivity. discriminate.
Defined.

(** C4, as stated, fails: a high surrogate and a low surrogate, each on its
    own, are two different strings, both encoded as U+FFFD. *)
Lemma timingSafeEqual_lone_surrogates :
  [55296] <> [56320] /\ timingSafeEqual [55296] [56320] = true.
Proof. split; [discriminate | reflexivity]. Qed.

(* ================================================================== *)
(** * The bearer check *)
(* ================================================================== *)

Lemma dropWhile_snoc (p : Z -> bool) (l : jsstring) (c : Z) :
  p c = false -> exists l', dropWhile p (l ++ [c]) = l' ++ [c].
Proof.
  intros H. induction l as [|x l IH]; simpl.
  - rewrite H. exists []; reflexivity.
  - destruct (p x); [exact IH | exists (x :: l); reflexivity].
Qed.

(** [trim] keeps a first character that is not white space. *)
Lemma trim_keeps_head (c : Z) (s : jsstring) :
  is_white c = false -> exists t, trim (c :: s) = c :: t.
Proof.
  intros H. unfold trim. simpl dropWhile. rewrite H. simpl rev.
  destruct (dropWhile_snoc is_white (rev s) c H) as [l' ->].
  rewrite rev_app_distr. exists (rev l'); reflexivity.
Qed.

(** C10. Without the prefix [Bearer ], in this very spelling, at the start of
    the trimmed [Authorization] header, [checkAdminAuth] answers [false] and
    makes no call of the comparator; so it does on the header
    [bearer <token>] where the token is the configured key itself. *)
Theorem checkAdminAuth_requires_Bearer_prefix :
  (forall (request : Request) (env : Env),
      startsWith (lit "Bearer ") (trim (or_empty (Authorization request))) = false ->
      checkAdminAuth request env = (false, [])) /\
  (forall (key : jsstring) (ct cl : option jsstring) (body : option stream),
      checkAdminAuth
        {| Authorization := Some (lit "bearer " ++ key);
           ContentType := ct; ContentLength := cl; requestBody := body |}
        {| ADMIN_KEY := Some key |} = (false, [])).
Proof.
  assert (G : forall request env,
             startsWith (lit "Bearer ") (trim (or_empty (Authorization request))) = false ->
             checkAdminAuth request env = (false, [])).
  { intros request env H. unfold checkAdminAuth.
    destruct (ADMIN_KEY env) as [adminKey|]; [|reflexivity].
    destruct ((length adminKey =? 0)%nat || (length adminKey <? 16)%nat);
      [reflexivity|].
    rewrite H. reflexivity. }
  split; [exact G|].
  intros key ct cl body. apply G.
  destruct (trim_keeps_head 98 (lit "earer " ++ key) eq_refl) as [t E].
  change (trim (98 :: lit "earer " ++ key) = 98 :: t) in E.
  cbn [Authorization or_empty].
  change (lit "bearer " ++ key) with (98 :: lit "earer " ++ key).
  rewrite E. reflexivity.
Qed.

Lemma checkAdminAuth_requires_Bearer_prefix_witness :
  checkAdminAuth
    {| Authorization := Some (lit "Basic czNjcjN0LWFkbWluLWtleS0wMDE=");
       ContentType := None; ContentLength := None; requestBody := None |}
    {| ADMIN_KEY := Some (lit "s3cr3t-admin-key-001") |} = (false, []).
Proof.
  apply (proj1 checkAdminAuth_requires_Bearer_prefix). reflexivity.
Defined.

(* ================================================================== *)
(** * The reference string methods follow the laws *)
(* ================================================================== *)

Lemma map_fixed (f : Z -> Z) (p : Z -> bool) (s : jsstring) :
  (forall c, p c = true -> f c = c) -> forallb p s = true -> map f s = s.
Proof.
  intros Hf. induction s as [|c s IH]; simpl; [reflexivity|].
  intros H. apply andb_true_iff in H as [Hc Hs].
  rewrite (Hf c Hc), (IH Hs). reflexivity.
Qed.

#[export] Instance reference_string_laws : @StringLaws Reference.strings.
Proof.
  split; simpl.
  - intros s H. apply map_ext_in. intros c Hc.
    rewrite forallb_forall in H. specialize (H c Hc).
    unfold Reference.lower_unit, ascii_lower, is_ascii, is_upper in *.
    destruct ((65 <=? c) && (c <=? 90)); [reflexivity|].
    replace ((65313 <=? c) && (c <=? 65338)) with false by lia. reflexivity.
  - intros s H. apply map_fixed with (p := is_ascii); [|exact H].
    intros c Hc. unfold Reference.nfkc_unit, is_ascii in *.
    replace ((65281 <=? c) && (c <=? 65374)) with false by lia. reflexivity.
Qed.

(* ================================================================== *)
(** * Slug policies *)
(* ================================================================== *)

Section Slugs.

Context `{SB : StringBuiltins}.

Lemma slug_head_class (c : Z) :
  cls_test false SLUG_HEAD_CLASS c = is_lower_alnum c.
Proof.
  unfold cls_test, in_ranges, SLUG_HEAD_CLASS, is_lower_alnum, is_lower, is_digit.
  simpl. lia.
Qed.

Lemma slug_class (c : Z) : cls_test false SLUG_CLASS c = is_slug_char c.
Proof.
  unfold cls_test, in_ranges, SLUG_CLASS, is_slug_char, is_lower, is_digit.
  simpl. lia.
Qed.

Lemma forallb_slug_class (s : jsstring) :
  forallb (cls_test false SLUG_CLASS) s = forallb is_slug_char s.
Proof.
  induction s as [|c s IH]; simpl; [reflexivity|]. rewrite slug_class, IH. reflexivity.
Qed.

(** [SLUG_RE] accepts the strings of the slug pattern, and no other. *)
Lemma SLUG_RE_shape (s : jsstring) : test SLUG_RE s = true <-> slug_shape s.
Proof.
  unfold SLUG_RE, quant. rewrite RegExpFacts.test_whole.
  change (31 - 1)%nat with 30%nat. split.
  - intros H. apply RegExpFacts.matches_cat_inv in H as (s1 & s2 & -> & H1 & H2).
    apply RegExpFacts.matches_cls_inv in H1 as (c & -> & Hc).
    apply RegExpFacts.matches_rep_cls in H2 as [F L].
    exists c, s2. rewrite <- slug_head_class, <- forallb_slug_class.
    repeat split; auto; lia.
  - intros (h & t & -> & Hh & Ht & L).
    change (h :: t) with ([h] ++ t). constructor.
    + constructor. rewrite slug_head_class. exact Hh.
    + apply RegExpFacts.matches_rep_cls. rewrite forallb_slug_class.
      split; [exact Ht | lia].
Qed.

Lemma slug_shape_chars (s : jsstring) :
  slug_shape s -> forallb is_slug_char s = true /\ (2 <= length s <= 32)%nat.
Proof.
  intros (h & t & -> & Hh & Ht & L). simpl. rewrite Ht. split; [|lia].
  rewrite andb_true_r. unfold is_lower_alnum, is_slug_char in *.
  rewrite Hh. reflexivity.
Qed.

Lemma includes_head_in (d : Z) (p s : jsstring) :
  includes (d :: p) s = true -> In d s.
Proof.
  intros H. apply includes_infix in H as (pre & post & ->).
  apply in_or_app. right. left. reflexivity.
Qed.

Lemma slug_chars_exclude (s : jsstring) (d : Z) (p : jsstring) :
  forallb is_slug_char s = true -> is_slug_char d = false ->
  includes (d :: p) s = false.
Proof.
  intros H Hd. destruct (includes (d :: p) s) eqn:E; [|reflexivity].
  apply includes_head_in in E. rewrite forallb_forall in H.
  rewrite (H d E) in Hd. discriminate.
Qed.

(** After the pattern check nothing can fail on path separators, and what
    is accepted has passed the pattern. *)
Lemma validateCustomSlug_cases (raw : jsvalue) :
  validateCustomSlug raw <> Err SlugPathSeparator /\
  (forall slug, validateCustomSlug raw = Ok slug ->
     test SLUG_RE slug = true /\
     exists r, raw = JString r /\ slug = cleanCustomSlug r).
Proof.
  unfold validateCustomSlug.
  destruct raw as [raw|]; cbv beta iota; [|split; [|intros ?]; discriminate].
  set (slug := cleanCustomSlug raw).
  destruct (length slug <? 2)%nat; [split; [|intros ?]; discriminate|].
  destruct (32 <? length slug)%nat; [split; [|intros ?]; discriminate|].
  destruct (test SLUG_RE slug) eqn:T; cbn [negb];
    [|split; [|intros ?]; discriminate].
  destruct (has RESERVED_SLUGS slug); [split; [|intros ?]; discriminate|].
  pose proof (proj1 (SLUG_RE_shape slug) T) as Sh.
  destruct (slug_shape_chars Sh) as [F _].
  change (lit "..") with (46 :: [46]). change (lit "/") with (47 :: []).
  rewrite !(@slug_chars_exclude slug _ _ F) by reflexivity. simpl.
  split; [discriminate|].
  intros s E; injection E as <-. split; [exact T|]. exists raw. auto.
Qed.

(** C9. An assigned slug has the pattern of [SLUG_RE]: a lower-case letter
    or digit, then 1 to 31 lower-case letters, digits, hyphens or
    underscores.  It holds no dot, no slash and no backslash, and
    [validateCustomSlug] never returns the path-separator failure: the
    branch after the pattern check cannot be taken. *)
Theorem validateCustomSlug_pattern_dead_branch (raw : jsvalue) :
  validateCustomSlug raw <> Err SlugPathSeparator /\
  (forall slug, validateCustomSlug raw = Ok slug ->
     test SLUG_RE slug = true /\ slug_shape slug /\
     ~ In 46 slug /\ ~ In 47 slug /\ ~ In 92 slug).
Proof.
  destruct (validateCustomSlug_cases raw) as [Dead Acc].
  split; [exact Dead|]. intros slug H. destruct (Acc slug H) as [T _].
  pose proof (proj1 (SLUG_RE_shape slug) T) as Sh.
  destruct (slug_shape_chars Sh) as [F _].
  repeat split; auto;
    intros I; rewrite forallb_forall in F; specialize (F _ I); discriminate.
Qed.

(** The checks of the lookup policy pass on a prepared slug of 1 to 64
    slug characters. *)
Lemma validateLookupSlug_checks (raw : jsstring) :
  forallb is_slug_char (cleanLookupSlug raw) = true ->
  (1 <= length (cleanLookupSlug raw) <= 64)%nat ->
  validateLookupSlug (JString raw) = Ok (cleanLookupSlug raw).
Proof.
  intros F L. unfold validateLookupSlug. set (s := cleanLookupSlug raw) in *.
  replace ((length s <? 1)%nat || (64 <? length s)%nat) with false
    by (symmetry; apply orb_false_iff; split;
        [apply Nat.ltb_ge | apply Nat.ltb_ge]; lia).
  assert (T : test LOOKUP_RE s = true).
  { unfold LOOKUP_RE, plus. apply RegExpFacts.test_whole.
    destruct s as [|h t]; [simpl in L; lia|].
    simpl in F. apply andb_true_iff in F as [Fh Ft].
    change (h :: t) with ([h] ++ t). constructor.
    - constructor. rewrite slug_class. exact Fh.
    - apply RegExpFacts.matches_star_cls. rewrite forallb_slug_class. exact Ft. }
  rewrite T. simpl.
  change (lit "..") with (46 :: [46]).
  rewrite (@slug_chars_exclude s _ _ F) by reflexivity. reflexivity.
Qed.

Context {SL : StringLaws}.

Lemma slug_char_plain (c : Z) :
  is_slug_char c = true ->
  is_graphic c = true /\ is_upper c = false.
Proof. unfold is_slug_char, is_graphic, is_upper, is_lower, is_digit. lia. Qed.

(** The preparation of a lookup slug leaves a string of slug characters as
    it is. *)
Lemma cleanLookupSlug_fixed (s : jsstring) :
  forallb is_slug_char s = true -> cleanLookupSlug s = s.
Proof.
  intros H. unfold cleanLookupSlug.
  assert (G : forallb is_graphic s = true).
  { revert H. apply forallb_impl. intros c Hc. apply slug_char_plain, Hc. }
  rewrite stripControlChars_fixed by exact G.
  rewrite trim_fixed.
  - rewrite toLowerCase_ascii.
    + apply map_fixed with (p := is_slug_char); [|exact H].
      intros c Hc. unfold ascii_lower.
      rewrite (proj2 (slug_char_plain c Hc)). reflexivity.
    + revert G. apply forallb_impl. exact graphic_ascii.
  - revert G. apply forallb_impl. intros c Hc.
    rewrite (graphic_not_white c Hc). reflexivity.
Qed.

Lemma validateLookupSlug_accepts (s : jsstring) :
  forallb is_slug_char s = true -> (1 <= length s <= 64)%nat ->
  validateLookupSlug (JString s) = Ok s.
Proof.
  intros F L. pose proof (cleanLookupSlug_fixed s F) as E.
  rewrite <- E at 2. apply validateLookupSlug_checks; rewrite E; assumption.
Qed.

Lemma generateCode_shape (array : list Z) :
  forallb is_lower_alnum (generateCode array) = true /\
  length (generateCode array) = length array.
Proof.
  unfold generateCode.
  induction array as [|b array [IHf IHl]]; [split; reflexivity|].
  cbn [flat_map].
  assert (B : (Z.to_nat (b mod Z.of_nat (length CHARS)) < length CHARS)%nat).
  { change (length CHARS) with 36%nat.
    assert (0 <= b mod Z.of_nat 36 < 36) by (apply Z.mod_pos_bound; lia). lia. }
  destruct (nth_error CHARS (Z.to_nat (b mod Z.of_nat (length CHARS)))) as [c|] eqn:E.
  - apply nth_error_In in E. cbn [app forallb length]. rewrite IHf, IHl.
    split; [|reflexivity]. rewrite andb_true_r.
    assert (A : forallb is_lower_alnum CHARS = true) by reflexivity.
    rewrite forallb_forall in A. apply A, E.
  - apply nth_error_None in E. lia.
Qed.

(** C5 (amended).  A string that [validateCustomSlug] accepts, and whose
    prepared form (stripped, trimmed, lower-cased) NFKC leaves as it is, is
    accepted by [validateLookupSlug] with the same slug; the slug that
    [validateCustomSlug] returns is accepted by [validateLookupSlug] and
    returned as it is; so is every code that [generateCode] makes from 4 to
    6 random bytes; and [validateLookupSlug] rejects every string whose
    prepared form holds two dots in a row. *)
Theorem validateLookupSlug_covers_stored_slugs :
  (forall raw slug : jsstring,
      validateCustomSlug (JString raw) = Ok slug ->
      normalizeNFKC (cleanLookupSlug raw) = cleanLookupSlug raw ->
      validateLookupSlug (JString raw) = Ok slug) /\
  (forall (raw : jsvalue) (slug : jsstring),
      validateCustomSlug raw = Ok slug ->
      validateLookupSlug (JString slug) = Ok slug) /\
  (forall array : list Z,
      is_bytes array = true -> (4 <= length array <= 6)%nat ->
      validateLookupSlug (JString (generateCode array)) = Ok (generateCode array)) /\
  (forall raw : jsstring,
      includes (lit "..") (cleanLookupSlug raw) = true ->
      is_ok (validateLookupSlug (JString raw)) = false).
Proof.
  split; [|split; [|split]].
  - intros raw slug H N.
    destruct (proj2 (validateCustomSlug_cases (JString raw)) slug H)
      as (T & r & Er & Es).
    injection Er as <-. unfold cleanCustomSlug in Es.
    change (toLowerCase (trim (stripControlChars raw)))
      with (cleanLookupSlug raw) in Es.
    rewrite N in Es. subst slug.
    destruct (slug_shape_chars (proj1 (SLUG_RE_shape _) T)) as [F L].
    apply validateLookupSlug_checks; [exact F | lia].
  - intros raw slug H.
    destruct (proj2 (validateCustomSlug_cases raw) slug H) as [T _].
    destruct (slug_shape_chars (proj1 (SLUG_RE_shape slug) T)) as [F L].
    apply validateLookupSlug_accepts; [exact F | lia].
  - intros array _ L. destruct (generateCode_shape array) as [F E].
    apply validateLookupSlug_accepts; [|lia].
    revert F. apply forallb_impl. intros c Hc.
    unfold is_slug_char, is_lower_alnum in *. rewrite Hc. reflexivity.
  - intros raw H. unfold validateLookupSlug.
    destruct ((length (cleanLookupSlug raw) <? 1)%nat ||
              (64 <? length (cleanLookupSlug raw))%nat); [reflexivity|].
    destruct (test LOOKUP_RE (cleanLookupSlug raw)); [|reflexivity].
    simpl. rewrite H. reflexivity.
Qed.

End Slugs.

Lemma validateCustomSlug_pattern_dead_branch_witness :
  @validateCustomSlug Reference.strings (JString (lit " My-Link_1 "))
  = Ok (lit "my-link_1") /\
  test SLUG_RE (lit "my-link_1") = true /\ slug_shape (lit "my-link_1") /\
  ~ In 46 (lit "my-link_1") /\ ~ In 47 (lit "my-link_1") /\ ~ In 92 (lit "my-link_1").
Proof.
  split; [reflexivity|].
  apply (proj2 (@validateCustomSlug_pattern_dead_branch Reference.strings
                  (JString (lit " My-Link_1 ")))).
  reflexivity.
Defined.

Lemma validateLookupSlug_covers_stored_slugs_witness :
  @validateLookupSlug Reference.strings (JString (lit " My-Link_1 ")) = Ok (lit "my-link_1") /\
  @validateLookupSlug Reference.strings (JString (lit "my-link_1")) = Ok (lit "my-link_1") /\
  @validateLookupSlug Reference.strings (JString (generateCode [7; 200; 35; 36]))
    = Ok (lit "hu9a") /\
  is_ok (@validateLookupSlug Reference.strings (JString (lit "a..b"))) = false.
Proof.
  pose proof (@validateLookupSlug_covers_stored_slugs
                Reference.strings reference_string_laws) as (A & B & C & D).
  split; [|split; [|split]].
  - apply (A (lit " My-Link_1 ")); reflexivity.
  - apply (B (JString (lit " My-Link_1 "))). reflexivity.
  - apply (C [7; 200; 35; 36]); [reflexivity | simpl; lia].
  - apply D. reflexivity.
Defined.

(** C5, as stated, fails: the fullwidth letters U+FF41 U+FF42 are accepted as
    the assigned slug [ab], NFKC having folded them, and the lookup policy,
    which does not normalise, rejects the same input. *)
Lemma validateLookupSlug_rejects_fullwidth :
  @validateCustomSlug Reference.strings (JString [65345; 65346]) = Ok (lit "ab") /\
  @validateLookupSlug Reference.strings (JString [65345; 65346]) = Err LookupBadChars.
Proof. split; reflexivity. Qed.

(* ================================================================== *)
(** * Bounded ingestion of the body *)
(* ================================================================== *)

Section Body.

Context `{SB : StringBuiltins} `{BB : BodyBuiltins}.

Lemma byte_count_nonneg (chunks : list (list Z)) : 0 <= byte_count chunks.
Proof. induction chunks as [|c l IH]; simpl; lia. Qed.

(** Chunks whose sizes add up to more than a bound have a first chunk at
    which the running total passes it. *)
Lemma first_excess (bound : Z) (chunks : list (list Z)) :
  0 <= bound -> bound < byte_count chunks ->
  exists pre value rest,
    chunks = pre ++ value :: rest /\
    byte_count pre <= bound < byte_count pre + Z.of_nat (length value).
Proof.
  revert bound; induction chunks as [|c l IH]; intros bound Hb H; simpl in H.
  - lia.
  - destruct (Z_lt_le_dec bound (Z.of_nat (length c))) as [Hc|Hc].
    + exists [], c, l. simpl. split; [reflexivity | lia].
    + destruct (IH (bound - Z.of_nat (length c))) as (pre & v & rest & -> & Hp);
        [lia | lia |].
      exists (c :: pre), v, rest. simpl. split; [reflexivity | lia].
Qed.

(** The loop reads up to the chunk that takes the total over the cap,
    cancels the reader and stops. *)
Lemma read_loop_excess (pre : list (list Z)) (value : list Z) (rest : stream)
      (chunks : list (list Z)) (total : Z) :
  total + byte_count pre <= MAX_BODY_BYTES ->
  MAX_BODY_BYTES < total + byte_count pre + Z.of_nat (length value) ->
  read_loop (feed pre (Data value rest)) chunks total
  = (TooLarge, map Read pre ++ [Read value; Cancel]).
Proof.
  revert chunks total; induction pre as [|c pre IH]; intros chunks total H1 H2;
    simpl in *.
  - replace (MAX_BODY_BYTES <? total + Z.of_nat (length value)) with true
      by (symmetry; apply Z.ltb_lt; lia).
    reflexivity.
  - pose proof (byte_count_nonneg pre).
    replace (MAX_BODY_BYTES <? total + Z.of_nat (length c)) with false
      by (symmetry; apply Z.ltb_ge; lia).
    rewrite IH by lia. reflexivity.
Qed.

(** C6. With a declared [Content-Length] above the cap of 8192 bytes,
    [readJsonBody] fails and reads nothing from the body.  Without a
    declared length, on a body whose chunks add up to more than the cap, it
    fails: a request that is not of type [application/json] is refused
    before any read, and otherwise the function reads the chunks whose
    running total is within the cap, then the first chunk that takes the
    total over the cap, cancels the reader, fails as too large, and reads no
    further chunk. *)
Theorem readJsonBody_enforces_cap :
  (forall (request : Request) (n : Z),
      declaredLength request = Some n -> MAX_BODY_BYTES < n ->
      is_ok (fst (readJsonBody request)) = false /\
      snd (readJsonBody request) = []) /\
  (forall (request : Request) (chunks : list (list Z)) (tail : stream),
      ContentLength request = None ->
      requestBody request = Some (feed chunks tail) ->
      MAX_BODY_BYTES < byte_count chunks ->
      is_ok (fst (readJsonBody request)) = false /\
      (mediaType request <> lit "application/json" ->
       readJsonBody request = (Err BodyContentType, [])) /\
      (mediaType request = lit "application/json" ->
       exists pre value rest,
         chunks = pre ++ value :: rest /\
         byte_count pre <= MAX_BODY_BYTES /\
         MAX_BODY_BYTES < byte_count pre + Z.of_nat (length value) /\
         readJsonBody request
         = (Err BodyTooLarge, map Read pre ++ [Read value; Cancel]))).
Proof.
  split.
  - intros request n D H. unfold readJsonBody.
    destruct (negb (str_eqb (mediaType request) (lit "application/json")));
      [split; reflexivity|].
    rewrite D. simpl exceeds_cap.
    replace (MAX_BODY_BYTES <? n) with true by (symmetry; apply Z.ltb_lt; lia).
    split; reflexivity.
  - intros request chunks tail Hcl Hbody Hsize.
    assert (Other : mediaType request <> lit "application/json" ->
                    readJsonBody request = (Err BodyContentType, [])).
    { intros N. unfold readJsonBody. apply str_eqb_neq in N. rewrite N. reflexivity. }
    assert (Json : mediaType request = lit "application/json" ->
                   exists pre value rest,
                     chunks = pre ++ value :: rest /\
                     byte_count pre <= MAX_BODY_BYTES /\
                     MAX_BODY_BYTES < byte_count pre + Z.of_nat (length value) /\
                     readJsonBody request
                     = (Err BodyTooLarge, map Read pre ++ [Read value; Cancel])).
    { intros Hct.
      destruct (@first_excess MAX_BODY_BYTES chunks)
        as (pre & value & rest & E & Hp);
        [unfold MAX_BODY_BYTES; lia | exact Hsize |].
      exists pre, value, rest. split; [exact E|]. split; [lia|]. split; [lia|].
      unfold readJsonBody, declaredLength. rewrite Hct, Hcl, Hbody, E.
      rewrite str_eqb_refl. cbn [negb].
      change (exceeds_cap (parseInt10 (lit "0"))) with false. cbv iota.
      unfold feed. rewrite fold_right_app. cbn [fold_right].
      change (fold_right Data (Data value (fold_right Data tail rest)) pre)
        with (feed pre (Data value (fold_right Data tail rest))).
      rewrite read_loop_excess by lia. reflexivity. }
    split; [|split; assumption].
    destruct (str_eqb (mediaType request) (lit "application/json")) eqn:M.
    + apply str_eqb_eq in M.
      destruct (Json M) as (pre & value & rest & _ & _ & _ & ->).
      reflexivity.
    + apply str_eqb_neq in M. rewrite (Other M). reflexivity.
Qed.

End Body.

Lemma readJsonBody_enforces_cap_witness :
  (is_ok (fst (@readJsonBody Reference.strings Reference.bodies
                 {| Authorization := None;
                    ContentType := Some (lit "application/json");
                    ContentLength := Some (lit "9000");
                    requestBody :=
                      Some (feed [repeat 120 4500; repeat 120 4500] Closed) |}))
   = false /\
   snd (@readJsonBody Reference.strings Reference.bodies
          {| Authorization := None;
             ContentType := Some (lit "application/json");
             ContentLength := Some (lit "9000");
             requestBody :=
               Some (feed [repeat 120 4500; repeat 120 4500] Closed) |})
   = []) /\
  (exists pre value rest,
     [repeat 120 4000; repeat 120 4000; repeat 120 500; repeat 120 7]
     = pre ++ value :: rest /\
     byte_count pre <= MAX_BODY_BYTES /\
     MAX_BODY_BYTES < byte_count pre + Z.of_nat (length value) /\
     @readJsonBody Reference.strings Reference.bodies
       {| Authorization := None;
          ContentType := Some (lit "application/json; charset=utf-8");
          ContentLength := None;
          requestBody :=
            Some (feed [repeat 120 4000; repeat 120 4000; repeat 120 500; repeat 120 7]
                       Errored) |}
     = (Err BodyTooLarge, map Read pre ++ [Read value; Cancel])).
Proof.
  split.
  - apply (proj1 (@readJsonBody_enforces_cap Reference.strings Reference.bodies))
      with (n := 9000); vm_compute; reflexivity.
  - apply (proj2 (@readJsonBody_enforces_cap Reference.strings Reference.bodies))
      with (tail := Errored); vm_compute; reflexivity.
Defined.

(* ================================================================== *)
(** * URL validation: the steps before parsing *)
(* ================================================================== *)

Section UrlInput.

Context `{SB : StringBuiltins} `{UB : URLBuiltin}.

(** An input that is too long once prepared fails as such. *)
Lemma validateUrl_too_long (raw : jsstring) :
  (2048 < length (cleanUrlInput raw))%nat ->
  validateUrl (JString raw) = Err UrlTooLong.
Proof.
  intros H. unfold validateUrl.
  destruct (length (cleanUrlInput raw) =? 0)%nat eqn:E.
  - apply Nat.eqb_eq in E. lia.
  - apply Nat.ltb_lt in H. rewrite H. reflexivity.
Qed.

(** The string that [schemeMatch] returns is the first group of the
    pattern: a letter and a run of scheme characters, with [://] after it
    in the input. *)
Lemma schemeMatch_group (s g : jsstring) :
  schemeMatch s = Some g ->
  exists first more rest,
    g = first :: more /\ s = g ++ lit "://" ++ rest /\
    cls_test true [rng "a" "z"; rng "A" "Z"] first = true /\
    forallb (cls_test true SCHEME_CLASS) more = true.
Proof.
  unfold schemeMatch. destruct (test SCHEME_RE s) eqn:T; [|discriminate].
  intros E; injection E as <-. unfold SCHEME_RE in T.
  apply RegExpFacts.test_prefix_inv in T as (p & rest & -> & M).
  cbn [seq_of] in M.
  apply RegExpFacts.matches_cat_inv in M as (s1 & s2 & -> & M1 & M2).
  apply RegExpFacts.matches_cls_inv in M1 as (c & -> & Hc).
  apply RegExpFacts.matches_cat_inv in M2 as (m & s3 & -> & Mm & M3).
  apply RegExpFacts.matches_star_cls in Mm.
  apply RegExpFacts.matches_colon_slashes in M3. subst s3.
  assert (Hc' : cls_test true SCHEME_CLASS c = true).
  { revert Hc. unfold cls_test, in_ranges, swap_case, is_upper, is_lower,
      SCHEME_CLASS. simpl.
    destruct ((65 <=? c) && (c <=? 90)) eqn:U;
      destruct ((97 <=? c) && (c <=? 122)) eqn:L; lia. }
  assert (Stop : match lit "://" ++ rest with
                 | [] => True
                 | x :: _ => cls_test true SCHEME_CLASS x = false
                 end) by reflexivity.
  destruct (@takeWhile_app_stop (cls_test true SCHEME_CLASS) m (lit "://" ++ rest)
              Mm Stop) as [Tk _].
  exists c, m, rest.
  replace (([c] ++ m ++ lit "://") ++ rest) with (c :: m ++ lit "://" ++ rest)
    by (cbn [app]; rewrite <- app_assoc; reflexivity).
  cbn [takeWhile]. rewrite Hc', Tk. repeat split; auto.
Qed.

Context {SL : StringLaws}.

(** Printable ASCII without spaces passes the preparation unchanged. *)
Lemma cleanUrlInput_fixed (s : jsstring) :
  forallb is_graphic s = true -> cleanUrlInput s = s.
Proof.
  intros G. unfold cleanUrlInput.
  rewrite stripControlChars_fixed by exact G.
  rewrite trim_fixed.
  - apply normalizeNFKC_ascii. revert G. apply forallb_impl. exact graphic_ascii.
  - revert G. apply forallb_impl. intros c Hc.
    rewrite (graphic_not_white c Hc). reflexivity.
Qed.

Lemma toLowerCase_plain (s : jsstring) :
  forallb (fun c => is_ascii c && negb (is_upper c)) s = true ->
  toLowerCase s = s.
Proof.
  intros H. rewrite toLowerCase_ascii.
  - apply map_fixed with (p := fun c => is_ascii c && negb (is_upper c)); [|exact H].
    intros c Hc. apply andb_true_iff in Hc as [_ Hc]. apply negb_true_iff in Hc.
    unfold ascii_lower. rewrite Hc. reflexivity.
  - revert H. apply forallb_impl. intros c Hc.
    apply andb_true_iff in Hc as [Hc _]. exact Hc.
Qed.

(** C2 (amended).  An input whose prepared form (control characters
    stripped, trimmed, NFKC-normalised) is longer than 2048 code units
    fails, whatever it holds; so does every input of more than 2048
    printable ASCII characters without spaces, which the preparation leaves
    as it is. *)
Theorem validateUrl_rejects_long_prepared_input :
  (forall raw : jsstring,
      (2048 < length (cleanUrlInput raw))%nat ->
      validateUrl (JString raw) = Err UrlTooLong) /\
  (forall raw : jsstring,
      forallb is_graphic raw = true -> (2048 < length raw)%nat ->
      validateUrl (JString raw) = Err UrlTooLong).
Proof.
  split; [exact validateUrl_too_long|].
  intros raw G L. apply validateUrl_too_long.
  rewrite cleanUrlInput_fixed by exact G. exact L.
Qed.

(** C3 (amended).  [ftp://example.com] fails with the scheme-not-allowed
    error, for the scheme [ftp]; [javascript:alert(1)], which has no [://]
    after its scheme, fails with the missing-scheme error. *)
Theorem validateUrl_ftp_and_javascript :
  validateUrl (JString (lit "ftp://example.com"))
  = Err (UrlSchemeNotAllowed (lit "ftp")) /\
  validateUrl (JString (lit "javascript:alert(1)")) = Err UrlSchemeMissing.
Proof.
  pose proof (toLowerCase_plain (lit "ftp") eq_refl) as T.
  unfold validateUrl. cbv zeta. rewrite !cleanUrlInput_fixed by reflexivity. split.
  - replace (schemeMatch (lit "ftp://example.com")) with (Some (lit "ftp"))
      by reflexivity.
    cbv beta iota. rewrite T. reflexivity.
  - replace (schemeMatch (lit "javascript:alert(1)")) with (@None jsstring)
      by reflexivity.
    reflexivity.
Qed.

End UrlInput.

Lemma validateUrl_rejects_long_prepared_input_witness :
  @validateUrl Reference.strings Reference.urls
    (JString (lit "https://example.com/" ++ repeat 97 2100)) = Err UrlTooLong.
Proof.
  apply (proj2 (@validateUrl_rejects_long_prepared_input
                  Reference.strings Reference.urls reference_string_laws)).
  - vm_compute; reflexivity.
  - apply Nat.ltb_lt. vm_compute; reflexivity.
Defined.

(** C2, as stated, fails: an input of 2120 code units, a URL followed by
    2100 spaces, is trimmed to the URL and accepted. *)
Lemma validateUrl_accepts_padded_input :
  (2048 < length (lit "https://example.com/" ++ repeat 32%Z 2100))%nat /\
  @validateUrl Reference.strings Reference.urls
    (JString (lit "https://example.com/" ++ repeat 32 2100))
  = Ok (lit "https://example.com/").
Proof.
  split; [apply Nat.ltb_lt|]; vm_compute; reflexivity.
Qed.

Lemma validateUrl_ftp_and_javascript_witness :
  @validateUrl Reference.strings Reference.urls (JString (lit "ftp://example.com"))
  = Err (UrlSchemeNotAllowed (lit "ftp")) /\
  @validateUrl Reference.strings Reference.urls (JString (lit "javascript:alert(1)"))
  = Err UrlSchemeMissing.
Proof.
  exact (@validateUrl_ftp_and_javascript
           Reference.strings Reference.urls reference_string_laws).
Defined.

(** C3, as stated, fails for [javascript:alert(1)]: the failure is the
    missing-scheme one, not a scheme-not-allowed one. *)
Lemma validateUrl_javascript_is_scheme_missing :
  @validateUrl Reference.strings Reference.urls (JString (lit "javascript:alert(1)"))
  = Err UrlSchemeMissing /\
  forall scheme,
    @validateUrl Reference.strings Reference.urls (JString (lit "javascript:alert(1)"))
    <> Err (UrlSchemeNotAllowed scheme).
Proof. split; [reflexivity | intros scheme; vm_compute; discriminate]. Qed.

(* ================================================================== *)
(** * The address classifier on IPv4 literals *)
(* ================================================================== *)

Section Classifier.

(** Checking a property of the numbers below [n] one by one. *)
Lemma forall_below (P : Z -> bool) (n : nat) :
  forallb (fun i => P (Z.of_nat i)) (seq 0 n) = true ->
  forall x, 0 <= x < Z.of_nat n -> P x = true.
Proof.
  intros H x Hx. rewrite forallb_forall in H.
  specialize (H (Z.to_nat x)). rewrite Z2Nat.id in H by lia.
  apply H, in_seq. lia.
Qed.

Lemma octet_below (P : Z -> bool) :
  forallb (fun i => P (Z.of_nat i)) (seq 0 256) = true ->
  forall x, is_octet x = true -> P x = true.
Proof.
  intros H x Hx. apply (forall_below P 256 H). unfold is_octet in Hx. lia.
Qed.

Lemma dec_octet_digits (x : Z) :
  is_octet x = true ->
  matches false (quant 1 3 digit) (Reference.dec x) /\
  forallb is_digit (Reference.dec x) = true.
Proof.
  intros H. split.
  - apply RegExpFacts.accepts_matches. revert x H. apply octet_below.
    vm_compute. reflexivity.
  - revert x H. apply octet_below. vm_compute. reflexivity.
Qed.

(** The shape test of [isBlockedHostname] and [validateUrl] accepts every
    dotted quad. *)
Lemma RAW_IPV4_RE_dotted_quad (a b c d : Z) :
  is_octet a = true -> is_octet b = true -> is_octet c = true -> is_octet d = true ->
  test RAW_IPV4_RE (dotted_quad a b c d) = true.
Proof.
  intros Ha Hb Hc Hd. apply RegExpFacts.test_whole. unfold dotted_quad.
  assert (Dot : forall x, is_octet x = true ->
                  matches false (Cat (chr ".") (quant 1 3 digit))
                          ([46] ++ Reference.dec x)).
  { intros x Hx. constructor; [|apply dec_octet_digits, Hx].
    constructor. reflexivity. }
  constructor; [apply dec_octet_digits, Ha|].
  change (quant 3 3 (Cat (chr ".") (quant 1 3 digit)))
    with (Cat (Cat (chr ".") (quant 1 3 digit))
           (Cat (Cat (chr ".") (quant 1 3 digit))
              (Cat (Cat (chr ".") (quant 1 3 digit)) Eps))).
  rewrite !app_assoc. rewrite <- (app_nil_r (_ ++ Reference.dec d)).
  rewrite <- !app_assoc.
  rewrite (app_assoc [46] (Reference.dec b)).
  constructor; [apply Dot, Hb|].
  rewrite (app_assoc [46] (Reference.dec c)).
  constructor; [apply Dot, Hc|].
  rewrite (app_assoc [46] (Reference.dec d)).
  constructor; [apply Dot, Hd | constructor].
Qed.

Lemma prefix_hit_some_test (res : list RegExp.t) (p rest : jsstring) :
  prefix_hit res p = true -> some_test res (p ++ rest) = true.
Proof.
  unfold prefix_hit, some_test. rewrite !existsb_exists.
  intros (re & Hin & H). exists re. split; [exact Hin|].
  destruct re as [bs bd es ic]. simpl in H.
  apply andb_true_iff in H as [H Hacc]. apply andb_true_iff in H as [Hb He].
  apply negb_true_iff in He. subst bs es.
  apply RegExpFacts.test_prefix, RegExpFacts.accepts_matches, Hacc.
Qed.

(** The patterns of [BLOCKED_IPV4] cover the listed ranges, 240.0.0.0/4
    taken as 240.0.0.0/8. *)
Lemma BLOCKED_IPV4_covers (a b c d : Z) :
  is_octet a = true -> is_octet b = true -> is_octet c = true -> is_octet d = true ->
  covered_ipv4 a b c d = true ->
  some_test BLOCKED_IPV4 (dotted_quad a b c d) = true.
Proof.
  intros Ha Hb Hc Hd H. unfold covered_ipv4 in H.
  assert (One : forall x, prefix_hit BLOCKED_IPV4 (Reference.dec x ++ [46]) = true ->
                          some_test BLOCKED_IPV4 (dotted_quad x b c d) = true).
  { intros x Hx. unfold dotted_quad. rewrite app_assoc.
    apply prefix_hit_some_test, Hx. }
  assert (Two : forall x y,
             prefix_hit BLOCKED_IPV4 (Reference.dec x ++ [46] ++ Reference.dec y ++ [46]) = true ->
             some_test BLOCKED_IPV4 (dotted_quad x y c d) = true).
  { intros x y Hxy. unfold dotted_quad.
    replace (Reference.dec x ++ [46] ++ Reference.dec y ++ [46] ++ Reference.dec c ++ [46] ++ Reference.dec d)
      with ((Reference.dec x ++ [46] ++ Reference.dec y ++ [46]) ++ Reference.dec c ++ [46] ++ Reference.dec d)
      by (rewrite <- !app_assoc; reflexivity).
    apply prefix_hit_some_test, Hxy. }
  assert (Three : forall x y z,
             prefix_hit BLOCKED_IPV4
               (Reference.dec x ++ [46] ++ Reference.dec y ++ [46] ++ Reference.dec z ++ [46]) = true ->
             some_test BLOCKED_IPV4 (dotted_quad x y z d) = true).
  { intros x y z Hxyz. unfold dotted_quad.
    replace (Reference.dec x ++ [46] ++ Reference.dec y ++ [46] ++ Reference.dec z ++ [46] ++ Reference.dec d)
      with ((Reference.dec x ++ [46] ++ Reference.dec y ++ [46] ++ Reference.dec z ++ [46]) ++ Reference.dec d)
      by (rewrite <- !app_assoc; reflexivity).
    apply prefix_hit_some_test, Hxyz. }
  repeat (apply orb_true_iff in H as [H|H]).
  - apply Z.eqb_eq in H; subst a. apply One. reflexivity.
  - apply Z.eqb_eq in H; subst a. apply One. reflexivity.
  - apply Z.eqb_eq in H; subst a. apply One. reflexivity.
  - apply andb_true_iff in H as [H H2]. apply andb_true_iff in H as [H H1].
    apply Z.eqb_eq in H; subst a. apply Two.
    assert (R : forall y, is_octet y = true ->
                 (if (16 <=? y) && (y <=? 31)
                  then prefix_hit BLOCKED_IPV4
                         (Reference.dec 172 ++ [46] ++ Reference.dec y ++ [46])
                  else true) = true).
    { apply octet_below. vm_compute. reflexivity. }
    specialize (R b Hb). rewrite H1, H2 in R. exact R.
  - apply andb_true_iff in H as [H H1].
    apply Z.eqb_eq in H; subst a. apply Z.eqb_eq in H1; subst b.
    apply Two. reflexivity.
  - apply andb_true_iff in H as [H H1].
    apply Z.eqb_eq in H; subst a. apply Z.eqb_eq in H1; subst b.
    apply Two. reflexivity.
  - apply andb_true_iff in H as [H H2]. apply andb_true_iff in H as [H H1].
    apply Z.eqb_eq in H; subst a. apply Two.
    assert (R : forall y, is_octet y = true ->
                 (if (64 <=? y) && (y <=? 127)
                  then prefix_hit BLOCKED_IPV4
                         (Reference.dec 100 ++ [46] ++ Reference.dec y ++ [46])
                  else true) = true).
    { apply octet_below. vm_compute. reflexivity. }
    specialize (R b Hb). rewrite H1, H2 in R. exact R.
  - apply andb_true_iff in H as [H H2]. apply andb_true_iff in H as [H H1].
    apply Z.eqb_eq in H; subst a. apply Z.eqb_eq in H1; subst b.
    apply Z.eqb_eq in H2; subst c. apply Three. reflexivity.
  - apply andb_true_iff in H as [H H2]. apply andb_true_iff in H as [H H1].
    apply Z.eqb_eq in H; subst a. apply Z.eqb_eq in H1; subst b.
    apply Z.eqb_eq in H2; subst c. apply Three. reflexivity.
  - apply Z.eqb_eq in H; subst a. apply One. reflexivity.
  - apply andb_true_iff in H as [H H3]. apply andb_true_iff in H as [H H2].
    apply andb_true_iff in H as [H H1].
    apply Z.eqb_eq in H; subst a. apply Z.eqb_eq in H1; subst b.
    apply Z.eqb_eq in H2; subst c. apply Z.eqb_eq in H3; subst d. reflexivity.
Qed.

Context `{SB : StringBuiltins} {SL : StringLaws}.

Lemma dotted_quad_plain (a b c d : Z) :
  is_octet a = true -> is_octet b = true -> is_octet c = true -> is_octet d = true ->
  forallb (fun x => is_ascii x && negb (is_upper x)) (dotted_quad a b c d) = true.
Proof.
  intros Ha Hb Hc Hd. unfold dotted_quad.
  assert (D : forall x, is_octet x = true ->
                forallb (fun x => is_ascii x && negb (is_upper x)) (Reference.dec x) = true).
  { intros x Hx. destruct (dec_octet_digits x Hx) as [_ F]. revert F.
    apply forallb_impl. intros y. unfold is_digit, is_ascii, is_upper. lia. }
  rewrite !forallb_app, !D by assumption. reflexivity.
Qed.

(** [isBlockedHostname] blocks every dotted quad of the listed ranges,
    240.0.0.0/4 taken as 240.0.0.0/8. *)
Lemma isBlockedHostname_covered (a b c d : Z) :
  is_octet a = true -> is_octet b = true -> is_octet c = true -> is_octet d = true ->
  covered_ipv4 a b c d = true ->
  isBlockedHostname (dotted_quad a b c d) = true.
Proof.
  intros Ha Hb Hc Hd H. unfold isBlockedHostname.
  rewrite toLowerCase_plain by (apply dotted_quad_plain; assumption).
  cbv zeta.
  destruct (has BLOCKED_HOSTNAMES (dotted_quad a b c d)); [reflexivity|].
  destruct (test INTERNAL_SUFFIX_RE (dotted_quad a b c d)); [reflexivity|].
  rewrite RAW_IPV4_RE_dotted_quad by assumption.
  apply BLOCKED_IPV4_covers; assumption.
Qed.

Context `{UB : URLBuiltin}.

(** A parsed [http:] or [https:] URL without credentials whose host name is
    such a dotted quad fails with the blocked-address error. *)
Lemma checkParsed_covered (p : URL) (a b c d : Z) :
  is_web p -> username p = [] -> password p = [] ->
  hostname p = dotted_quad a b c d ->
  is_octet a = true -> is_octet b = true -> is_octet c = true -> is_octet d = true ->
  covered_ipv4 a b c d = true ->
  checkParsed p = Err UrlBlockedAddress.
Proof.
  intros W U P Hh Ha Hb Hc Hd H. unfold checkParsed.
  replace (negb (str_eqb (protocol p) (lit "http:")) &&
           negb (str_eqb (protocol p) (lit "https:"))) with false
    by (destruct W as [-> | ->]; reflexivity).
  rewrite U, P, Hh. cbn [truthy length Nat.eqb negb orb]. cbv zeta.
  rewrite RAW_IPV4_RE_dotted_quad by assumption.
  rewrite isBlockedHostname_covered by assumption.
  assert (T : truthy (dotted_quad a b c d) = true).
  { unfold truthy, dotted_quad.
    destruct (dec_octet_digits a Ha) as [_ F].
    destruct (Reference.dec a) eqn:E; [|reflexivity].
    exfalso.
    assert (Q : forall x, is_octet x = true ->
                  negb (length (Reference.dec x) =? 0)%nat = true).
    { apply octet_below. vm_compute. reflexivity. }
    specialize (Q a Ha). rewrite E in Q. discriminate. }
  rewrite T. reflexivity.
Qed.

End Classifier.

(** C1: the claim and the code part at 240.0.0.0/4.  The address 241.0.0.1
    is in that range, [isBlockedHostname] does not block it, and
    [validateUrl] accepts a URL that has it as its host. *)
Theorem reserved_241_not_blocked :
  spec_blocked_ipv4 241 0 0 1 = true /\
  dotted_quad 241 0 0 1 = lit "241.0.0.1" /\
  @isBlockedHostname Reference.strings (lit "241.0.0.1") = false /\
  @validateUrl Reference.strings Reference.urls (JString (lit "http://241.0.0.1/"))
  = Ok (lit "http://241.0.0.1/").
Proof. repeat split; vm_compute; reflexivity. Qed.

(* ================================================================== *)
(** * The reference URL class follows the laws *)
(* ================================================================== *)

Module ReferenceFacts.
Import Reference.

(** ** Hosts *)

Lemma host_char_lower (c : Z) : host_char c = true -> lower_unit c = c.
Proof.
  unfold host_char, lower_unit, is_lower, is_digit, is_upper. intros H.
  replace ((65 <=? c) && (c <=? 90)) with false by lia.
  replace ((65313 <=? c) && (c <=? 65338)) with false by lia. reflexivity.
Qed.

Lemma host_parse_cases (v h : jsstring) :
  host_parse v = Some h ->
  h = map lower_unit v /\ h <> [] /\ forallb host_char h = true /\
  host_parse h = Some h.
Proof.
  unfold host_parse. set (m := map lower_unit v).
  destruct (truthy m && forallb host_char m && negb (includes (lit "xn--") m) &&
            (negb (numeric_label (last_label m)) || canonical_ipv4 m)) eqn:C;
    [|discriminate].
  intros E; injection E as <-.
  pose proof C as C'.
  apply andb_true_iff in C as [C _]. apply andb_true_iff in C as [C _].
  apply andb_true_iff in C as [T F].
  assert (M : map lower_unit m = m).
  { apply map_fixed with (p := host_char); [exact host_char_lower | exact F]. }
  repeat split; auto.
  - intros N. rewrite N in T. discriminate.
  - rewrite M, C'. reflexivity.
Qed.

Lemma host_char_facts (c : Z) :
  host_char c = true ->
  is_graphic c = true /\ url_char c = true /\ is_ascii c = true /\
  is_upper c = false /\ not_in [47; 63; 35] c = true /\
  not_in [58] c = true /\ negb (c =? 64) = true /\ negb (c =? 58) = true.
Proof.
  unfold host_char, is_graphic, url_char, is_ascii, is_upper, is_lower, is_digit,
    not_in, one_of. simpl. lia.
Qed.

Lemma digit_facts (c : Z) :
  is_digit c = true ->
  is_graphic c = true /\ url_char c = true /\
  not_in [47; 63; 35] c = true /\ negb (c =? 64) = true /\ negb (c =? 58) = true.
Proof.
  unfold is_graphic, url_char, is_digit, not_in, one_of. simpl. lia.
Qed.

(** ** Decimal numerals of port numbers *)

Lemma digits_value_snoc (ds : jsstring) (d : Z) :
  digits_value (ds ++ [d]) = digits_value ds * 10 + (d - 48).
Proof. unfold digits_value. rewrite fold_left_app. reflexivity. Qed.

(** The digits that [dec_digits] puts in front of its accumulator. *)
Lemma dec_digits_spec (fuel : nat) (n : Z) (acc : jsstring) :
  0 <= n < 10 ^ (Z.of_nat fuel + 1) ->
  exists ds, dec_digits (S fuel) n acc = ds ++ acc /\ ds <> [] /\
             forallb is_digit ds = true /\ digits_value ds = n.
Proof.
  revert n acc. induction fuel as [|fuel IH]; intros n acc H.
  - change (10 ^ (Z.of_nat 0 + 1)) with 10 in H. cbn [dec_digits].
    replace (n <? 10) with true by lia.
    exists [48 + n mod 10]. rewrite Z.mod_small by lia.
    repeat split;
      [discriminate | unfold is_digit; cbn [forallb]; lia
      | unfold digits_value; cbn [fold_left]; lia].
  - cbn [dec_digits]. destruct (n <? 10) eqn:E.
    + apply Z.ltb_lt in E. exists [48 + n mod 10]. rewrite Z.mod_small by lia.
      repeat split;
      [discriminate | unfold is_digit; cbn [forallb]; lia
      | unfold digits_value; cbn [fold_left]; lia].
    + apply Z.ltb_ge in E.
      assert (B : 0 <= n / 10 < 10 ^ (Z.of_nat fuel + 1)).
      { replace (Z.of_nat (S fuel) + 1) with (Z.succ (Z.of_nat fuel + 1)) in H by lia.
        rewrite Z.pow_succ_r in H by lia. split.
        - apply Z.div_pos; lia.
        - apply Z.div_lt_upper_bound; lia. }
      destruct (IH (n / 10) ((48 + n mod 10) :: acc) B) as (ds & Eq & Ne & F & V).
      change (dec_digits (S fuel) (n / 10) ((48 + n mod 10) :: acc) =
              ds ++ (48 + n mod 10) :: acc) in Eq.
      exists (ds ++ [48 + n mod 10]). rewrite <- app_assoc. repeat split.
      * exact Eq.
      * destruct ds; discriminate.
      * rewrite forallb_app, F. cbn [forallb andb].
        assert (0 <= n mod 10 < 10) by (apply Z.mod_pos_bound; lia).
        unfold is_digit. lia.
      * rewrite digits_value_snoc, V.
        pose proof (Z.div_mod n 10). lia.
Qed.

Lemma dec_port (n : Z) :
  0 <= n <= 65535 ->
  forallb is_digit (dec n) = true /\ (length (dec n) =? 0)%nat = false /\
  digits_value (dec n) = n.
Proof.
  intros H. unfold dec.
  destruct (@dec_digits_spec 19 n []) as (ds & Eq & Ne & F & V).
  - change (10 ^ (Z.of_nat 19 + 1)) with 100000000000000000000. lia.
  - rewrite Eq, app_nil_r. repeat split; auto.
    destruct ds; [congruence | reflexivity].
Qed.

Lemma digits_value_nonneg (ds : jsstring) :
  forallb is_digit ds = true -> 0 <= digits_value ds.
Proof.
  unfold digits_value.
  assert (G : forall acc, 0 <= acc -> forallb is_digit ds = true ->
                0 <= fold_left (fun acc d => acc * 10 + (d - 48)) ds acc).
  { induction ds as [|d ds IH]; simpl; intros acc Ha H; [exact Ha|].
    apply andb_true_iff in H as [Hd H]. apply IH; [|exact H].
    unfold is_digit in Hd. lia. }
  apply G. lia.
Qed.

(** ** Percent-encoding *)

Lemma pct_encode_fixed (set : Z -> bool) (s : jsstring) :
  forallb (kept set) s = true -> pct_encode set s = s.
Proof.
  unfold pct_encode, kept. induction s as [|c s IH]; simpl; [reflexivity|].
  intros H. apply andb_true_iff in H as [Hc Hs].
  apply andb_true_iff in Hc as [_ Hc]. apply negb_true_iff in Hc.
  rewrite Hc, (IH Hs). reflexivity.
Qed.

Lemma pct_encode_kept (set : Z -> bool) (s : jsstring) :
  stable set -> forallb url_char s = true ->
  forallb (kept set) (pct_encode set s) = true.
Proof.
  intros St. unfold pct_encode. induction s as [|c s IH]; simpl; [reflexivity|].
  intros H. apply andb_true_iff in H as [Hc Hs]. rewrite forallb_app, (IH Hs).
  destruct (set c) eqn:E.
  - rewrite (St c E). reflexivity.
  - simpl. unfold kept. rewrite Hc, E. reflexivity.
Qed.

Ltac members H :=
  unfold one_of in H; simpl in H;
  repeat (apply orb_true_iff in H as [H|H]);
  try discriminate; apply Z.eqb_eq in H; subst; reflexivity.

Lemma stable_path : stable path_set.
Proof. intros c H. unfold path_set in H. members H. Qed.

Lemma stable_query : stable query_set.
Proof. intros c H. unfold query_set in H. members H. Qed.

Lemma stable_fragment : stable fragment_set.
Proof. intros c H. unfold fragment_set in H. members H. Qed.

Lemma kept_url_char (set : Z -> bool) (s : jsstring) :
  forallb (kept set) s = true -> forallb url_char s = true.
Proof.
  apply forallb_impl. intros c H. apply andb_true_iff in H as [H _]. exact H.
Qed.

Lemma kept_graphic (set : Z -> bool) (s : jsstring) :
  set 32 = true -> forallb (kept set) s = true -> forallb is_graphic s = true.
Proof.
  intros S. apply forallb_impl. intros c H. unfold kept in H.
  apply andb_true_iff in H as [U N]. apply negb_true_iff in N.
  assert (c <> 32) by (intros ->; congruence).
  unfold url_char, is_graphic in *. lia.
Qed.

(** ** Splitting *)

Lemma split_on_none (d : Z) (s : jsstring) :
  forallb (fun c => negb (c =? d)) s = true -> split_on d s = [s].
Proof.
  induction s as [|c s IH]; simpl; [reflexivity|].
  intros H. apply andb_true_iff in H as [Hc Hs]. apply negb_true_iff in Hc.
  rewrite Hc, (IH Hs). reflexivity.
Qed.

Lemma split_on_first (d : Z) (a b : jsstring) :
  forallb (fun c => negb (c =? d)) a = true ->
  split_on d (a ++ d :: b) = a :: split_on d b.
Proof.
  induction a as [|c a IH]; simpl.
  - rewrite Z.eqb_refl. reflexivity.
  - intros H. apply andb_true_iff in H as [Hc Ha]. apply negb_true_iff in Hc.
    rewrite Hc, (IH Ha). reflexivity.
Qed.

Lemma forallb_takeWhile (p q : Z -> bool) (s : jsstring) :
  forallb p s = true -> forallb p (takeWhile q s) = true.
Proof.
  induction s as [|c s IH]; simpl; [reflexivity|].
  intros H. apply andb_true_iff in H as [Hc Hs].
  destruct (q c); simpl; [rewrite Hc; apply IH, Hs | reflexivity].
Qed.

Lemma forallb_dropWhile (p q : Z -> bool) (s : jsstring) :
  forallb p s = true -> forallb p (dropWhile q s) = true.
Proof.
  induction s as [|c s IH]; simpl; [reflexivity|].
  intros H. destruct (q c); simpl; [|exact H].
  apply andb_true_iff in H as [_ Hs]. apply IH, Hs.
Qed.

Lemma forallb_skipn (p : Z -> bool) (n : nat) (s : jsstring) :
  forallb p s = true -> forallb p (skipn n s) = true.
Proof.
  revert s; induction n as [|n IH]; intros [|c s]; simpl; auto.
  intros H. apply andb_true_iff in H as [_ H]. apply IH, H.
Qed.

(** ** What the parser returns *)

Lemma scheme_prefix_cases (s scheme rest : jsstring) :
  scheme_prefix s = Some (scheme, rest) ->
  (scheme = HTTP \/ scheme = HTTPS) /\ exists n, rest = skipn n s.
Proof.
  unfold scheme_prefix.
  destruct (str_eqb (map lower_unit (firstn 7 s)) (lit "http://")).
  - intros E; injection E as <- <-. split; [left; reflexivity | exists 7%nat; reflexivity].
  - destruct (str_eqb (map lower_unit (firstn 8 s)) (lit "https://")); [|discriminate].
    intros E; injection E as <- <-. split; [right; reflexivity | exists 8%nat; reflexivity].
Qed.

Lemma port_parse_cases (scheme ds : jsstring) (p : option Z) :
  port_parse scheme ds = Some p ->
  match p with
  | Some n => 0 <= n <= 65535 /\ n <> default_port scheme
  | None => True
  end.
Proof.
  unfold port_parse. destruct (forallb is_digit ds) eqn:F; simpl; [|discriminate].
  destruct (length ds =? 0)%nat; [intros E; injection E as <-; exact I|].
  destruct (65535 <? digits_value ds) eqn:L; [discriminate|].
  apply Z.ltb_ge in L.
  destruct (digits_value ds =? default_port scheme) eqn:D;
    intros E; injection E as <-; [exact I|].
  apply Z.eqb_neq in D. pose proof (digits_value_nonneg ds F). lia.
Qed.

Lemma split_hostport_cases (scheme hp host : jsstring) (p : option Z) :
  split_hostport scheme hp = Some (host, p) ->
  host_parse host = Some host /\
  match p with
  | Some n => 0 <= n <= 65535 /\ n <> default_port scheme
  | None => True
  end.
Proof.
  unfold split_hostport.
  destruct (split_on 58 hp) as [|h [|ds [|x l]]]; try discriminate.
  - destruct (host_parse h) as [h'|] eqn:H; [|discriminate].
    intros E; injection E as <- <-. split; [|exact I].
    apply (host_parse_cases h H).
  - destruct (host_parse h) as [h'|] eqn:H; [|discriminate].
    destruct (port_parse scheme ds) as [q|] eqn:P; [|discriminate].
    intros E; injection E as <- <-. split.
    + apply (host_parse_cases h H).
    + apply (port_parse_cases scheme ds P).
Qed.

Lemma query_part_chars (p : Z -> bool) (s : jsstring) :
  forallb p s = true ->
  match query_part s with Some q => forallb p q = true | None => True end /\
  forallb p (after_query s) = true.
Proof.
  destruct s as [|c r]; simpl; [auto|]. intros H.
  destruct (c =? 63); [|auto].
  apply andb_true_iff in H as [_ H].
  split; [apply forallb_takeWhile, H | apply forallb_dropWhile, H].
Qed.

Lemma fragment_part_chars (p : Z -> bool) (s : jsstring) :
  forallb p s = true ->
  match fragment_part s with Some f => forallb p f = true | None => True end.
Proof.
  destruct s as [|c r]; simpl; [auto|]. intros H.
  destruct (c =? 35); [|exact I].
  apply andb_true_iff in H as [_ H]. exact H.
Qed.

Lemma split_tail_cases (tail path : jsstring) (query fragment : option jsstring) :
  forallb url_char tail = true ->
  match tail with [] => True | c :: _ => not_in [47; 63; 35] c = false end ->
  split_tail tail = (path, query, fragment) ->
  (exists t, path = 47 :: t) /\
  forallb (kept path_set) path = true /\
  match query with Some q => forallb (kept query_set) q = true | None => True end /\
  match fragment with Some f => forallb (kept fragment_set) f = true | None => True end.
Proof.
  intros U Hd. unfold split_tail. intros E. injection E as <- <- <-.
  assert (Ua : forallb url_char (dropWhile (not_in [63; 35]) tail) = true)
    by (apply forallb_dropWhile, U).
  destruct (query_part_chars url_char _ Ua) as [Uq Ur].
  pose proof (fragment_part_chars url_char _ Ur) as Uf.
  repeat split.
  - destruct tail as [|c t]; [exists []; reflexivity|].
    unfold not_in, one_of in Hd. simpl in Hd.
    rewrite orb_false_r in Hd. apply negb_false_iff in Hd.
    repeat (apply orb_true_iff in Hd as [Hd|Hd]); apply Z.eqb_eq in Hd; subst c.
    + eexists. reflexivity.
    + exists []; reflexivity.
    + exists []; reflexivity.
  - apply pct_encode_kept; [exact stable_path|].
    destruct (takeWhile (not_in [63; 35]) tail) eqn:T; [reflexivity|].
    rewrite <- T. apply forallb_takeWhile, U.
  - destruct (query_part _); simpl; [|exact I].
    apply pct_encode_kept; [exact stable_query | exact Uq].
  - destruct (fragment_part _); simpl; [|exact I].
    apply pct_encode_kept; [exact stable_fragment | exact Uf].
Qed.

(** The parser returns canonical records. *)
Lemma parse_canonical (s : jsstring) (u : url) : parse s = Some u -> canonical u.
Proof.
  unfold parse. set (s' := strip_c0_space s).
  destruct (forallb url_char s') eqn:U; cbn [negb]; [|discriminate].
  destruct (scheme_prefix s') as [[scheme rest]|] eqn:SP; [|discriminate].
  destruct (scheme_prefix_cases s' SP) as [Sc [n ->]].
  assert (Ur : forallb url_char (skipn n s') = true) by (apply forallb_skipn, U).
  destruct (split_authority _) as [[[user pass] hp]|]; [|discriminate].
  destruct (split_hostport scheme hp) as [[host port_]|] eqn:HP; [|discriminate].
  destruct (split_hostport_cases scheme hp HP) as [Hh Hp].
  destruct (split_tail _) as [[path query] fragment] eqn:ST.
  apply split_tail_cases in ST as (P1 & P2 & P3 & P4);
    [|apply forallb_dropWhile, Ur | apply dropWhile_head].
  destruct (plain_path path) eqn:PP; [|discriminate].
  intros E; injection E as <-. split; simpl; assumption.
Qed.

(** ** Parsing a serialisation *)

Lemma strip_c0_space_fixed (s : jsstring) :
  forallb is_graphic s = true -> strip_c0_space s = s.
Proof.
  intros H. unfold strip_c0_space.
  assert (D : forall t, forallb is_graphic t = true ->
                        dropWhile is_c0_or_space t = t).
  { intros t Ht. apply dropWhile_none. destruct t as [|c t]; [exact I|].
    simpl in Ht. apply andb_true_iff in Ht as [Hc _].
    unfold is_graphic, is_c0_or_space in *. lia. }
  rewrite (D s H), D, rev_involutive; [reflexivity|].
  rewrite forallb_forall in *. intros c Hc. apply H, in_rev, Hc.
Qed.

Lemma scheme_prefix_serialized (scheme rest : jsstring) :
  scheme = HTTP \/ scheme = HTTPS ->
  scheme_prefix (scheme ++ lit "://" ++ rest) = Some (scheme, rest).
Proof. intros [-> | ->]; reflexivity. Qed.

(** Host and port are read back from their text. *)
Lemma split_hostport_serialized (scheme host : jsstring) (p : option Z) :
  host_parse host = Some host ->
  match p with
  | Some n => 0 <= n <= 65535 /\ n <> default_port scheme
  | None => True
  end ->
  split_hostport scheme (host ++ port_text p) = Some (host, p).
Proof.
  intros Hh Hp. destruct (@host_parse_cases host host Hh) as (_ & _ & F & _).
  assert (N : forallb (fun c => negb (c =? 58)) host = true).
  { revert F. apply forallb_impl. intros c Hc. apply host_char_facts, Hc. }
  unfold split_hostport. destruct p as [n|]; simpl port_text.
  - destruct Hp as [R D]. destruct (@dec_port n R) as (Fd & Ld & Vd).
    rewrite split_on_first by exact N.
    rewrite split_on_none
      by (revert Fd; apply forallb_impl; intros c Hc; apply digit_facts, Hc).
    rewrite Hh. unfold port_parse. rewrite Fd, Ld, Vd. simpl negb. cbv iota.
    replace (65535 <? n) with false by lia.
    replace (n =? default_port scheme) with false by lia. reflexivity.
  - rewrite app_nil_r, split_on_none by exact N. rewrite Hh. reflexivity.
Qed.

Lemma kept_not_in (set : Z -> bool) (l : list Z) (s : jsstring) :
  (forall c, one_of l c = true -> set c = true) ->
  forallb (kept set) s = true -> forallb (not_in l) s = true.
Proof.
  intros Hl. apply forallb_impl. intros c H. unfold kept, not_in in *.
  apply andb_true_iff in H as [_ H]. apply negb_true_iff in H.
  destruct (one_of l c) eqn:E; [|reflexivity].
  rewrite (Hl c E) in H. discriminate.
Qed.

Ltac member_of := let c := fresh in let H := fresh in intros c H; members H.

(** Path, query and fragment are read back from their text. *)
Lemma split_tail_serialized (path : jsstring) (query fragment : option jsstring) :
  (exists t, path = 47 :: t) ->
  forallb (kept path_set) path = true ->
  match query with Some q => forallb (kept query_set) q = true | None => True end ->
  match fragment with Some f => forallb (kept fragment_set) f = true | None => True end ->
  split_tail (path ++ query_text query ++ fragment_text fragment)
  = (path, query, fragment).
Proof.
  intros [t ->] Kp Kq Kf. set (path := 47 :: t) in *. unfold split_tail.
  assert (Hd : match query_text query ++ fragment_text fragment with
               | [] => True
               | c :: _ => not_in [63; 35] c = false
               end).
  { destruct query; [reflexivity|]. destruct fragment; [reflexivity | exact I]. }
  assert (Np : forallb (not_in [63; 35]) path = true).
  { revert Kp. apply kept_not_in. unfold path_set. member_of. }
  destruct (@takeWhile_app_stop (not_in [63; 35]) path _ Np Hd) as [-> ->].
  subst path. cbv iota.
  rewrite (@pct_encode_fixed path_set (47 :: t) Kp).
  assert (Q : query_part (query_text query ++ fragment_text fragment) = query /\
              after_query (query_text query ++ fragment_text fragment)
              = fragment_text fragment).
  { destruct query as [q|]; simpl.
    - assert (Nq : forallb (not_in [35]) q = true).
      { revert Kq. apply kept_not_in. unfold query_set. member_of. }
      assert (Hf : match fragment_text fragment with
                   | [] => True
                   | c :: _ => not_in [35] c = false
                   end) by (destruct fragment; [reflexivity | exact I]).
      destruct (@takeWhile_app_stop (not_in [35]) q _ Nq Hf) as [-> ->].
      split; reflexivity.
    - destruct fragment; simpl; split; reflexivity. }
  destruct Q as [-> ->].
  assert (F : fragment_part (fragment_text fragment) = fragment)
    by (destruct fragment; reflexivity).
  rewrite F.
  destruct query as [q|]; destruct fragment as [f|]; simpl;
    rewrite ?(@pct_encode_fixed query_set q Kq), ?(@pct_encode_fixed fragment_set f Kf);
    reflexivity.
Qed.

(** The characters of a serialisation. *)
Lemma serialize_chars (u : url) :
  canonical u -> u_username u = [] -> u_password u = [] ->
  forallb (fun c => is_graphic c && url_char c) (serialize u) = true.
Proof.
  intros [Cs Ch Cp _ Kp _ Kq Kf] Eu Ew. unfold serialize. rewrite Eu, Ew.
  assert (G : forall set s, set 32 = true -> forallb (kept set) s = true ->
                forallb (fun c => is_graphic c && url_char c) s = true).
  { intros set s S K. pose proof (@kept_graphic set s S K) as A.
    pose proof (@kept_url_char set s K) as B.
    rewrite forallb_forall in *. intros c Hc. rewrite (A c Hc), (B c Hc). reflexivity. }
  set (ok := fun c => is_graphic c && url_char c) in *.
  assert (H1 : forallb ok (u_scheme u) = true)
    by (destruct Cs as [-> | ->]; reflexivity).
  assert (H2 : forallb ok (u_host u) = true).
  { destruct (@host_parse_cases _ _ Ch) as (_ & _ & F & _). revert F.
    apply forallb_impl. intros c Hc. unfold ok.
    destruct (host_char_facts c Hc) as (A & B & _). rewrite A, B. reflexivity. }
  assert (H3 : forallb ok (port_text (u_port u)) = true).
  { destruct (u_port u) as [n|]; [|reflexivity]. destruct Cp as [R _].
    destruct (@dec_port n R) as (Fd & _). cbn [port_text forallb].
    apply andb_true_iff. split; [reflexivity|]. revert Fd.
    apply forallb_impl. intros c Hc. unfold ok.
    destruct (digit_facts c Hc) as (A & B & _). rewrite A, B. reflexivity. }
  assert (H4 : forallb ok (u_path u) = true) by (apply (G path_set _ eq_refl Kp)).
  assert (H5 : forallb ok (query_text (u_query u)) = true).
  { destruct (u_query u); [|reflexivity]. cbn [query_text forallb].
    apply andb_true_iff. split; [reflexivity|]. apply (G query_set _ eq_refl Kq). }
  assert (H6 : forallb ok (fragment_text (u_fragment u)) = true).
  { destruct (u_fragment u); [|reflexivity]. cbn [fragment_text forallb].
    apply andb_true_iff. split; [reflexivity|]. apply (G fragment_set _ eq_refl Kf). }
  rewrite !forallb_app, H1, H2, H3, H4, H5, H6. reflexivity.
Qed.

(** Parsing the serialisation of a canonical record without credentials
    gives the record back. *)
Lemma parse_serialize (u : url) :
  canonical u -> u_username u = [] -> u_password u = [] ->
  parse (serialize u) = Some u.
Proof.
  intros C Eu Ew. pose proof (@serialize_chars u C Eu Ew) as Ch.
  destruct C as [Cs Chost Cp Cph Kp Cpl Kq Kf].
  assert (G : forallb is_graphic (serialize u) = true).
  { revert Ch. apply forallb_impl. intros c H.
    apply andb_true_iff in H as [H _]. exact H. }
  assert (U : forallb url_char (serialize u) = true).
  { revert Ch. apply forallb_impl. intros c H.
    apply andb_true_iff in H as [_ H]. exact H. }
  unfold parse. rewrite (@strip_c0_space_fixed _ G), U. cbn [negb].
  unfold serialize at 1. rewrite Eu, Ew.
  change (userinfo_text [] []) with (@nil Z). cbn [app].
  rewrite (@scheme_prefix_serialized _ _ Cs).
  destruct (@host_parse_cases _ _ Chost) as (_ & _ & Fh & _).
  assert (Na : forallb (not_in [47; 63; 35]) (u_host u ++ port_text (u_port u)) = true).
  { rewrite forallb_app. apply andb_true_iff. split.
    - revert Fh. apply forallb_impl. intros c Hc. apply host_char_facts, Hc.
    - destruct (u_port u) as [n|]; [|reflexivity]. destruct Cp as [R _].
      destruct (@dec_port n R) as (Fd & _). simpl. revert Fd.
      apply forallb_impl. intros c Hc. apply digit_facts, Hc. }
  assert (N64 : forallb (fun c => negb (c =? 64)) (u_host u ++ port_text (u_port u)) = true).
  { rewrite forallb_app. apply andb_true_iff. split.
    - revert Fh. apply forallb_impl. intros c Hc. apply host_char_facts, Hc.
    - destruct (u_port u) as [n|]; [|reflexivity]. destruct Cp as [R _].
      destruct (@dec_port n R) as (Fd & _). simpl. revert Fd.
      apply forallb_impl. intros c Hc. apply digit_facts, Hc. }
  assert (Hd : match u_path u ++ query_text (u_query u) ++ fragment_text (u_fragment u) with
               | [] => True
               | c :: _ => not_in [47; 63; 35] c = false
               end).
  { destruct Cph as [t ->]. reflexivity. }
  rewrite (app_assoc (u_host u)).
  destruct (@takeWhile_app_stop (not_in [47; 63; 35]) _ _ Na Hd) as [-> ->].
  unfold split_authority. rewrite (@split_on_none _ _ N64).
  rewrite (@split_hostport_serialized _ _ _ Chost Cp).
  rewrite (@split_tail_serialized _ _ _ Cph Kp Kq Kf).
  rewrite Cpl. destruct u; simpl in *; subst; reflexivity.
Qed.

End ReferenceFacts.

#[export] Instance reference_url_laws : @URLLaws Reference.urls.
Proof.
  split; cbn [URL URL_new protocol username password hostname port
              set_protocol set_hostname set_port URL_toString Reference.urls].
  - intros s p H _. apply ReferenceFacts.parse_canonical in H.
    destruct H as [Cs _ Cp _ _ _ _ _].
    unfold Reference.with_protocol, Reference.get_protocol.
    destruct p as [sch us pw host prt path q f]; cbn in Cs, Cp |- *.
    destruct Cs as [-> | ->]; cbn; destruct prt as [n|]; try reflexivity;
      destruct Cp as [_ D]; cbn in D;
      (replace (n =? 80) with false by lia) || (replace (n =? 443) with false by lia);
      reflexivity.
  - intros s p H _. apply ReferenceFacts.parse_canonical in H.
    destruct H as [_ Ch _ _ _ _ _ _]. unfold Reference.with_hostname.
    rewrite Ch. destruct p; reflexivity.
  - intros s p H _. apply ReferenceFacts.parse_canonical in H.
    destruct H as [_ Ch _ _ _ _ _ _].
    destruct (@ReferenceFacts.host_parse_cases _ _ Ch) as (_ & _ & F & _).
    revert F. apply forallb_impl. intros c Hc.
    destruct (ReferenceFacts.host_char_facts c Hc) as (_ & _ & A & B & _).
    rewrite A, B. reflexivity.
  - intros s p H. apply ReferenceFacts.parse_canonical in H.
    destruct H as [Cs _ Cp _ _ _ _ _].
    unfold Reference.get_protocol, Reference.get_port.
    assert (V : forall n v, 0 <= n <= 65535 ->
                  Reference.dec n = v -> n = Reference.digits_value v).
    { intros n v R <-. destruct (@ReferenceFacts.dec_port n R) as (_ & _ & V).
      symmetry. exact V. }
    split; intros E; destruct (Reference.u_port p) as [n|]; try discriminate;
      destruct Cp as [R D]; intros N; apply (V n _ R) in N;
      destruct Cs as [Es | Es]; rewrite Es in E, D; try discriminate E;
      apply D; rewrite N; reflexivity.
  - intros s p H _ Eu Ew. apply ReferenceFacts.parse_canonical in H.
    pose proof (@ReferenceFacts.serialize_chars p H Eu Ew) as C.
    revert C. apply forallb_impl. intros c Hc.
    apply andb_true_iff in Hc as [Hc _]. exact Hc.
  - intros s p _ _. unfold Reference.serialize, Reference.get_protocol.
    eexists. rewrite <- app_assoc. reflexivity.
Qed.

(* ================================================================== *)
(** * Validating a validated URL *)
(* ================================================================== *)

Section Idempotence.

Context `{SB : StringBuiltins} `{UB : URLBuiltin}.
Context {SL : StringLaws} {UL : URLLaws}.

Lemma truthy_false (s : jsstring) : truthy s = false -> s = [].
Proof. destruct s; [reflexivity | discriminate]. Qed.

(** What [validateUrl] returns is the serialisation of the URL it parsed:
    on a parsed URL the three normalising assignments change nothing. *)
Lemma checkParsed_ok (s : jsstring) (p : URL) (u : jsstring) :
  URL_new s = Some p -> checkParsed p = Ok u ->
  is_web p /\ username p = [] /\ password p = [] /\ u = URL_toString p.
Proof.
  intros N. unfold checkParsed.
  destruct (negb (str_eqb (protocol p) (lit "http:")) &&
            negb (str_eqb (protocol p) (lit "https:"))) eqn:W; [discriminate|].
  assert (Web : is_web p).
  { apply andb_false_iff in W as [W|W]; apply negb_false_iff, str_eqb_eq in W;
      [left | right]; exact W. }
  destruct (truthy (username p) || truthy (password p)) eqn:C; [discriminate|].
  apply orb_false_iff in C as [Cu Cp].
  apply truthy_false in Cu. apply truthy_false in Cp.
  destruct (negb (truthy (hostname p))); [discriminate|].
  destruct (negb (test RAW_IPV4_RE (hostname p) || includes (lit ":") (hostname p)) &&
            negb (includes (lit ".") (hostname p))); [discriminate|].
  destruct (isBlockedHostname (hostname p)); [discriminate|].
  assert (E1 : set_protocol p (toLowerCase (protocol p)) = p).
  { rewrite toLowerCase_plain by (destruct Web as [-> | ->]; reflexivity).
    apply (@set_protocol_same UB UL s p N Web). }
  rewrite E1.
  assert (E2 : set_hostname p (toLowerCase (hostname p)) = p).
  { rewrite toLowerCase_plain by (apply (@hostname_lower UB UL s p N Web)).
    apply (@set_hostname_same UB UL s p N Web). }
  rewrite E2.
  destruct (@default_port_hidden UB UL s p N) as [D1 D2].
  replace ((str_eqb (protocol p) (lit "http:") && str_eqb (port p) (lit "80")) ||
           (str_eqb (protocol p) (lit "https:") && str_eqb (port p) (lit "443")))
    with false.
  - intros E; injection E as <-. auto.
  - symmetry. apply orb_false_iff. split; apply andb_false_iff.
    + destruct (str_eqb (protocol p) (lit "http:")) eqn:A; [right | left; reflexivity].
      apply str_eqb_eq in A. apply str_eqb_neq, D1, A.
    + destruct (str_eqb (protocol p) (lit "https:")) eqn:A; [right | left; reflexivity].
      apply str_eqb_eq in A. apply str_eqb_neq, D2, A.
Qed.




End Idempotence.



(* ================================================================== *)
(** * Further properties of the code *)
(* ================================================================== *)

Unset Implicit Arguments.
Import RegExp.

(* ================================================================== *)
(** * Deciding host names: names and suffixes *)
(* ================================================================== *)

Module Prefixes.
Import RegExpFacts.

Lemma accepts_derivs (ic : bool) (p s : jsstring) (r : regex) :
  accepts ic r (p ++ s) = accepts ic (derivs ic p r) s.
Proof. revert r; induction p as [|c p IH]; intro r; simpl; [reflexivity | apply IH]. Qed.

Lemma empty_lang_matches (ic : bool) (r : regex) (s : jsstring) :
  empty_lang r = true -> ~ matches ic r s.
Proof.
  intros E M. induction M; simpl in E; try discriminate.
  - apply orb_true_iff in E as [E|E]; auto.
  - apply andb_true_iff in E as [E _]; auto.
  - apply andb_true_iff in E as [_ E]; auto.
Qed.

Lemma empty_lang_accepts (ic : bool) (r : regex) (s : jsstring) :
  empty_lang r = true -> accepts ic r s = false.
Proof.
  intro E. destruct (accepts ic r s) eqn:A; [|reflexivity].
  apply accepts_matches in A. destruct (empty_lang_matches ic r s E A).
Qed.

Lemma dead_after_test (res : list RegExp.t) (p rest : jsstring) (re : RegExp.t) :
  dead_after res p = true -> In re res -> test re (p ++ rest) = false.
Proof.
  intros D I. unfold dead_after in D. rewrite forallb_forall in D.
  specialize (D re I). unfold test. fold (pattern_of re).
  rewrite accepts_derivs. apply empty_lang_accepts, D.
Qed.

Lemma dead_after_some_test (res : list RegExp.t) (p rest : jsstring) :
  dead_after res p = true -> some_test res (p ++ rest) = false.
Proof.
  intro D. unfold some_test.
  destruct (existsb (fun re => test re (p ++ rest)) res) eqn:E; [|reflexivity].
  apply existsb_exists in E as (re & I & T).
  rewrite (dead_after_test res p rest re D I) in T. discriminate.
Qed.

Lemma matches_alt_inv (ic : bool) (r1 r2 : regex) (s : jsstring) :
  matches ic (Alt r1 r2) s -> matches ic r1 s \/ matches ic r2 s.
Proof. intro M. inversion M; subst; auto. Qed.

(** Under the [i] flag a class of one lower-case letter accepts that letter
    and its capital. *)
Lemma cls_letter (ic : bool) (c x : Z) :
  is_lower c = true -> cls_test ic [(c, c)] x = true -> ascii_lower x = c.
Proof.
  unfold cls_test, in_ranges, swap_case, ascii_lower, is_lower, is_upper.
  simpl. intros L H.
  destruct ((65 <=? x) && (x <=? 90)) eqn:U;
    [|destruct ((97 <=? x) && (x <=? 122)) eqn:W]; destruct ic; lia.
Qed.

Lemma cls_dot (ic : bool) (x : Z) : cls_test ic [(46, 46)] x = true -> x = 46.
Proof.
  unfold cls_test, in_ranges, swap_case, is_lower, is_upper.
  simpl. intros H.
  destruct ((65 <=? x) && (x <=? 90)) eqn:U;
    [|destruct ((97 <=? x) && (x <=? 122)) eqn:W]; destruct ic; lia.
Qed.

(** A literal word of lower-case letters matches its spellings in any
    letter case. *)
Lemma matches_word (ic : bool) (l : list ascii) (s : jsstring) :
  forallb (fun a => is_lower (Z.of_N (N_of_ascii a))) l = true ->
  matches ic (seq_of (map chr l)) s ->
  map ascii_lower s = map (fun a => Z.of_N (N_of_ascii a)) l.
Proof.
  revert s. induction l as [|a l IH]; intros s L M.
  - inversion M. reflexivity.
  - simpl in L. apply andb_true_iff in L as [La L].
    destruct l as [|b l].
    + apply matches_cls_inv in M as (x & -> & T). simpl.
      rewrite (cls_letter ic _ x La T). reflexivity.
    + change (seq_of (map chr (a :: b :: l)))
        with (Cat (chr a) (seq_of (map chr (b :: l)))) in M.
      apply matches_cat_inv in M as (s1 & s2 & -> & M1 & M2).
      apply matches_cls_inv in M1 as (x & -> & T).
      simpl app. rewrite map_cons, (cls_letter ic _ x La T), (IH s2 L M2).
      reflexivity.
Qed.

Lemma letter_cls (c x : Z) :
  is_lower c = true -> ascii_lower x = c -> cls_test true [(c, c)] x = true.
Proof.
  unfold cls_test, in_ranges, swap_case, ascii_lower, is_lower, is_upper.
  simpl. intros L H.
  destruct ((65 <=? x) && (x <=? 90)) eqn:U;
    [|destruct ((97 <=? x) && (x <=? 122)) eqn:W]; lia.
Qed.

Lemma word_matches (l : list ascii) (s : jsstring) :
  forallb (fun a => is_lower (Z.of_N (N_of_ascii a))) l = true ->
  map ascii_lower s = map (fun a => Z.of_N (N_of_ascii a)) l ->
  matches true (seq_of (map chr l)) s.
Proof.
  revert s. induction l as [|a l IH]; intros s L E.
  - destruct s; [constructor | discriminate].
  - simpl in L. apply andb_true_iff in L as [La L].
    destruct s as [|x s]; [discriminate|].
    simpl in E. injection E as Ex E.
    destruct l as [|b l].
    + destruct s; [|discriminate]. constructor. apply letter_cls; assumption.
    + change (seq_of (map chr (a :: b :: l)))
        with (Cat (chr a) (seq_of (map chr (b :: l)))).
      change (x :: s) with ([x] ++ s). constructor.
      * constructor. apply letter_cls; assumption.
      * apply IH; assumption.
Qed.

End Prefixes.

Section Hosts.

Context `{SB : StringBuiltins} {SL : StringLaws}.

(** The suffix pattern matches exactly the strings that end with a dot and
    one of its six words, in any letter case. *)
Lemma INTERNAL_SUFFIX_RE_words (s : jsstring) :
  test INTERNAL_SUFFIX_RE s = true <->
  exists pre word, s = pre ++ [46] ++ word /\
                   In (map ascii_lower word) INTERNAL_SUFFIXES.
Proof.
  unfold test, INTERNAL_SUFFIX_RE. cbn [bos eos body ignoreCase].
  rewrite RegExpFacts.accepts_matches. split.
  - intro M.
    apply RegExpFacts.matches_cat_inv in M as (pre & s2 & -> & _ & M).
    apply RegExpFacts.matches_cat_inv in M as (d & word & -> & Md & M).
    apply RegExpFacts.matches_cls_inv in Md as (x & -> & T).
    apply Prefixes.cls_dot in T. subst x.
    exists pre, word. split; [reflexivity|].
    cbn [alt_of] in M.
    repeat (apply Prefixes.matches_alt_inv in M as [M|M]);
      apply Prefixes.matches_word in M; try reflexivity;
      rewrite M; unfold INTERNAL_SUFFIXES; simpl; tauto.
  - intros (pre & word & -> & I).
    constructor; [apply RegExpFacts.matches_star_any|].
    constructor; [constructor; reflexivity|].
    unfold INTERNAL_SUFFIXES in I. cbn [map In] in I. cbn [alt_of].
    destruct I as [I|[I|[I|[I|[I|[I|[]]]]]]]; symmetry in I;
      apply Prefixes.word_matches in I; try reflexivity.
    + apply MAltL, I.
    + apply MAltR, MAltL, I.
    + apply MAltR, MAltR, MAltL, I.
    + apply MAltR, MAltR, MAltR, MAltL, I.
    + apply MAltR, MAltR, MAltR, MAltR, MAltL, I.
    + apply MAltR, MAltR, MAltR, MAltR, MAltR, I.
Qed.

Lemma isBlockedHostname_name (name : jsstring) :
  forallb is_ascii name = true ->
  In (map ascii_lower name) BLOCKED_HOSTNAMES ->
  isBlockedHostname name = true.
Proof.
  intros A I. unfold isBlockedHostname.
  rewrite toLowerCase_ascii by exact A. cbv zeta.
  replace (has BLOCKED_HOSTNAMES (map ascii_lower name)) with true; [reflexivity|].
  symmetry. apply existsb_exists. exists (map ascii_lower name).
  split; [exact I | apply str_eqb_refl].
Qed.

Lemma ascii_lower_twice (s : jsstring) :
  map ascii_lower (map ascii_lower s) = map ascii_lower s.
Proof.
  rewrite map_map. apply map_ext. intro x. unfold ascii_lower, is_upper.
  destruct ((65 <=? x) && (x <=? 90)) eqn:U; [|rewrite U; reflexivity].
  replace ((65 <=? x + 32) && (x + 32 <=? 90)) with false by lia. reflexivity.
Qed.

Lemma isBlockedHostname_suffix (pre word : jsstring) :
  forallb is_ascii (pre ++ [46] ++ word) = true ->
  In (map ascii_lower word) INTERNAL_SUFFIXES ->
  isBlockedHostname (pre ++ [46] ++ word) = true.
Proof.
  intros A I. unfold isBlockedHostname.
  rewrite toLowerCase_ascii by exact A. cbv zeta.
  destruct (has BLOCKED_HOSTNAMES _); [reflexivity|].
  replace (test INTERNAL_SUFFIX_RE (map ascii_lower (pre ++ [46] ++ word)))
    with true; [reflexivity|].
  symmetry. apply INTERNAL_SUFFIX_RE_words.
  exists (map ascii_lower pre), (map ascii_lower word).
  rewrite !map_app. split; [reflexivity|].
  rewrite ascii_lower_twice. exact I.
Qed.

(** X3. The exact names and the internal suffixes are blocked in any letter
    case. *)
Theorem isBlockedHostname_names_and_suffixes :
  (forall name : jsstring,
      forallb is_ascii name = true ->
      In (map ascii_lower name) BLOCKED_HOSTNAMES ->
      isBlockedHostname name = true) /\
  (forall pre word : jsstring,
      forallb is_ascii (pre ++ [46] ++ word) = true ->
      In (map ascii_lower word) INTERNAL_SUFFIXES ->
      isBlockedHostname (pre ++ [46] ++ word) = true).
Proof. split; [exact isBlockedHostname_name | exact isBlockedHostname_suffix]. Qed.

End Hosts.

Lemma isBlockedHostname_names_and_suffixes_witness :
  @isBlockedHostname Reference.strings (lit "LocalHost") = true /\
  @isBlockedHostname Reference.strings (lit "printer.LAN") = true.
Proof.
  pose proof (@isBlockedHostname_names_and_suffixes
                Reference.strings reference_string_laws) as [A B].
  split.
  - apply A; [reflexivity | simpl; tauto].
  - apply (B (lit "printer") (lit "LAN")); [reflexivity | simpl; tauto].
Defined.

(* ================================================================== *)
(** * Deciding host names: IPv4 addresses *)
(* ================================================================== *)

Section Quads.

Lemma quad1_dead (a : Z) :
  is_octet a = true ->
  hit1 a || open1 a || dead_after BLOCKED_IPV4 (quad1 a) = true.
Proof. revert a. apply octet_below. vm_compute. reflexivity. Qed.

Lemma quad2_dead (a b : Z) :
  is_octet a = true -> is_octet b = true -> open1 a = true ->
  hit2 a b || open2 a b || dead_after BLOCKED_IPV4 (quad2 a b) = true.
Proof.
  intros Ha Hb O.
  assert (R : forall x, is_octet x = true ->
                forallb (fun j => if open1 x
                                  then hit2 x (Z.of_nat j) || open2 x (Z.of_nat j) ||
                                       dead_after BLOCKED_IPV4 (quad2 x (Z.of_nat j))
                                  else true) (seq 0 256) = true).
  { apply octet_below. vm_compute. reflexivity. }
  pose proof (octet_below
                (fun y => if open1 a
                          then hit2 a y || open2 a y || dead_after BLOCKED_IPV4 (quad2 a y)
                          else true) (R a Ha) b Hb) as Q.
  cbv beta in Q. rewrite O in Q. exact Q.
Qed.

Lemma quad3_dead (c : Z) :
  is_octet c = true ->
  (hit3 198 51 c || dead_after BLOCKED_IPV4 (quad3 198 51 c)) &&
  (hit3 203 0 c || dead_after BLOCKED_IPV4 (quad3 203 0 c)) &&
  (open3 255 255 c || dead_after BLOCKED_IPV4 (quad3 255 255 c)) = true.
Proof. revert c. apply octet_below. vm_compute. reflexivity. Qed.

Lemma quad4_dead (d : Z) :
  is_octet d = true ->
  (d =? 255) || negb (some_test BLOCKED_IPV4 (dotted_quad 255 255 255 d)) = true.
Proof. revert d. apply octet_below. vm_compute. reflexivity. Qed.

Lemma dotted_quad_prefixes (a b c d : Z) :
  dotted_quad a b c d = quad1 a ++ Reference.dec b ++ [46] ++ Reference.dec c ++ [46] ++ Reference.dec d /\
  dotted_quad a b c d = quad2 a b ++ Reference.dec c ++ [46] ++ Reference.dec d /\
  dotted_quad a b c d = quad3 a b c ++ Reference.dec d.
Proof.
  unfold dotted_quad, quad3, quad2, quad1. rewrite <- !app_assoc. auto.
Qed.

Lemma covered_ipv4_false (a b c d : Z) :
  covered_ipv4 a b c d = false ->
  hit1 a = false /\ hit2 a b = false /\ hit3 a b c = false /\
  open3 a b c && (d =? 255) = false.
Proof.
  unfold covered_ipv4, hit1, hit2, hit3, open3. intro H.
  repeat (apply orb_false_iff in H; destruct H as [H ?]).
  repeat split;
    repeat match goal with
           | E : ?x = false |- context [?x] => rewrite E
           end; reflexivity.
Qed.

(** Outside the listed ranges no pattern of [BLOCKED_IPV4] matches. *)
Lemma BLOCKED_IPV4_only (a b c d : Z) :
  is_octet a = true -> is_octet b = true -> is_octet c = true -> is_octet d = true ->
  covered_ipv4 a b c d = false ->
  some_test BLOCKED_IPV4 (dotted_quad a b c d) = false.
Proof.
  intros Ha Hb Hc Hd H.
  apply covered_ipv4_false in H as (H1 & H2 & H3 & H4).
  destruct (dotted_quad_prefixes a b c d) as (E1 & E2 & E3).
  destruct (open1 a) eqn:O1.
  - destruct (open2 a b) eqn:O2.
    + pose proof (quad3_dead c Hc) as Q.
      apply andb_true_iff in Q as [Q Q3]. apply andb_true_iff in Q as [Q1 Q2].
      assert (Cases : (a = 198 /\ b = 51) \/ (a = 203 /\ b = 0) \/ (a = 255 /\ b = 255))
        by (unfold open2 in O2; lia).
      destruct Cases as [[-> ->]|[[-> ->]|[-> ->]]].
      * rewrite H3 in Q1. rewrite E3. apply Prefixes.dead_after_some_test, Q1.
      * rewrite H3 in Q2. rewrite E3. apply Prefixes.dead_after_some_test, Q2.
      * destruct (open3 255 255 c) eqn:O3.
        -- assert (c = 255) by (unfold open3 in O3; lia). subst c.
           pose proof (quad4_dead d Hd) as Q4.
           simpl in H4. rewrite H4 in Q4.
           apply negb_true_iff in Q4. exact Q4.
        -- rewrite E3. apply Prefixes.dead_after_some_test, Q3.
    + pose proof (quad2_dead a b Ha Hb O1) as Q. rewrite O2, H2 in Q.
      rewrite E2. apply Prefixes.dead_after_some_test, Q.
  - pose proof (quad1_dead a Ha) as Q. rewrite O1, H1 in Q.
    rewrite E1. apply Prefixes.dead_after_some_test, Q.
Qed.

Lemma dec_octet_head (x : Z) :
  is_octet x = true ->
  exists h t, Reference.dec x = h :: t /\ is_digit h = true.
Proof.
  intro Hx.
  assert (Q : match Reference.dec x with
              | [] => false
              | h :: _ => is_digit h
              end = true).
  { revert x Hx. apply octet_below. vm_compute. reflexivity. }
  destruct (Reference.dec x) as [|h t]; [discriminate|].
  exists h, t. auto.
Qed.

Lemma dotted_quad_chars (a b c d : Z) :
  is_octet a = true -> is_octet b = true -> is_octet c = true -> is_octet d = true ->
  forallb (fun x => is_digit x || (x =? 46)) (dotted_quad a b c d) = true.
Proof.
  intros Ha Hb Hc Hd. unfold dotted_quad.
  assert (D : forall x, is_octet x = true ->
                forallb (fun x => is_digit x || (x =? 46)) (Reference.dec x) = true).
  { intros x Hx. destruct (dec_octet_digits x Hx) as [_ F]. revert F.
    apply forallb_impl. intros y ->. reflexivity. }
  rewrite !forallb_app, !D by assumption. reflexivity.
Qed.

Context `{SB : StringBuiltins} {SL : StringLaws}.

(** X4. On the host name of an IPv4 address [isBlockedHostname] answers
    exactly by the listed ranges. *)
Theorem isBlockedHostname_dotted_quad_exact (a b c d : Z) :
  is_octet a = true -> is_octet b = true -> is_octet c = true -> is_octet d = true ->
  isBlockedHostname (dotted_quad a b c d) = covered_ipv4 a b c d.
Proof.
  intros Ha Hb Hc Hd.
  destruct (covered_ipv4 a b c d) eqn:H;
    [apply isBlockedHostname_covered; assumption|].
  pose proof (dotted_quad_chars a b c d Ha Hb Hc Hd) as Chars.
  unfold isBlockedHostname.
  rewrite toLowerCase_plain by (apply dotted_quad_plain; assumption).
  cbv zeta.
  assert (N : has BLOCKED_HOSTNAMES (dotted_quad a b c d) = false).
  { destruct (dec_octet_head a Ha) as (h & t & E & Dg).
    unfold has. destruct (existsb _ BLOCKED_HOSTNAMES) eqn:X; [|reflexivity].
    apply existsb_exists in X as (name & I & Q).
    apply str_eqb_eq in Q. unfold dotted_quad in Q. rewrite E in Q.
    unfold BLOCKED_HOSTNAMES in I. simpl in I.
    unfold is_digit in Dg.
    destruct I as [I|[I|[I|[I|[I|[]]]]]]; subst name; simpl in Q;
      injection Q as Q _; lia. }
  rewrite N.
  assert (S : test INTERNAL_SUFFIX_RE (dotted_quad a b c d) = false).
  { destruct (test INTERNAL_SUFFIX_RE (dotted_quad a b c d)) eqn:T; [|reflexivity].
    apply INTERNAL_SUFFIX_RE_words in T as (pre & word & E & I).
    rewrite E, !forallb_app in Chars.
    apply andb_true_iff in Chars as [_ Chars].
    apply andb_true_iff in Chars as [_ Chars].
    unfold INTERNAL_SUFFIXES in I. simpl in I.
    destruct word as [|x word];
      [destruct I as [I|[I|[I|[I|[I|[I|[]]]]]]]; discriminate|].
    simpl in Chars. apply andb_true_iff in Chars as [Cx _].
    unfold is_digit in Cx. unfold ascii_lower, is_upper in I. simpl in I.
    destruct ((65 <=? x) && (x <=? 90)) eqn:U;
      destruct I as [I|[I|[I|[I|[I|[I|[]]]]]]]; injection I as I _; lia. }
  rewrite S, RAW_IPV4_RE_dotted_quad by assumption.
  apply BLOCKED_IPV4_only; assumption.
Qed.

End Quads.

Lemma isBlockedHostname_dotted_quad_exact_witness :
  @isBlockedHostname Reference.strings (lit "172.32.0.1") = false /\
  @isBlockedHostname Reference.strings (lit "172.31.255.254") = true.
Proof.
  split.
  - apply (@isBlockedHostname_dotted_quad_exact
             Reference.strings reference_string_laws 172 32 0 1); reflexivity.
  - apply (@isBlockedHostname_dotted_quad_exact
             Reference.strings reference_string_laws 172 31 255 254); reflexivity.
Defined.

(* ================================================================== *)
(** * Deciding host names: IPv6 addresses *)
(* ================================================================== *)

Section Literals.

Context `{SB : StringBuiltins} {SL : StringLaws}.

Lemma ascii_lower_plain (s : jsstring) :
  forallb is_ascii s = true ->
  forallb (fun c => is_ascii c && negb (is_upper c)) (map ascii_lower s) = true.
Proof.
  intro A. rewrite forallb_forall in *. intros c I.
  apply in_map_iff in I as (x & <- & I). specialize (A x I).
  unfold ascii_lower, is_ascii, is_upper in *. destruct ((65 <=? x) && (x <=? 90)) eqn:U; lia.
Qed.

Lemma includes_colon_lower (s : jsstring) :
  includes (lit ":") s = true -> includes (lit ":") (map ascii_lower s) = true.
Proof.
  intro H. apply includes_infix in H as (pre & post & ->).
  apply includes_infix. exists (map ascii_lower pre), (map ascii_lower post).
  rewrite !map_app. reflexivity.
Qed.

(** A string that ends with a closing bracket does not end with one of the
    internal suffixes. *)
Lemma INTERNAL_SUFFIX_RE_bracket (s : jsstring) :
  test INTERNAL_SUFFIX_RE (s ++ lit "]") = false.
Proof.
  destruct (test INTERNAL_SUFFIX_RE (s ++ lit "]")) eqn:T; [|reflexivity].
  apply INTERNAL_SUFFIX_RE_words in T as (pre & word & E & W).
  assert (R : rev (s ++ lit "]") = rev (pre ++ [46] ++ word))
    by (rewrite E; reflexivity).
  rewrite !rev_app_distr in R. cbn [lit rev app] in R.
  assert (W' : In (map ascii_lower (rev word)) (map (@rev Z) INTERNAL_SUFFIXES))
    by (rewrite map_rev; apply in_map; exact W).
  destruct (rev word) as [|c t]; cbn [app] in R.
  - change (list_ascii_of_string "]") with ["]"%char] in R.
    cbn in R. discriminate.
  - change (list_ascii_of_string "]") with ["]"%char] in R.
    cbn in R. injection R as Hc _. subst c.
    cbn [map] in W'. change (ascii_lower 93) with 93 in W'.
    cbn in W'.
    repeat (destruct W' as [W'|W']; [discriminate|]). destruct W'.
Qed.

(** X5. The IPv6 patterns apply to the bare form of an address.  A name in
    square brackets, the form in which [URL.hostname] shows an IPv6 host,
    is never blocked, whatever ASCII characters stand between the brackets
    (hexadecimal digits of either case, colons, dots); a bare address of
    ASCII characters that holds a colon and starts, in either case, with
    [::], [fc], [fd], [fe80] or [ff] is blocked. *)
Theorem isBlockedHostname_ipv6_bare_only :
  (forall addr : jsstring,
      forallb is_ascii addr = true ->
      isBlockedHostname (lit "[" ++ addr ++ lit "]") = false) /\
  (forall p rest : jsstring,
      In (map ascii_lower p) (map lit [ "::"; "fc"; "fd"; "fe80"; "ff" ]%string) ->
      forallb is_ascii (p ++ rest) = true ->
      includes (lit ":") (p ++ rest) = true ->
      isBlockedHostname (p ++ rest) = true).
Proof.
  split.
  - intros addr A. unfold isBlockedHostname.
    assert (P : forallb is_ascii (lit "[" ++ addr ++ lit "]") = true)
      by (rewrite !forallb_app, A; reflexivity).
    rewrite (toLowerCase_ascii _ P), !map_app.
    change (map ascii_lower (lit "[")) with (lit "[").
    change (map ascii_lower (lit "]")) with (lit "]").
    set (a := map ascii_lower addr). cbv zeta.
    assert (N : has BLOCKED_HOSTNAMES (lit "[" ++ a ++ lit "]") = false)
      by reflexivity.
    rewrite N.
    rewrite (app_assoc (lit "[") a (lit "]")), INTERNAL_SUFFIX_RE_bracket.
    rewrite <- (app_assoc (lit "[") a (lit "]")).
    rewrite (Prefixes.dead_after_test [RAW_IPV4_RE] (lit "[") (a ++ lit "]")
               RAW_IPV4_RE eq_refl (or_introl eq_refl)).
    rewrite (Prefixes.dead_after_some_test BLOCKED_IPV6 (lit "[") (a ++ lit "]")
               eq_refl).
    destruct (includes _ _); reflexivity.
  - intros p rest I A Inc. unfold isBlockedHostname.
    rewrite (toLowerCase_ascii _ A). cbv zeta.
    apply includes_colon_lower in Inc. rewrite map_app in *.
    set (q := map ascii_lower p) in *. set (r := map ascii_lower rest) in *.
    destruct (has BLOCKED_HOSTNAMES (q ++ r)); [reflexivity|].
    destruct (test INTERNAL_SUFFIX_RE (q ++ r)); [reflexivity|].
    assert (R : test RAW_IPV4_RE (q ++ r) = false).
    { apply (Prefixes.dead_after_test [RAW_IPV4_RE] q r RAW_IPV4_RE);
        [|left; reflexivity].
      simpl in I. destruct I as [I|[I|[I|[I|[I|[]]]]]]; rewrite <- I; reflexivity. }
    rewrite R, Inc.
    apply prefix_hit_some_test.
    simpl in I. destruct I as [I|[I|[I|[I|[I|[]]]]]]; rewrite <- I; reflexivity.
Qed.

End Literals.

Lemma isBlockedHostname_ipv6_bare_only_witness :
  @isBlockedHostname Reference.strings (lit "[::ffff:10.0.0.1]") = false /\
  @isBlockedHostname Reference.strings (lit "[FE80::1]") = false /\
  @isBlockedHostname Reference.strings (lit "FE80::1") = true /\
  @isBlockedHostname Reference.strings (lit "::ffff:10.0.0.1") = true.
Proof.
  pose proof (@isBlockedHostname_ipv6_bare_only
                Reference.strings reference_string_laws) as [A B].
  split; [|split; [|split]].
  - apply (A (lit "::ffff:10.0.0.1")). reflexivity.
  - apply (A (lit "FE80::1")). reflexivity.
  - apply (B (lit "FE80") (lit "::1")); [simpl; tauto | reflexivity | reflexivity].
  - apply (B (lit "::") (lit "ffff:10.0.0.1"));
      [simpl; tauto | reflexivity | reflexivity].
Defined.

(* ================================================================== *)
(** * The comparator and the bearer check, exactly *)
(* ================================================================== *)

(** X1. [timingSafeEqual] answers by the UTF-8 encodings of its arguments:
    true exactly when they are the same bytes, whatever the lengths, so that
    it is symmetric and transitive. *)
Theorem timingSafeEqual_compares_encodings :
  (forall a b : jsstring,
      timingSafeEqual a b = true <-> TextEncoder_encode a = TextEncoder_encode b) /\
  (forall a b : jsstring, timingSafeEqual a b = timingSafeEqual b a) /\
  (forall a b c : jsstring,
      timingSafeEqual a b = true -> timingSafeEqual b c = true ->
      timingSafeEqual a c = true).
Proof.
  split; [exact Comparator.timingSafeEqual_encodings|]. split.
  - intros a b.
    destruct (timingSafeEqual a b) eqn:E, (timingSafeEqual b a) eqn:F;
      try reflexivity.
    + apply Comparator.timingSafeEqual_encodings in E. symmetry in E.
      apply Comparator.timingSafeEqual_encodings in E. congruence.
    + apply Comparator.timingSafeEqual_encodings in F. symmetry in F.
      apply Comparator.timingSafeEqual_encodings in F. congruence.
  - intros a b c E F.
    apply Comparator.timingSafeEqual_encodings in E, F.
    apply Comparator.timingSafeEqual_encodings. congruence.
Qed.

Lemma timingSafeEqual_compares_encodings_witness :
  timingSafeEqual [55296] [56320] = true /\
  timingSafeEqual [56320] [65533] = true /\
  timingSafeEqual [55296] [65533] = true.
Proof.
  assert (A : timingSafeEqual [55296] [56320] = true) by reflexivity.
  assert (B : timingSafeEqual [56320] [65533] = true) by reflexivity.
  split; [exact A|]. split; [exact B|].
  exact (proj2 (proj2 timingSafeEqual_compares_encodings) _ _ _ A B).
Defined.

Lemma trim_padded (pre post m : jsstring) (z : Z) :
  forallb is_white pre = true -> forallb is_white post = true ->
  match m with [] => is_white z = false | c :: _ => is_white c = false end ->
  is_white z = false ->
  trim (pre ++ (m ++ [z]) ++ post) = m ++ [z].
Proof.
  intros Hpre Hpost Hhead Hz. unfold trim.
  assert (D : dropWhile is_white (pre ++ (m ++ [z]) ++ post) = (m ++ [z]) ++ post).
  { apply takeWhile_app_stop; [exact Hpre|].
    destruct m; simpl; assumption. }
  rewrite D, rev_app_distr, rev_app_distr. simpl rev. simpl app.
  assert (D2 : dropWhile is_white (rev post ++ z :: rev m) = z :: rev m).
  { apply takeWhile_app_stop; [|exact Hz].
    rewrite forallb_forall in *. intros x Hx. apply Hpost, in_rev, Hx. }
  rewrite D2. simpl. rewrite rev_involutive. reflexivity.
Qed.

(** The two ways [checkAdminAuth] ends: without a comparison, or with the
    comparison of the token with a key of at least 16 code units. *)
Lemma checkAdminAuth_cases (request : Request) (env : Env) :
  (checkAdminAuth request env = (false, []) /\
   ~ exists key token,
       ADMIN_KEY env = Some key /\ (16 <= length key)%nat /\
       trim (or_empty (Authorization request)) = lit "Bearer " ++ token) \/
  exists key token,
    ADMIN_KEY env = Some key /\ (16 <= length key)%nat /\
    trim (or_empty (Authorization request)) = lit "Bearer " ++ token /\
    checkAdminAuth request env
    = (timingSafeEqual token key, [Compare token key]).
Proof.
  unfold checkAdminAuth.
  destruct (ADMIN_KEY env) as [key|] eqn:K.
  2:{ left. split; [reflexivity|]. intros (k & t & A & _). discriminate. }
  destruct ((length key =? 0)%nat || (length key <? 16)%nat) eqn:L.
  { left. split; [reflexivity|]. intros (k & t & A & B & _).
    injection A as <-.
    apply orb_true_iff in L as [L|L];
      [apply Nat.eqb_eq in L | apply Nat.ltb_lt in L]; lia. }
  apply orb_false_iff in L as [_ L]. apply Nat.ltb_ge in L.
  cbv zeta.
  destruct (startsWith (lit "Bearer ") (trim (or_empty (Authorization request))))
    eqn:S; cbn [negb].
  - apply startsWith_prefix in S as (token & S).
    right. exists key, token. rewrite S. repeat split; assumption.
  - left. split; [reflexivity|]. intros (k & t & _ & _ & E).
    rewrite E, startsWith_app in S. discriminate.
Qed.

(** A request that [checkAdminAuth] accepts carries the key. *)
Lemma checkAdminAuth_accepted (request : Request) (env : Env) :
  fst (checkAdminAuth request env) = true ->
  exists key token,
    ADMIN_KEY env = Some key /\ (16 <= length key)%nat /\
    trim (or_empty (Authorization request)) = lit "Bearer " ++ token /\
    TextEncoder_encode token = TextEncoder_encode key.
Proof.
  intro V.
  destruct (checkAdminAuth_cases request env) as [[E _]|(key & token & K & L & T & E)].
  - rewrite E in V. discriminate.
  - rewrite E in V. simpl in V.
    apply Comparator.timingSafeEqual_encodings in V.
    exists key, token. auto.
Qed.

(** X2. What [checkAdminAuth] accepts.  The verdict is true exactly when a key
    of at least 16 code units is configured, the trimmed header is [Bearer ]
    followed by a token, and token and key have the same UTF-8 encoding; the
    comparator is called at most once, on that token and the key.  In
    particular the configured key in a header with white space around it is
    accepted. *)
Theorem checkAdminAuth_exact :
  (forall (request : Request) (env : Env),
      fst (checkAdminAuth request env) = true <->
      exists key token,
        ADMIN_KEY env = Some key /\ (16 <= length key)%nat /\
        trim (or_empty (Authorization request)) = lit "Bearer " ++ token /\
        TextEncoder_encode token = TextEncoder_encode key) /\
  (forall (request : Request) (env : Env),
      snd (checkAdminAuth request env) = [] \/
      exists key token,
        ADMIN_KEY env = Some key /\
        trim (or_empty (Authorization request)) = lit "Bearer " ++ token /\
        snd (checkAdminAuth request env) = [Compare token key]) /\
  (forall (request : Request) (env : Env) (key pre post : jsstring) (z : Z),
      ADMIN_KEY env = Some (key ++ [z]) -> (15 <= length key)%nat ->
      is_white z = false ->
      forallb is_white pre = true -> forallb is_white post = true ->
      Authorization request = Some (pre ++ (lit "Bearer " ++ key ++ [z]) ++ post) ->
      checkAdminAuth request env = (true, [Compare (key ++ [z]) (key ++ [z])])).
Proof.
  pose proof checkAdminAuth_cases as Cases.
  split; [|split].
  - intros request env. split; [apply checkAdminAuth_accepted|].
    intros (key & token & K & L & T & Enc).
    destruct (Cases request env) as [[_ N]|(key' & token' & K' & L' & T' & E)].
    + destruct N. exists key, token. auto.
    + rewrite E. simpl. apply Comparator.timingSafeEqual_encodings.
      rewrite K in K'. injection K' as <-.
      rewrite T in T'. apply app_inv_head in T'. subst token'. exact Enc.
  - intros request env.
    destruct (Cases request env) as [[E _]|(key & token & K & L & T & E)].
    + left. rewrite E. reflexivity.
    + right. exists key, token. rewrite E. auto.
  - intros request env key pre post z K L Hz Hpre Hpost A.
    destruct (Cases request env) as [[_ N]|(key' & token & K' & L' & T & E)].
    + destruct N. exists (key ++ [z]), (key ++ [z]).
      split; [exact K|]. split; [rewrite length_app; simpl; lia|].
      rewrite A. cbn [or_empty].
      rewrite (app_assoc (lit "Bearer ") key [z]).
      apply trim_padded; try assumption. reflexivity.
    + rewrite E. rewrite K in K'. injection K' as <-.
      rewrite A in T. cbn [or_empty] in T.
      rewrite (app_assoc (lit "Bearer ") key [z]) in T.
      rewrite trim_padded in T by (try assumption; reflexivity).
      rewrite <- app_assoc in T. apply app_inv_head in T. subst token.
      replace (timingSafeEqual (key ++ [z]) (key ++ [z])) with true; [reflexivity|].
      symmetry. apply Comparator.timingSafeEqual_encodings. reflexivity.
Qed.

Lemma checkAdminAuth_exact_witness :
  checkAdminAuth
    {| Authorization := Some (lit "  Bearer s3cr3t-admin-key-001 ");
       ContentType := None; ContentLength := None; requestBody := None |}
    {| ADMIN_KEY := Some (lit "s3cr3t-admin-key-001") |}
  = (true, [Compare (lit "s3cr3t-admin-key-001") (lit "s3cr3t-admin-key-001")]).
Proof.
  apply (proj2 (proj2 checkAdminAuth_exact) _ _
           (lit "s3cr3t-admin-key-00") (lit "  ") (lit " ") 49);
    try reflexivity.
  simpl. lia.
Defined.

(* ================================================================== *)
(** * The slug policies, exactly *)
(* ================================================================== *)

Section SlugPolicies.

Context `{SB : StringBuiltins}.

(** [LOOKUP_RE] accepts the non-empty strings of slug characters. *)
Lemma LOOKUP_RE_chars (s : jsstring) :
  test LOOKUP_RE s = true <-> forallb is_slug_char s = true /\ s <> [].
Proof.
  unfold LOOKUP_RE, plus. rewrite RegExpFacts.test_whole. split.
  - intro M. apply RegExpFacts.matches_cat_inv in M as (s1 & s2 & -> & M1 & M2).
    apply RegExpFacts.matches_cls_inv in M1 as (c & -> & Hc).
    apply RegExpFacts.matches_star_cls in M2.
    rewrite forallb_slug_class in M2. rewrite slug_class in Hc.
    simpl. rewrite Hc, M2. split; [reflexivity | discriminate].
  - intros [F N]. destruct s as [|h t]; [destruct N; reflexivity|].
    simpl in F. apply andb_true_iff in F as [Fh Ft].
    change (h :: t) with ([h] ++ t). constructor.
    + constructor. rewrite slug_class. exact Fh.
    + apply RegExpFacts.matches_star_cls. rewrite forallb_slug_class. exact Ft.
Qed.

(** The results of [validateCustomSlug] on a string. *)
Lemma validateCustomSlug_iff (raw slug : jsstring) :
  validateCustomSlug (JString raw) = Ok slug <->
  slug = cleanCustomSlug raw /\ slug_shape slug /\ has RESERVED_SLUGS slug = false.
Proof.
  unfold validateCustomSlug. set (s := cleanCustomSlug raw). split.
  - destruct (length s <? 2)%nat; [discriminate|].
    destruct (32 <? length s)%nat; [discriminate|].
    destruct (test SLUG_RE s) eqn:T; cbn [negb]; [|discriminate].
    destruct (has RESERVED_SLUGS s) eqn:R; [discriminate|].
    destruct (includes (lit "..") s || includes (lit "/") s || includes [92] s);
      [discriminate|].
    intro E. injection E as <-. apply SLUG_RE_shape in T. auto.
  - intros (-> & Sh & R).
    destruct (slug_shape_chars Sh) as [F L].
    replace (length s <? 2)%nat with false by (symmetry; apply Nat.ltb_ge; lia).
    replace (32 <? length s)%nat with false by (symmetry; apply Nat.ltb_ge; lia).
    rewrite (proj2 (SLUG_RE_shape s) Sh), R. cbn [negb].
    change (lit "..") with (46 :: [46]). change (lit "/") with (47 :: []).
    rewrite !(@slug_chars_exclude s _ _ F) by reflexivity. reflexivity.
Qed.

(** The results of [validateLookupSlug] on a string. *)
Lemma validateLookupSlug_iff (raw : jsstring) :
  (forall slug,
      validateLookupSlug (JString raw) = Ok slug <->
      slug = cleanLookupSlug raw /\ forallb is_slug_char slug = true /\
      (1 <= length slug <= 64)%nat) /\
  validateLookupSlug (JString raw) <> Err LookupTraversal.
Proof.
  unfold validateLookupSlug. set (s := cleanLookupSlug raw).
  destruct ((length s <? 1)%nat || (64 <? length s)%nat) eqn:L.
  { split; [|discriminate]. intro slug. split; [discriminate|].
    intros (-> & _ & B).
    apply orb_true_iff in L as [L|L]; apply Nat.ltb_lt in L; lia. }
  apply orb_false_iff in L as [L1 L2]. apply Nat.ltb_ge in L1, L2.
  destruct (test LOOKUP_RE s) eqn:T; cbn [negb].
  - apply LOOKUP_RE_chars in T as [F _].
    change (lit "..") with (46 :: [46]).
    rewrite (@slug_chars_exclude s _ _ F) by reflexivity.
    split; [|discriminate]. intro slug. split.
    + intro E. injection E as <-. auto.
    + intros (-> & _). reflexivity.
  - split; [|discriminate]. intro slug. split; [discriminate|].
    intros (-> & F & B).
    assert (X : test LOOKUP_RE s = true).
    { apply LOOKUP_RE_chars. split; [exact F|].
      destruct s; [simpl in B; lia | discriminate]. }
    rewrite X in T. discriminate.
Qed.

(** X10. What [validateCustomSlug] accepts, exactly: the prepared input
    (stripped, trimmed, lower-cased, then NFKC-normalised) when it has the
    slug pattern and is not a reserved word. *)
Theorem validateCustomSlug_exact (raw slug : jsstring) :
  validateCustomSlug (JString raw) = Ok slug <->
  slug = cleanCustomSlug raw /\ slug_shape slug /\ has RESERVED_SLUGS slug = false.
Proof. exact (validateCustomSlug_iff raw slug). Qed.

(** X13. What [validateLookupSlug] accepts, exactly: the prepared input
    (stripped, trimmed and lower-cased; this validator does not normalise)
    when it is 1 to 64 slug characters.  The check for two dots in a row
    comes after the character check and never fails. *)
Theorem validateLookupSlug_exact (raw : jsstring) :
  (forall slug,
      validateLookupSlug (JString raw) = Ok slug <->
      slug = cleanLookupSlug raw /\ forallb is_slug_char slug = true /\
      (1 <= length slug <= 64)%nat) /\
  validateLookupSlug (JString raw) <> Err LookupTraversal.
Proof. exact (validateLookupSlug_iff raw). Qed.

(** The reserved words that have the slug pattern, and those that do not. *)
Lemma RESERVED_SLUGS_shapes :
  forallb (fun w => if test SLUG_RE w then true
                    else has (map lit [ "_headers"; "_redirects"; "_routes";
                                        ".env"; ".git" ]%string) w)
          RESERVED_SLUGS = true.
Proof. vm_compute. reflexivity. Qed.

(** X11. The reserved failure is reported for a reserved word that has the
    slug pattern; the entries [_headers], [_redirects], [_routes], [.env]
    and [.git] of the list do not have it and are never reported. *)
Theorem validateCustomSlug_reserved (raw : jsvalue) (slug : jsstring) :
  validateCustomSlug raw = Err (SlugReserved slug) ->
  In slug RESERVED_SLUGS /\ slug_shape slug /\
  ~ In slug (map lit [ "_headers"; "_redirects"; "_routes"; ".env"; ".git" ]%string).
Proof.
  unfold validateCustomSlug. destruct raw as [raw|]; [|discriminate].
  set (s := cleanCustomSlug raw).
  destruct (length s <? 2)%nat; [discriminate|].
  destruct (32 <? length s)%nat; [discriminate|].
  destruct (test SLUG_RE s) eqn:T; cbn [negb]; [|discriminate].
  destruct (has RESERVED_SLUGS s) eqn:R.
  - intro E. injection E as <-.
    apply existsb_exists in R as (w & I & Q). apply str_eqb_eq in Q. subst w.
    split; [exact I|]. split; [apply SLUG_RE_shape, T|].
    intro I5. simpl in I5.
    destruct I5 as [I5|[I5|[I5|[I5|[I5|[]]]]]]; rewrite <- I5 in T; discriminate.
  - destruct (includes (lit "..") s || includes (lit "/") s || includes [92] s);
      discriminate.
Qed.

Context {SL : StringLaws}.

Lemma cleanCustomSlug_fixed (s : jsstring) :
  forallb (fun c => is_graphic c && negb (is_upper c)) s = true ->
  cleanCustomSlug s = s.
Proof.
  intro H. unfold cleanCustomSlug.
  assert (G : forallb is_graphic s = true).
  { revert H. apply forallb_impl. intros c Hc. apply andb_true_iff in Hc. tauto. }
  assert (A : forallb is_ascii s = true).
  { revert G. apply forallb_impl. exact graphic_ascii. }
  rewrite stripControlChars_fixed by exact G.
  rewrite trim_fixed.
  - rewrite toLowerCase_plain.
    + apply normalizeNFKC_ascii, A.
    + revert H. apply forallb_impl. intros c Hc.
      apply andb_true_iff in Hc as [Hg Hu]. rewrite (graphic_ascii c Hg), Hu.
      reflexivity.
  - revert G. apply forallb_impl. intros c Hc.
    rewrite (graphic_not_white c Hc). reflexivity.
Qed.

Lemma slug_chars_fixed (s : jsstring) :
  forallb is_slug_char s = true -> cleanCustomSlug s = s.
Proof.
  intro F. apply cleanCustomSlug_fixed. revert F. apply forallb_impl.
  intros c Hc. destruct (slug_char_plain c Hc) as [G U]. rewrite G, U. reflexivity.
Qed.

(** X14. Both slug validators return their own results unchanged: a slug that
    one of them returns is accepted again by it, as the same slug. *)
Theorem slug_validators_idempotent :
  (forall (raw : jsvalue) (slug : jsstring),
      validateCustomSlug raw = Ok slug ->
      validateCustomSlug (JString slug) = Ok slug) /\
  (forall (raw : jsvalue) (slug : jsstring),
      validateLookupSlug raw = Ok slug ->
      validateLookupSlug (JString slug) = Ok slug).
Proof.
  split; intros raw slug H.
  - destruct raw as [raw|]; [|discriminate].
    apply validateCustomSlug_iff in H as (E & Sh & R).
    apply validateCustomSlug_iff.
    destruct (slug_shape_chars Sh) as [F _].
    rewrite (slug_chars_fixed slug F). auto.
  - destruct raw as [raw|]; [|discriminate].
    apply (proj1 (validateLookupSlug_iff raw)) in H as (E & F & L).
    apply validateLookupSlug_accepts; assumption.
Qed.

(** X12. A reserved word typed as a custom slug is refused: with the reserved
    failure when it has the slug pattern, with the format failure
    otherwise. *)
Theorem validateCustomSlug_refuses_reserved (w : jsstring) :
  In w RESERVED_SLUGS ->
  validateCustomSlug (JString w)
  = if test SLUG_RE w then Err (SlugReserved w) else Err SlugBadFormat.
Proof.
  intro I.
  assert (P : forallb (fun w => forallb (fun c => is_graphic c && negb (is_upper c)) w
                                && (2 <=? length w)%nat && (length w <=? 32)%nat)
                      RESERVED_SLUGS = true) by (vm_compute; reflexivity).
  rewrite forallb_forall in P. specialize (P w I).
  apply andb_true_iff in P as [P L2]. apply andb_true_iff in P as [P L1].
  apply Nat.leb_le in L1, L2.
  unfold validateCustomSlug. rewrite (cleanCustomSlug_fixed w P).
  replace (length w <? 2)%nat with false by (symmetry; apply Nat.ltb_ge; lia).
  replace (32 <? length w)%nat with false by (symmetry; apply Nat.ltb_ge; lia).
  destruct (test SLUG_RE w); cbn [negb]; [|reflexivity].
  replace (has RESERVED_SLUGS w) with true; [reflexivity|].
  symmetry. apply existsb_exists. exists w. split; [exact I | apply str_eqb_refl].
Qed.

End SlugPolicies.

Lemma validateCustomSlug_reserved_witness :
  In (lit "admin") RESERVED_SLUGS /\ slug_shape (lit "admin") /\
  ~ In (lit "admin")
       (map lit [ "_headers"; "_redirects"; "_routes"; ".env"; ".git" ]%string).
Proof.
  apply (@validateCustomSlug_reserved Reference.strings (JString (lit " Admin "))).
  reflexivity.
Defined.

Lemma slug_validators_idempotent_witness :
  @validateCustomSlug Reference.strings (JString (lit "my-link_1")) = Ok (lit "my-link_1") /\
  @validateLookupSlug Reference.strings (JString (lit "-x-")) = Ok (lit "-x-").
Proof.
  pose proof (@slug_validators_idempotent Reference.strings reference_string_laws)
    as [A B].
  split.
  - apply (A (JString (lit " My-Link_1 "))). reflexivity.
  - apply (B (JString (lit " -X- "))). reflexivity.
Defined.

Lemma validateCustomSlug_refuses_reserved_witness :
  @validateCustomSlug Reference.strings (JString (lit ".env")) = Err SlugBadFormat /\
  @validateCustomSlug Reference.strings (JString (lit "wp-admin"))
  = Err (SlugReserved (lit "wp-admin")).
Proof.
  split.
  - apply (@validateCustomSlug_refuses_reserved
             Reference.strings reference_string_laws (lit ".env")).
    simpl. tauto.
  - apply (@validateCustomSlug_refuses_reserved
             Reference.strings reference_string_laws (lit "wp-admin")).
    simpl. tauto.
Defined.

(* ================================================================== *)
(** * Generated codes *)
(* ================================================================== *)

Section Codes.

Context `{SB : StringBuiltins} {SL : StringLaws}.

Lemma char_index_CHARS (c : Z) :
  is_lower_alnum c = true ->
  0 <= char_index c < 36 /\
  nth_error CHARS (Z.to_nat (char_index c mod Z.of_nat (length CHARS))) = Some c.
Proof.
  intro H.
  assert (R : 0 <= c < Z.of_nat 128)
    by (unfold is_lower_alnum, is_lower, is_digit in H; lia).
  assert (Q : forall x, 0 <= x < Z.of_nat 128 ->
               (if is_lower_alnum x
                then (0 <=? char_index x) && (char_index x <? 36) &&
                     match nth_error CHARS
                             (Z.to_nat (char_index x mod Z.of_nat (length CHARS))) with
                     | Some c' => c' =? x
                     | None => false
                     end
                else true) = true).
  { apply forall_below. vm_compute. reflexivity. }
  specialize (Q c R).
  rewrite H in Q. apply andb_true_iff in Q as [Q N].
  split; [lia|].
  destruct (nth_error CHARS _) as [c'|]; [|discriminate].
  apply Z.eqb_eq in N. subst c'. reflexivity.
Qed.

Lemma generateCode_onto (code : jsstring) :
  forallb is_lower_alnum code = true ->
  exists array,
    is_bytes array = true /\ length array = length code /\
    generateCode array = code.
Proof.
  intros H. exists (map char_index code).
  split; [|split; [apply length_map|]].
  - unfold is_bytes. rewrite forallb_forall. intros b I.
    apply in_map_iff in I as (c & <- & I).
    rewrite forallb_forall in H.
    destruct (char_index_CHARS c (H c I)) as [R _]. lia.
  - induction code as [|c code IH]; [reflexivity|].
    simpl in H. apply andb_true_iff in H as [Hc H].
    unfold generateCode in *. cbn [map flat_map].
    rewrite (proj2 (char_index_CHARS c Hc)), (IH H). reflexivity.
Qed.

Lemma lower_alnum_slug_chars (s : jsstring) :
  forallb is_lower_alnum s = true -> forallb is_slug_char s = true.
Proof.
  apply forallb_impl. intros c Hc.
  unfold is_slug_char, is_lower_alnum in *. rewrite Hc. reflexivity.
Qed.

(** X18. [generateCode] can give every string of lower-case letters and digits
    of the length asked for, and gives nothing else; a code of 2 to 32
    characters has the slug pattern, so that [validateCustomSlug] accepts it
    unless it is a reserved word. *)
Theorem generateCode_range :
  (forall code : jsstring,
      forallb is_lower_alnum code = true ->
      exists array,
        is_bytes array = true /\ length array = length code /\
        generateCode array = code) /\
  (forall array : list Z,
      forallb is_lower_alnum (generateCode array) = true /\
      length (generateCode array) = length array) /\
  (forall array : list Z,
      (2 <= length array <= 32)%nat ->
      validateCustomSlug (JString (generateCode array))
      = if has RESERVED_SLUGS (generateCode array)
        then Err (SlugReserved (generateCode array))
        else Ok (generateCode array)).
Proof.
  split; [exact generateCode_onto|]. split; [exact generateCode_shape|].
  intros array L. destruct (generateCode_shape array) as [F E].
  set (code := generateCode array) in *.
  assert (Sh : slug_shape code).
  { destruct code as [|h t]; [simpl in E; lia|].
    simpl in F. apply andb_true_iff in F as [Fh Ft].
    exists h, t. split; [reflexivity|]. split; [exact Fh|]. split.
    - apply lower_alnum_slug_chars, Ft.
    - simpl in E. lia. }
  destruct (slug_shape_chars Sh) as [Fs _].
  destruct (has RESERVED_SLUGS code) eqn:R.
  - unfold validateCustomSlug. rewrite (slug_chars_fixed code Fs).
    replace (length code <? 2)%nat with false by (symmetry; apply Nat.ltb_ge; lia).
    replace (32 <? length code)%nat with false by (symmetry; apply Nat.ltb_ge; lia).
    rewrite (proj2 (SLUG_RE_shape code) Sh), R. reflexivity.
  - apply validateCustomSlug_iff. rewrite (slug_chars_fixed code Fs). auto.
Qed.

End Codes.

Lemma generateCode_range_witness :
  (exists array,
      is_bytes array = true /\ length array = length (lit "ping") /\
      generateCode array = lit "ping") /\
  @validateCustomSlug Reference.strings (JString (generateCode [15; 8; 13; 6]))
  = Err (SlugReserved (lit "ping")) /\
  @validateCustomSlug Reference.strings (JString (generateCode [7; 200; 35; 36]))
  = Ok (lit "hu9a").
Proof.
  pose proof (@generateCode_range Reference.strings reference_string_laws)
    as (A & _ & C).
  split; [apply A; reflexivity|]. split.
  - apply (C [15; 8; 13; 6]). simpl. lia.
  - apply (C [7; 200; 35; 36]). simpl. lia.
Defined.

(* ================================================================== *)
(** * What URL validation accepts *)
(* ================================================================== *)

Section UrlFacts.

Context `{SB : StringBuiltins} `{UB : URLBuiltin}.

(** The host of a URL that passes the checks on the parsed URL. *)
Lemma checkParsed_host (p : URL) (u : jsstring) :
  checkParsed p = Ok u ->
  hostname p <> [] /\
  test RAW_IPV4_RE (hostname p) || includes (lit ":") (hostname p)
    || includes (lit ".") (hostname p) = true /\
  isBlockedHostname (hostname p) = false.
Proof.
  unfold checkParsed.
  destruct (negb (str_eqb (protocol p) (lit "http:")) &&
            negb (str_eqb (protocol p) (lit "https:"))); [discriminate|].
  destruct (truthy (username p) || truthy (password p)); [discriminate|].
  cbv zeta.
  destruct (truthy (hostname p)) eqn:T; cbn [negb]; [|discriminate].
  destruct (test RAW_IPV4_RE (hostname p) || includes (lit ":") (hostname p)) eqn:R;
    cbn [negb andb orb].
  - destruct (isBlockedHostname (hostname p)); [discriminate|].
    intros _. split; [|auto]. intro E. rewrite E in T. discriminate.
  - destruct (includes (lit ".") (hostname p)) eqn:D; cbn [negb]; [|discriminate].
    destruct (isBlockedHostname (hostname p)); [discriminate|].
    intros _. split; [|auto]. intro E. rewrite E in T. discriminate.
Qed.

Lemma dropWhile_all (p : Z -> bool) (s : jsstring) :
  forallb p s = true -> dropWhile p s = [].
Proof.
  induction s as [|c s IH]; simpl; [reflexivity|].
  intro H. apply andb_true_iff in H as [Hc H]. rewrite Hc. apply IH, H.
Qed.

Context {SL : StringLaws}.

(** X6. An input made of characters that the sanitizer removes and of white
    space is refused as empty. *)
Theorem validateUrl_blank_is_empty (raw : jsstring) :
  forallb (fun c => spec_removed c || is_white c) raw = true ->
  validateUrl (JString raw) = Err UrlEmpty.
Proof.
  intro H. unfold validateUrl, cleanUrlInput.
  assert (W : forallb is_white (stripControlChars raw) = true).
  { unfold stripControlChars, remove_class. rewrite forallb_forall.
    intros c I. apply filter_In in I as [I K].
    rewrite forallb_forall in H. specialize (H c I).
    rewrite control_class_spec in K.
    destruct (spec_removed c); [discriminate | exact H]. }
  unfold trim. rewrite (dropWhile_all _ _ W). simpl.
  rewrite normalizeNFKC_ascii by reflexivity. reflexivity.
Qed.

Context {UL : URLLaws}.

(** What holds of an accepted URL. *)
Lemma validateUrl_accepted_facts (s u : jsstring) :
  validateUrl (JString s) = Ok u ->
  exists p,
    URL_new (cleanUrlInput s) = Some p /\ u = URL_toString p /\
    is_web p /\ username p = [] /\ password p = [] /\
    hostname p <> [] /\
    test RAW_IPV4_RE (hostname p) || includes (lit ":") (hostname p)
      || includes (lit ".") (hostname p) = true /\
    isBlockedHostname (hostname p) = false /\
    (1 <= length (cleanUrlInput s) <= 2048)%nat /\
    exists group,
      schemeMatch (cleanUrlInput s) = Some group /\
      (toLowerCase group = lit "http" \/ toLowerCase group = lit "https").
Proof.
  intros H. unfold validateUrl in H.
  destruct (length (cleanUrlInput s) =? 0)%nat eqn:L0; [discriminate|].
  destruct (2048 <? length (cleanUrlInput s))%nat eqn:L1; [discriminate|].
  apply Nat.eqb_neq in L0. apply Nat.ltb_ge in L1.
  destruct (schemeMatch (cleanUrlInput s)) as [group|]; [|discriminate].
  cbv zeta in H.
  destruct (negb (str_eqb (toLowerCase group) (lit "http")) &&
            negb (str_eqb (toLowerCase group) (lit "https"))) eqn:G;
    [discriminate|].
  destruct (URL_new (cleanUrlInput s)) as [p|] eqn:N; [|discriminate].
  destruct (@checkParsed_ok _ _ _ _ _ p _ N H) as (Web & Eu & Ew & ->).
  destruct (checkParsed_host p _ H) as (Hn & Hd & Hb).
  exists p. repeat split; auto; try lia.
  exists group. split; [reflexivity|].
  apply andb_false_iff in G as [G|G]; apply negb_false_iff, str_eqb_eq in G; auto.
Qed.

(** X7. What [validateUrl] returns.  The prepared form of an accepted input
    (stripped, trimmed, then NFKC-normalised) has 1 to 2048 code units and
    starts with the scheme [http] or [https], in any letter case, a colon
    and two slashes; the URL class parsed it to an [http:] or [https:] URL
    without credentials whose host is not empty, has a dot or the form of an
    address, and is not blocked; and the result is the serialisation of that
    URL, the assignments that the code makes before serialising changing
    nothing. *)
Theorem validateUrl_accepted (s u : jsstring) :
  validateUrl (JString s) = Ok u ->
  exists p,
    URL_new (cleanUrlInput s) = Some p /\ u = URL_toString p /\
    is_web p /\ username p = [] /\ password p = [] /\
    hostname p <> [] /\
    test RAW_IPV4_RE (hostname p) || includes (lit ":") (hostname p)
      || includes (lit ".") (hostname p) = true /\
    isBlockedHostname (hostname p) = false /\
    (1 <= length (cleanUrlInput s) <= 2048)%nat /\
    exists group,
      schemeMatch (cleanUrlInput s) = Some group /\
      (toLowerCase group = lit "http" \/ toLowerCase group = lit "https").
Proof. exact (validateUrl_accepted_facts s u). Qed.

End UrlFacts.

(* ================================================================== *)
(** * The reference URL class and its schemes *)
(* ================================================================== *)

(* ------------------------------------------------------------------ *)

Lemma dropWhile_app_stop (p : Z -> bool) (a b : jsstring) :
  match b with [] => False | c :: _ => p c = false end ->
  dropWhile p (a ++ b) = dropWhile p a ++ b.
Proof.
  intro Hb. induction a as [|x a IH]; simpl.
  - destruct b as [|c b]; [destruct Hb|]. simpl. rewrite Hb. reflexivity.
  - destruct (p x); [exact IH | reflexivity].
Qed.

#[export] Instance reference_scheme_laws : @URLSchemeLaws Reference.urls.
Proof.
  split; cbn [URL URL_new protocol hostname Reference.urls].
  - intros s g p M N.
    apply schemeMatch_group in M as (first & more & rest & Eg & Es & Hf & Hm).
    assert (Hg : forallb (cls_test true SCHEME_CLASS) g = true).
    { subst g. simpl. rewrite Hm, andb_true_r.
      revert Hf. unfold cls_test, in_ranges, swap_case, is_upper, is_lower,
        SCHEME_CLASS. simpl.
      destruct ((65 <=? first) && (first <=? 90)) eqn:U;
        destruct ((97 <=? first) && (first <=? 122)) eqn:L; lia. }
    assert (Colon : forall c, cls_test true SCHEME_CLASS c = true ->
                      Reference.not_in [58] c = true /\
                      Reference.is_c0_or_space c = false /\
                      (Reference.lower_unit c = ascii_lower c)).
    { intros c. unfold cls_test, in_ranges, swap_case, is_upper, is_lower,
        SCHEME_CLASS, Reference.not_in, Reference.one_of,
        Reference.is_c0_or_space, Reference.lower_unit, ascii_lower, is_upper.
      simpl.
      destruct ((65 <=? c) && (c <=? 90)) eqn:U;
        destruct ((97 <=? c) && (c <=? 122)) eqn:L;
        destruct ((65313 <=? c) && (c <=? 65338)) eqn:F; lia. }
    unfold Reference.parse in N.
    set (s' := Reference.strip_c0_space s) in N.
    assert (E' : exists rest', s' = g ++ lit "://" ++ rest').
    { unfold s', Reference.strip_c0_space.
      assert (D0 : dropWhile Reference.is_c0_or_space s = s).
      { apply dropWhile_none. rewrite Es, Eg. simpl.
        rewrite Eg in Hg. simpl in Hg. apply andb_true_iff in Hg as [Hg _].
        apply Colon, Hg. }
      rewrite D0, Es.
      replace (g ++ lit "://" ++ rest) with ((g ++ lit "://") ++ rest)
        by (rewrite <- app_assoc; reflexivity).
      rewrite rev_app_distr.
      rewrite dropWhile_app_stop
        by (rewrite rev_app_distr; reflexivity).
      rewrite rev_app_distr, rev_involutive, <- app_assoc.
      eexists. reflexivity. }
    destruct E' as (rest' & E').
    assert (Tk : takeWhile (Reference.not_in [58]) s' = g).
    { rewrite E'. apply takeWhile_app_stop; [|reflexivity].
      revert Hg. apply forallb_impl. intros c Hc. apply Colon, Hc. }
    assert (Lw : map Reference.lower_unit g = map ascii_lower g).
    { clear - Hg Colon. induction g as [|c g IH]; [reflexivity|].
      simpl in Hg. apply andb_true_iff in Hg as [Hc Hg].
      simpl. rewrite (IH Hg). destruct (Colon c Hc) as (_ & _ & ->). reflexivity. }
    destruct (negb (forallb Reference.url_char s')); [discriminate|].
    assert (Sch : exists r, Reference.scheme_prefix s' = Some (map ascii_lower g, r)).
    { unfold Reference.scheme_prefix.
      destruct (str_eqb (map Reference.lower_unit (firstn 7 s')) (lit "http://")) eqn:A.
      - apply str_eqb_eq in A. eexists. f_equal. f_equal.
        rewrite <- Lw, <- Tk.
        destruct s' as [|x1 [|x2 [|x3 [|x4 [|x5 [|x6 [|x7 r]]]]]]]; try discriminate.
        simpl in A. injection A as A1 A2 A3 A4 A5 A6 A7.
        assert (Q : forall x y, Reference.lower_unit x = y -> 97 <= y <= 122 ->
                      Reference.not_in [58] x = true).
        { intros x y. unfold Reference.lower_unit, Reference.not_in,
            Reference.one_of, is_upper. simpl.
          destruct ((65 <=? x) && (x <=? 90)) eqn:U;
            destruct ((65313 <=? x) && (x <=? 65338)) eqn:F; lia. }
        assert (X5 : x5 = 58).
        { revert A5. unfold Reference.lower_unit, is_upper.
          destruct ((65 <=? x5) && (x5 <=? 90)) eqn:U;
            destruct ((65313 <=? x5) && (x5 <=? 65338)) eqn:F; lia. }
        subst x5. cbn [takeWhile].
        rewrite (Q x1 _ A1), (Q x2 _ A2), (Q x3 _ A3), (Q x4 _ A4) by lia.
        simpl. rewrite A1, A2, A3, A4. reflexivity.
      - destruct (str_eqb (map Reference.lower_unit (firstn 8 s')) (lit "https://")) eqn:B.
        + apply str_eqb_eq in B. eexists. f_equal. f_equal.
          rewrite <- Lw, <- Tk.
          destruct s' as [|x1 [|x2 [|x3 [|x4 [|x5 [|x6 [|x7 [|x8 r]]]]]]]];
            try discriminate.
          simpl in B. injection B as B1 B2 B3 B4 B5 B6 B7 B8.
          assert (Q : forall x y, Reference.lower_unit x = y -> 97 <= y <= 122 ->
                        Reference.not_in [58] x = true).
          { intros x y. unfold Reference.lower_unit, Reference.not_in,
              Reference.one_of, is_upper. simpl.
            destruct ((65 <=? x) && (x <=? 90)) eqn:U;
              destruct ((65313 <=? x) && (x <=? 65338)) eqn:F; lia. }
          assert (X6 : x6 = 58).
          { revert B6. unfold Reference.lower_unit, is_upper.
            destruct ((65 <=? x6) && (x6 <=? 90)) eqn:U;
              destruct ((65313 <=? x6) && (x6 <=? 65338)) eqn:F; lia. }
          subst x6. cbn [takeWhile].
          rewrite (Q x1 _ B1), (Q x2 _ B2), (Q x3 _ B3), (Q x4 _ B4), (Q x5 _ B5) by lia.
          simpl. rewrite B1, B2, B3, B4, B5. reflexivity.
        + exfalso. unfold Reference.scheme_prefix in N.
          rewrite A, B in N. discriminate. }
    destruct Sch as (r & Sch). rewrite Sch in N.
    destruct (Reference.split_authority _) as [[[user pass] hp]|]; [|discriminate].
    destruct (Reference.split_hostport _ hp) as [[host port_]|]; [|discriminate].
    destruct (Reference.split_tail _) as [[path query] fragment].
    destruct (Reference.plain_path path); [|discriminate].
    injection N as <-. reflexivity.
  - intros s p N _. apply ReferenceFacts.parse_canonical in N.
    destruct N as [_ Ch _ _ _ _ _ _].
    apply ReferenceFacts.host_parse_cases in Ch. tauto.
Qed.

(* ================================================================== *)
(** * What URL validation refuses *)
(* ================================================================== *)

Section UrlGuards.

Context `{SB : StringBuiltins} `{UB : URLBuiltin}.
Context {SL : StringLaws} {UL : URLLaws}.

Lemma plain_lower (s : jsstring) :
  forallb (fun c => is_ascii c && negb (is_upper c)) s = true ->
  forallb is_ascii s = true /\ map ascii_lower s = s.
Proof.
  intro H. split.
  - revert H. apply forallb_impl. intros c Hc. apply andb_true_iff in Hc. tauto.
  - apply map_fixed with (p := fun c => is_ascii c && negb (is_upper c)); [|exact H].
    intros c Hc. apply andb_true_iff in Hc as [_ Hc]. apply negb_true_iff in Hc.
    unfold ascii_lower. rewrite Hc. reflexivity.
Qed.

(** X8. No URL is accepted whose host, as the parser shows it, is one of the
    blocked names, ends with one of the internal suffixes, or is an IPv4
    address of the listed ranges (240.0.0.0/4 taken as 240.0.0.0/8). *)
Theorem validateUrl_refuses_blocked_hosts (s : jsstring) (p : URL) :
  URL_new (cleanUrlInput s) = Some p ->
  In (hostname p) BLOCKED_HOSTNAMES \/
  (exists pre word,
      hostname p = pre ++ [46] ++ word /\ In word INTERNAL_SUFFIXES) \/
  (exists a b c d,
      hostname p = dotted_quad a b c d /\
      is_octet a = true /\ is_octet b = true /\
      is_octet c = true /\ is_octet d = true /\
      covered_ipv4 a b c d = true) ->
  is_ok (validateUrl (JString s)) = false.
Proof.
  intros N Host. destruct (validateUrl (JString s)) as [u|e] eqn:V; [|reflexivity].
  exfalso.
  apply validateUrl_accepted_facts in V
    as (p' & N' & _ & Web & _ & _ & _ & _ & Hb & _).
  rewrite N in N'. injection N' as <-.
  pose proof (@hostname_lower UB UL _ p N Web) as Low.
  destruct (plain_lower _ Low) as [A Fix].
  destruct Host as [I|[(pre & word & E & I)|(a & b & c & d & E & Ha & Hc & Hd & He & Cov)]].
  - rewrite isBlockedHostname_name in Hb; [discriminate | exact A |].
    rewrite Fix. exact I.
  - rewrite E in Hb, A. rewrite isBlockedHostname_suffix in Hb;
      [discriminate | exact A |].
    unfold INTERNAL_SUFFIXES in *. simpl in I.
    destruct I as [I|[I|[I|[I|[I|[I|[]]]]]]]; subst word; simpl; tauto.
  - rewrite E, isBlockedHostname_covered in Hb; [discriminate | assumption..].
Qed.

Context {USL : URLSchemeLaws}.

Lemma scheme_class_ascii (c : Z) :
  cls_test true SCHEME_CLASS c = true -> is_ascii c = true.
Proof.
  unfold cls_test, in_ranges, swap_case, is_upper, is_lower, SCHEME_CLASS, is_ascii.
  simpl.
  destruct ((65 <=? c) && (c <=? 90)) eqn:U;
    destruct ((97 <=? c) && (c <=? 122)) eqn:L; lia.
Qed.

(** X9. Two failures of [validateUrl] never occur.  After the scheme check
    the parsed URL is an [http:] or [https:] one, and such a URL has a host:
    the protocol check and the empty-host check on the parsed URL cannot
    fail. *)
Theorem validateUrl_dead_branches (raw : jsvalue) :
  validateUrl raw <> Err UrlProtocolNotAllowed /\
  validateUrl raw <> Err UrlHostMissing.
Proof.
  unfold validateUrl. destruct raw as [raw|]; [|split; discriminate].
  cbv zeta. set (s := cleanUrlInput raw).
  destruct (length s =? 0)%nat; [split; discriminate|].
  destruct (2048 <? length s)%nat; [split; discriminate|].
  destruct (schemeMatch s) as [g|] eqn:M; [|split; discriminate].
  destruct (negb (str_eqb (toLowerCase g) (lit "http")) &&
            negb (str_eqb (toLowerCase g) (lit "https"))) eqn:W;
    [split; discriminate|].
  destruct (URL_new s) as [p|] eqn:N; [|split; discriminate].
  assert (Ag : forallb is_ascii g = true).
  { destruct (@schemeMatch_group s g M) as (first & more & rest & -> & _ & Hf & Hm).
    simpl. rewrite (forallb_impl _ _ more scheme_class_ascii Hm), andb_true_r.
    revert Hf. unfold cls_test, in_ranges, swap_case, is_upper, is_lower, is_ascii.
    simpl.
    destruct ((65 <=? first) && (first <=? 90)) eqn:U;
      destruct ((97 <=? first) && (first <=? 122)) eqn:L; lia. }
  rewrite toLowerCase_ascii in W by exact Ag.
  pose proof (@protocol_of_scheme UB USL s g p M N) as P.
  assert (Web : is_web p).
  { apply andb_false_iff in W as [W|W]; apply negb_false_iff, str_eqb_eq in W;
      rewrite W in P; [left | right]; exact P. }
  pose proof (@host_present UB USL s p N Web) as Hn.
  unfold checkParsed.
  replace (negb (str_eqb (protocol p) (lit "http:")) &&
           negb (str_eqb (protocol p) (lit "https:"))) with false
    by (destruct Web as [-> | ->]; reflexivity).
  destruct (truthy (username p) || truthy (password p)); [split; discriminate|].
  cbv zeta.
  destruct (truthy (hostname p)) eqn:T; cbn [negb].
  - destruct (negb (test RAW_IPV4_RE (hostname p) || includes (lit ":") (hostname p)) &&
              negb (includes (lit ".") (hostname p))); [split; discriminate|].
    destruct (isBlockedHostname (hostname p)); split; discriminate.
  - destruct (hostname p); [destruct Hn; reflexivity | discriminate].
Qed.

End UrlGuards.

Lemma validateUrl_accepted_witness :
  exists p,
    Reference.parse (lit "https://Example.com:443/a b") = Some p /\
    lit "https://example.com/a%20b" = Reference.serialize p /\
    Reference.u_host p = lit "example.com".
Proof.
  destruct (@validateUrl_accepted Reference.strings Reference.urls
              reference_string_laws reference_url_laws
              (lit " https://Example.com:443/a b ")
              (lit "https://example.com/a%20b") eq_refl)
    as (p & N & E & _).
  exists p. split; [exact N|]. split; [exact E|].
  vm_compute in N. injection N as <-. reflexivity.
Defined.

Lemma validateUrl_blank_is_empty_witness :
  @validateUrl Reference.strings Reference.urls (JString [32; 8203; 9; 65279; 0])
  = Err UrlEmpty.
Proof.
  apply (@validateUrl_blank_is_empty Reference.strings Reference.urls
           reference_string_laws).
  reflexivity.
Defined.

Lemma validateUrl_refuses_blocked_hosts_witness :
  is_ok (@validateUrl Reference.strings Reference.urls
           (JString (lit "http://Printer.LAN/status"))) = false /\
  is_ok (@validateUrl Reference.strings Reference.urls
           (JString (lit "http://100.127.255.255/"))) = false.
Proof.
  split.
  - eapply (@validateUrl_refuses_blocked_hosts Reference.strings Reference.urls
              reference_string_laws reference_url_laws);
      [vm_compute; reflexivity|].
    right. left. exists (lit "printer"), (lit "lan"). split; [reflexivity|].
    simpl. tauto.
  - eapply (@validateUrl_refuses_blocked_hosts Reference.strings Reference.urls
              reference_string_laws reference_url_laws);
      [vm_compute; reflexivity|].
    right. right. exists 100, 127, 255, 255. repeat split; reflexivity.
Defined.

Lemma validateUrl_dead_branches_witness :
  @validateUrl Reference.strings Reference.urls (JString (lit "HTTP://a.b"))
  <> Err UrlProtocolNotAllowed /\
  @validateUrl Reference.strings Reference.urls (JString (lit "HTTP://a.b"))
  <> Err UrlHostMissing.
Proof.
  apply (@validateUrl_dead_branches Reference.strings Reference.urls
           reference_string_laws reference_scheme_laws).
Defined.

(* ================================================================== *)
(** * What body ingestion accepts *)
(* ================================================================== *)

Section BodyFacts.

Context `{SB : StringBuiltins} `{BB : BodyBuiltins}.

(** When the loop ends normally the stream has delivered its chunks and
    closed, and the chunks fit the cap. *)
Lemma read_loop_finished (body : stream) (acc chunks' : list (list Z))
      (total t' : Z) (log : list io) :
  total <= MAX_BODY_BYTES ->
  read_loop body acc total = (Finished chunks' t', log) ->
  exists chunks,
    body = feed chunks Closed /\ chunks' = acc ++ chunks /\
    t' = total + byte_count chunks /\ t' <= MAX_BODY_BYTES /\
    log = map Read chunks ++ [ReadDone].
Proof.
  revert acc total log. induction body as [| |value rest IH]; intros acc total log B H;
    simpl in H.
  - injection H as <- <- <-. exists []. simpl. rewrite app_nil_r.
    repeat split; auto; lia.
  - discriminate.
  - destruct (MAX_BODY_BYTES <? total + Z.of_nat (length value)) eqn:C;
      [discriminate|].
    apply Z.ltb_ge in C.
    destruct (read_loop rest (acc ++ [value]) (total + Z.of_nat (length value)))
      as [e l] eqn:R.
    simpl in H. injection H as -> <-.
    apply IH in R as (chunks & -> & -> & -> & B' & ->); [|exact C].
    exists (value :: chunks). simpl. rewrite <- app_assoc.
    repeat split; auto; lia.
Qed.

(** X15. What [readJsonBody] accepts.  The request is of type
    [application/json], the declared length, if any, is within the cap, the
    body delivered its chunks and closed, the chunks hold at most 8192
    bytes, every chunk was read once and in order, the bytes decode as UTF-8
    to a text that parses as JSON, and the value is an object. *)
Theorem readJsonBody_accepted (request : Request) (v : json) (log : list io) :
  readJsonBody request = (Ok v, log) ->
  mediaType request = lit "application/json" /\
  exceeds_cap (declaredLength request) = false /\
  exists chunks text fields,
    requestBody request = Some (feed chunks Closed) /\
    byte_count chunks <= MAX_BODY_BYTES /\
    log = map Read chunks ++ [ReadDone] /\
    utf8_decode (concat chunks) = Some text /\
    JSON_parse text = Some v /\
    v = JObject fields.
Proof.
  unfold readJsonBody.
  destruct (str_eqb (mediaType request) (lit "application/json")) eqn:M;
    cbn [negb]; [|discriminate].
  apply str_eqb_eq in M.
  destruct (exceeds_cap (declaredLength request)) eqn:D; [discriminate|].
  destruct (requestBody request) as [body|]; [|discriminate].
  destruct (read_loop body [] 0) as [[chunks' t'| |] l] eqn:R; try discriminate.
  apply read_loop_finished in R as (chunks & -> & -> & -> & B & ->);
    [|unfold MAX_BODY_BYTES; lia].
  simpl app.
  destruct (utf8_decode (concat chunks)) as [text|] eqn:U; [|discriminate].
  destruct (JSON_parse text) as [parsed|] eqn:J; [|discriminate].
  destruct parsed as [| | | | |fields]; simpl; try discriminate.
  intro E. injection E as <- <-.
  split; [exact M|]. split; [reflexivity|].
  exists chunks, text, fields. repeat split; auto; lia.
Qed.

(** X16. The cap holds whatever the [Content-Length] header says.  On a body
    whose chunks add up to more than 8192 bytes the request is never
    accepted.  A request that is not of type [application/json] fails on its
    type and one with a declared length above the cap fails as too large,
    both before any read; every other request fails as too large after the
    function read the chunks whose running total is within the cap and the
    first chunk that takes the total over the cap, and cancelled the reader
    at that chunk. *)
Theorem readJsonBody_cap_whatever_declared
        (request : Request) (chunks : list (list Z)) (tail : stream) :
  requestBody request = Some (feed chunks tail) ->
  MAX_BODY_BYTES < byte_count chunks ->
  (mediaType request <> lit "application/json" /\
   readJsonBody request = (Err BodyContentType, [])) \/
  (mediaType request = lit "application/json" /\
   exceeds_cap (declaredLength request) = true /\
   readJsonBody request = (Err BodyTooLarge, [])) \/
  (mediaType request = lit "application/json" /\
   exceeds_cap (declaredLength request) = false /\
   exists pre value rest,
     chunks = pre ++ value :: rest /\
     byte_count pre <= MAX_BODY_BYTES /\
     MAX_BODY_BYTES < byte_count pre + Z.of_nat (length value) /\
     readJsonBody request
     = (Err BodyTooLarge, map Read pre ++ [Read value; Cancel])).
Proof.
  intros Hbody Hsize. unfold readJsonBody.
  destruct (str_eqb (mediaType request) (lit "application/json")) eqn:M;
    cbn [negb].
  2:{ left. apply str_eqb_neq in M. auto. }
  apply str_eqb_eq in M. right.
  destruct (exceeds_cap (declaredLength request)) eqn:X; [left; auto|].
  right. split; [exact M|]. split; [reflexivity|].
  rewrite Hbody.
  destruct (@first_excess MAX_BODY_BYTES chunks)
    as (pre & value & rest & E & Hp);
    [unfold MAX_BODY_BYTES; lia | exact Hsize |].
  exists pre, value, rest. split; [exact E|]. split; [lia|]. split; [lia|].
  rewrite E. unfold feed. rewrite fold_right_app. cbn [fold_right].
  change (fold_right Data (Data value (fold_right Data tail rest)) pre)
    with (feed pre (Data value (fold_right Data tail rest))).
  rewrite read_loop_excess by lia. reflexivity.
Qed.

End BodyFacts.

Lemma readJsonBody_accepted_witness :
  exists chunks text fields,
    Some (feed [[123]; [125]] Closed) = Some (feed chunks Closed) /\
    byte_count chunks <= MAX_BODY_BYTES /\
    [Read [123]; Read [125]; ReadDone] = map Read chunks ++ [ReadDone] /\
    Reference.decode_ascii (concat chunks) = Some text /\
    Reference.parse_json text = Some (JObject []) /\
    JObject [] = JObject fields.
Proof.
  apply (@readJsonBody_accepted Reference.strings Reference.bodies
           {| Authorization := None;
              ContentType := Some (lit "Application/JSON; charset=utf-8");
              ContentLength := Some (lit "2");
              requestBody := Some (feed [[123]; [125]] Closed) |}
           (JObject []) [Read [123]; Read [125]; ReadDone]).
  reflexivity.
Defined.

Lemma readJsonBody_cap_whatever_declared_witness :
  exists pre value rest,
    [repeat 120 4000; repeat 120 4000; repeat 120 500; repeat 120 7]
    = pre ++ value :: rest /\
    byte_count pre <= MAX_BODY_BYTES /\
    MAX_BODY_BYTES < byte_count pre + Z.of_nat (length value) /\
    @readJsonBody Reference.strings Reference.bodies
      {| Authorization := None;
         ContentType := Some (lit "application/json");
         ContentLength := Some (lit "12");
         requestBody :=
           Some (feed [repeat 120 4000; repeat 120 4000; repeat 120 500;
                       repeat 120 7] Closed) |}
    = (Err BodyTooLarge, map Read pre ++ [Read value; Cancel]).
Proof.
  destruct (@readJsonBody_cap_whatever_declared Reference.strings Reference.bodies
              {| Authorization := None;
                 ContentType := Some (lit "application/json");
                 ContentLength := Some (lit "12");
                 requestBody :=
                   Some (feed [repeat 120 4000; repeat 120 4000; repeat 120 500;
                               repeat 120 7] Closed) |}
              [repeat 120 4000; repeat 120 4000; repeat 120 500; repeat 120 7]
              Closed eq_refl) as [[N _]|[(_ & X & _)|(_ & _ & H)]].
  - vm_compute. reflexivity.
  - exfalso. apply N. vm_compute. reflexivity.
  - vm_compute in X. discriminate.
  - exact H.
Defined.

(* ================================================================== *)
(** * Computations of the handlers *)
(* ================================================================== *)

Section Acts.

Lemma bind_cases (A B : Type) (m : act A) (f : A -> act B)
      (o : Outside) (w w' : World) (out : outcome B) :
  bind m f o w = (out, w') ->
  (m o w = (Thrown, w') /\ out = Thrown) \/
  exists a w1, m o w = (Returned a, w1) /\ f a o w1 = (out, w').
Proof.
  unfold bind. destruct (m o w) as [[a|] w1] eqn:E; intro H.
  - right. exists a, w1. auto.
  - left. injection H as <- <-. auto.
Qed.

Lemma kv_get_cases (key : jsstring) (o : Outside) (w w' : World)
      (out : outcome (option jsstring)) :
  kv_get key o w = (out, w') ->
  w' = mkWorld (entries w) (events w ++ [KvGet key]) (drawn w) (asked w) (reads w) /\
  (out = Returned (get_key key (entries w)) \/
   (out = Thrown /\ kv_fails o (length (events w)) = true)).
Proof.
  unfold kv_get. destruct (kv_fails o (length (events w))); intro H;
    injection H as <- <-; auto.
Qed.

Lemma newCode_returns (len : nat) (o : Outside) (w : World) :
  exists code,
    Shorten.newCode len o w
    = (Returned code,
       mkWorld (entries w) (events w) (drawn w + len) (asked w) (reads w)) /\
    forallb is_lower_alnum code = true /\ length code = len.
Proof.
  eexists. split; [reflexivity|].
  destruct (generateCode_shape
              (map (fun i => entropy o i mod 256) (seq (drawn w) len))) as [F L].
  split; [exact F|]. rewrite L, length_map, length_seq. reflexivity.
Qed.

(** The loop of [generateUniqueSlug]: it reads the namespace and changes
    nothing; it returns the first code that has no entry, or, when every
    code had one, a code of six characters that it has not looked up. *)
Lemma unique_loop_returns (indices : list nat) (o : Outside) (w w' : World)
      (slug : jsstring) :
  Shorten.unique_loop indices o w = (Returned slug, w') ->
  entries w' = entries w /\ reads w' = reads w /\ asked w' = asked w /\
  forallb is_lower_alnum slug = true /\
  exists keys,
    events w' = events w ++ map KvGet keys /\
    (length keys <= length indices)%nat /\
    (forall k, In k keys ->
       forallb is_lower_alnum k = true /\ (4 <= length k <= 5)%nat) /\
    ((exists before,
         keys = before ++ [slug] /\
         (forall k, In k before -> truthy_opt (get_key k (entries w)) = true) /\
         truthy_opt (get_key slug (entries w)) = false) \/
     (length keys = length indices /\ length slug = 6%nat /\
      forall k, In k keys -> truthy_opt (get_key k (entries w)) = true)).
Proof.
  revert w. induction indices as [|i rest IH]; intros w H.
  - cbn [Shorten.unique_loop] in H.
    destruct (newCode_returns (SHORT_LENGTH + 2) o w) as (code & E & F & L).
    unfold SHORT_LENGTH in *. rewrite E in H. injection H as <- <-.
    cbn [entries reads asked events]. repeat split; auto.
    exists []. cbn [map length]. rewrite app_nil_r.
    split; [reflexivity|]. split; [lia|]. split; [intros k []|].
    right. split; [reflexivity|]. split; [exact L|]. intros k [].
  - cbn [Shorten.unique_loop] in H.
    set (len := if (i <? 5)%nat then SHORT_LENGTH
                else (SHORT_LENGTH + 1)%nat) in H.
    assert (Hlen : (4 <= len <= 5)%nat)
      by (unfold len, SHORT_LENGTH; destruct (i <? 5)%nat; lia).
    apply bind_cases in H as [[H _]|(code & w1 & H1 & H)].
    { destruct (newCode_returns len o w) as (c & E & _). rewrite E in H.
      discriminate. }
    destruct (newCode_returns len o w) as (c & E & F & L).
    unfold SHORT_LENGTH in *.
    rewrite E in H1. injection H1 as <- <-.
    apply bind_cases in H as [[_ H]|(existing & w2 & H2 & H)]; [discriminate|].
    apply kv_get_cases in H2 as [-> [H2|[H2 _]]]; [|discriminate].
    injection H2 as ->. cbn [entries] in H.
    destruct (truthy_opt (get_key c (entries w))) eqn:T; cbn [negb] in H.
    + apply IH in H as (He & Hr & Ha & Hs & keys & Hev & Hl & Hk & Hcase).
      cbn [entries reads asked events] in *.
      repeat split; auto.
      exists (c :: keys). cbn [map length]. rewrite Hev, <- app_assoc.
      split; [reflexivity|]. split; [lia|]. split.
      * intros k [<-|I]; [split; [exact F | lia] | apply Hk, I].
      * destruct Hcase as [(before & -> & Hb & Hf)|(Hl' & H6 & Ht)].
        -- left. exists (c :: before). split; [reflexivity|]. split; [|exact Hf].
           intros k [<-|I]; [exact T | apply Hb, I].
        -- right. split; [lia|]. split; [exact H6|].
           intros k [<-|I]; [exact T | apply Ht, I].
    + unfold ret in H. injection H as <- <-.
      cbn [entries reads asked events]. repeat split; auto.
      exists [c]. cbn [map length]. split; [reflexivity|]. split; [lia|]. split.
      * intros k [<-|[]]. split; [exact F | lia].
      * left. exists []. split; [reflexivity|]. split; [intros k []|exact T].
Qed.

(** The loop throws only at a read of the namespace: the last operation it
    made, the reads before it having succeeded and found an entry. *)
Lemma unique_loop_throws (indices : list nat) (o : Outside) (w w' : World) :
  Shorten.unique_loop indices o w = (Thrown, w') ->
  entries w' = entries w /\ reads w' = reads w /\
  exists before failed,
    events w' = events w ++ map KvGet (before ++ [failed]) /\
    (length before < length indices)%nat /\
    (forall k, In k before -> truthy_opt (get_key k (entries w)) = true) /\
    (forall i, (i < length before)%nat ->
               kv_fails o (length (events w) + i) = false) /\
    kv_fails o (length (events w) + length before) = true.
Proof.
  revert w. induction indices as [|i rest IH]; intros w H.
  - cbn [Shorten.unique_loop] in H.
    destruct (newCode_returns (SHORT_LENGTH + 2) o w) as (code & E & _).
    unfold SHORT_LENGTH in *. rewrite E in H. discriminate.
  - cbn [Shorten.unique_loop] in H.
    set (len := if (i <? 5)%nat then SHORT_LENGTH
                else (SHORT_LENGTH + 1)%nat) in H.
    destruct (newCode_returns len o w) as (c & E & _).
    apply bind_cases in H as [[H _]|(code & w1 & H1 & H)];
      [rewrite E in H; discriminate|].
    rewrite E in H1. injection H1 as <- <-.
    unfold bind, kv_get in H. cbn [events entries drawn asked reads] in H.
    destruct (kv_fails o (length (events w))) eqn:K.
    + injection H as <-. cbn [entries reads events].
      split; [reflexivity|]. split; [reflexivity|].
      exists [], c. cbn [app map length].
      split; [reflexivity|]. split; [lia|]. split; [intros k []|].
      split; [intros j Hj; lia|]. rewrite Nat.add_0_r. exact K.
    + destruct (truthy_opt (get_key c (entries w))) eqn:T; cbn [negb] in H;
        [|discriminate].
      apply IH in H as (He & Hr & before & failed & Hv & Hl & Hb & Hok & Hf).
      cbn [entries reads events] in He, Hr, Hv, Hb, Hok, Hf.
      rewrite length_app in Hok, Hf. cbn [length] in Hok, Hf.
      split; [exact He|]. split; [exact Hr|].
      exists (c :: before), failed. cbn [app map length].
      split; [rewrite Hv, <- app_assoc; reflexivity|].
      split; [lia|]. split.
      * intros k [<-|I]; [exact T | apply Hb, I].
      * split.
        -- intros [|j] Hj; [rewrite Nat.add_0_r; exact K|].
           replace (length (events w) + S j)%nat
             with (length (events w) + 1 + j)%nat by lia.
           apply Hok. lia.
        -- replace (length (events w) + S (length before))%nat
             with (length (events w) + 1 + length before)%nat by lia.
           exact Hf.
Qed.

Lemma unique_loop_quiet (indices : list nat) (o : Outside) (w w' : World)
      (out : outcome jsstring) :
  Shorten.unique_loop indices o w = (out, w') ->
  entries w' = entries w /\ reads w' = reads w /\
  exists keys, events w' = events w ++ map KvGet keys.
Proof.
  revert w. induction indices as [|i rest IH]; intros w H.
  - cbn [Shorten.unique_loop] in H.
    destruct (newCode_returns (SHORT_LENGTH + 2) o w) as (code & E & _).
    rewrite E in H. injection H as <- <-. cbn.
    repeat split. exists []. rewrite app_nil_r. reflexivity.
  - cbn [Shorten.unique_loop] in H.
    set (len := if (i <? 5)%nat then SHORT_LENGTH
                else (SHORT_LENGTH + 1)%nat) in H.
    destruct (newCode_returns len o w) as (c & E & _).
    apply bind_cases in H as [[H _]|(code & w1 & H1 & H)];
      [rewrite E in H; discriminate|].
    rewrite E in H1. injection H1 as <- <-.
    apply bind_cases in H as [[H _]|(existing & w2 & H2 & H)].
    + apply kv_get_cases in H as [-> _]. cbn.
      repeat split. exists [c]. reflexivity.
    + apply kv_get_cases in H2 as [-> _].
      destruct (negb (truthy_opt existing)).
      * unfold ret in H. injection H as <- <-. cbn.
        repeat split. exists [c]. reflexivity.
      * apply IH in H as (He & Hr & keys & Hv). cbn in He, Hr, Hv.
        repeat split; auto. exists (c :: keys).
        rewrite Hv, <- app_assoc. reflexivity.
Qed.

(** X19. [generateUniqueSlug] only reads the namespace: it changes no entry,
    and its operations are reads, at most eight, whether it returns or
    throws.  When it returns, the slug is made of lower-case letters and
    digits; either it has 4 or 5 characters, was looked up last and has no
    entry, every code tried before it having one; or all eight codes tried
    have an entry and the slug has 6 characters and was not looked up.  It
    throws only when a read that it made fails: that read is its last
    operation, and the reads before it succeeded and found an entry. *)
Theorem generateUniqueSlug_fresh_or_unchecked
        (o : Outside) (w w' : World) (out : outcome jsstring) :
  Shorten.generateUniqueSlug o w = (out, w') ->
  entries w' = entries w /\
  match out with
  | Thrown =>
      exists before failed,
        events w' = events w ++ map KvGet (before ++ [failed]) /\
        (length before < 8)%nat /\
        (forall k, In k before -> truthy_opt (get_key k (entries w)) = true) /\
        (forall i, (i < length before)%nat ->
                   kv_fails o (length (events w) + i) = false) /\
        kv_fails o (length (events w) + length before) = true
  | Returned slug =>
      forallb is_lower_alnum slug = true /\
      exists keys,
        events w' = events w ++ map KvGet keys /\
        (length keys <= 8)%nat /\
        ((exists before,
             keys = before ++ [slug] /\
             (4 <= length slug <= 5)%nat /\
             (forall k, In k before -> truthy_opt (get_key k (entries w)) = true) /\
             truthy_opt (get_key slug (entries w)) = false) \/
         (length keys = 8%nat /\ length slug = 6%nat /\ ~ In slug keys /\
          forall k, In k keys -> truthy_opt (get_key k (entries w)) = true))
  end.
Proof.
  unfold Shorten.generateUniqueSlug. intro H. destruct out as [slug|].
  - apply unique_loop_returns in H
      as (He & _ & _ & Hs & keys & Hev & Hl & Hk & Hcase).
    rewrite length_seq in *. unfold Shorten.MAX_RETRIES in *.
    repeat split; auto. exists keys. repeat split; auto.
    destruct Hcase as [(before & -> & Hb & Hf)|(Hl' & H6 & Ht)].
    + left. exists before. repeat split; auto;
        apply (Hk slug); apply in_or_app; right; left; reflexivity.
    + right. repeat split; auto. intro I. apply Hk in I. lia.
  - apply unique_loop_throws in H
      as (He & _ & before & failed & Hv & Hl & Hb & Hok & Hf).
    rewrite length_seq in Hl. unfold Shorten.MAX_RETRIES in Hl.
    split; [exact He|]. exists before, failed. auto.
Qed.

End Acts.

Lemma generateUniqueSlug_fresh_or_unchecked_witness :
  (forallb is_lower_alnum (lit "efgh") = true /\
   exists keys,
     [KvGet (lit "abcd"); KvGet (lit "efgh")] = [] ++ map KvGet keys /\
     (length keys <= 8)%nat /\
     ((exists before,
          keys = before ++ [lit "efgh"] /\
          (4 <= length (lit "efgh") <= 5)%nat /\
          (forall k, In k before ->
             truthy_opt (get_key k [(lit "abcd", lit "x")]) = true) /\
          truthy_opt (get_key (lit "efgh") [(lit "abcd", lit "x")]) = false) \/
      (length keys = 8%nat /\ length (lit "efgh") = 6%nat /\ ~ In (lit "efgh") keys /\
       forall k, In k keys -> truthy_opt (get_key k [(lit "abcd", lit "x")]) = true))) /\
  (exists before failed,
     [KvGet (lit "abcd"); KvGet (lit "efgh")] = [] ++ map KvGet (before ++ [failed]) /\
     (length before < 8)%nat /\
     (forall k, In k before ->
        truthy_opt (get_key k [(lit "abcd", lit "x")]) = true) /\
     (forall i, (i < length before)%nat ->
        kv_fails (Sample.outside (Nat.eqb 1)) (0 + i) = false) /\
     kv_fails (Sample.outside (Nat.eqb 1)) (0 + length before) = true).
Proof.
  split.
  - apply (proj2 (@generateUniqueSlug_fresh_or_unchecked
                    Sample.steady
                    (Sample.world [(lit "abcd", lit "x")])
                    (mkWorld [(lit "abcd", lit "x")]
                             [KvGet (lit "abcd"); KvGet (lit "efgh")] 8 0 [])
                    (Returned (lit "efgh")) eq_refl)).
  - apply (proj2 (@generateUniqueSlug_fresh_or_unchecked
                    (Sample.outside (Nat.eqb 1))
                    (Sample.world [(lit "abcd", lit "x")])
                    (mkWorld [(lit "abcd", lit "x")]
                             [KvGet (lit "abcd"); KvGet (lit "efgh")] 8 0 [])
                    Thrown eq_refl)).
Defined.

(* ================================================================== *)
(** * The handler that creates links *)
(* ================================================================== *)

Section ShortenFacts.

Context `{SB : StringBuiltins} `{UB : URLBuiltin} `{BB : BodyBuiltins}
        `{HB : HandlerBuiltins}.

(** The headers of the answers of [jsonResponse]. *)
Lemma jsonResponse_cases (data : list (jsstring * datum)) (status : Z)
      (extraHeaders : object) (o : Outside) (w w' : World) (out : outcome Response) :
  jsonResponse data status extraHeaders o w = (out, w') ->
  w' = w /\
  (out = Thrown \/
   out = Returned
           (mkResponse status
              (assign [(lit "Content-Type", lit "application/json")]
                      (secureHeaders [extraHeaders]))
              (JsonBody data))).
Proof.
  unfold jsonResponse, new_Response.
  destruct (Response_new_ok status _); intro H; injection H as <- <-; auto.
Qed.

(** An answer made of a call of [getRandomConspiracy] and of
    [jsonResponse] leaves the namespace alone. *)
Lemma reply_cases (data : jsstring -> list (jsstring * datum)) (status : Z)
      (extraHeaders : object) (o : Outside) (w w' : World) (out : outcome Response) :
  (truth <- getRandomConspiracy ;; jsonResponse (data truth) status extraHeaders) o w
  = (out, w') ->
  entries w' = entries w /\ events w' = events w /\ reads w' = reads w /\
  match out with
  | Thrown => True
  | Returned r =>
      res_status r = status /\
      res_headers r = assign [(lit "Content-Type", lit "application/json")]
                             (secureHeaders [extraHeaders]) /\
      res_body r = JsonBody (data (conspiracies o (asked w)))
  end.
Proof.
  intro H. apply bind_cases in H as [[H _]|(truth & w1 & H1 & H)];
    [discriminate|].
  unfold getRandomConspiracy in H1. injection H1 as <- <-.
  apply jsonResponse_cases in H as [-> [->| ->]]; cbn; repeat split; auto.
Qed.

(** The end of the handler: one write, then the answer. *)
Lemma store_cases (context : EventContext) (normalisedUrl slug : jsstring)
      (o : Outside) (w w' : World) (out : outcome Response) :
  Shorten.store context normalisedUrl slug o w = (out, w') ->
  reads w' = reads w /\
  events w' = events w
              ++ [KvPut slug (JSON_stringify
                                (Shorten.record context normalisedUrl slug (clock o)))] /\
  ((entries w' = entries w /\ out = Thrown /\
    kv_fails o (length (events w)) = true) \/
   (entries w' = set_key slug
                   (JSON_stringify
                      (Shorten.record context normalisedUrl slug (clock o)))
                   (entries w) /\
    kv_fails o (length (events w)) = false /\
    match out with
    | Thrown => True
    | Returned r =>
        res_status r = 200 /\
        res_headers r
        = assign [(lit "Content-Type", lit "application/json")]
            (secureHeaders
               [set_key (lit "X-Status") Shorten.RECORD_CREATED
                        (assign [] CORS_PUBLIC)]) /\
        res_body r
        = JsonBody [ (lit "shortUrl", Text (origin context ++ lit "/" ++ slug));
                     (lit "slug", Text slug);
                     (lit "url", Text normalisedUrl);
                     (lit "truth", Text (conspiracies o (asked w))) ]
    end)).
Proof.
  unfold Shorten.store. intro H.
  apply bind_cases in H as [[H _]|(createdAt & w1 & H1 & H)]; [discriminate|].
  unfold Date_now in H1. injection H1 as <- <-.
  apply bind_cases in H as [[H ->]|([] & w2 & H2 & H)].
  - unfold kv_put in H.
    destruct (kv_fails o (length (events w))) eqn:F; [|discriminate].
    injection H as <-. cbn. repeat split. left. auto.
  - unfold kv_put in H2.
    destruct (kv_fails o (length (events w))) eqn:F; [discriminate|].
    injection H2 as <-. cbv zeta in H.
    apply reply_cases in H as (He & Hv & Hr & Hout). cbn in He, Hv, Hr, Hout.
    split; [exact Hr|]. split; [exact Hv|]. right.
    split; [exact He|]. split; [reflexivity|]. exact Hout.
Qed.

(** The paths of [onRequestPost]. *)
Lemma onRequestPost_cases
        (context : EventContext) (o : Outside) (w w' : World)
        (out : outcome Response) :
  Shorten.onRequestPost context o w = (out, w') ->
  reads w' = reads w ++ snd (readJsonBody (request context)) /\
  ((entries w' = entries w /\
    (exists keys, events w' = events w ++ map KvGet keys) /\
    match out with
    | Thrown => True
    | Returned r =>
        In (res_status r) [400; 422; 409] /\
        res_headers r = assign [(lit "Content-Type", lit "application/json")]
                               (secureHeaders [CORS_PUBLIC])
    end) \/
   (exists payload normalisedUrl slug keys,
       fst (readJsonBody (request context)) = Ok payload /\
       validateUrl (to_jsvalue (prop payload (lit "url"))) = Ok normalisedUrl /\
       match prop payload (lit "customSlug") with
       | Some raw =>
           validateCustomSlug (to_jsvalue (Some raw)) = Ok slug /\
           keys = [slug] /\
           truthy_opt (get_key slug (entries w)) = false
       | None =>
           forallb is_lower_alnum slug = true /\
           (4 <= length slug <= 6)%nat /\
           (length slug = 6%nat \/ truthy_opt (get_key slug (entries w)) = false)
       end /\
       events w' = events w ++ map KvGet keys
                   ++ [KvPut slug (JSON_stringify
                                     (Shorten.record context normalisedUrl slug
                                                     (clock o)))] /\
       ((entries w' = entries w /\ out = Thrown) \/
        (entries w' = set_key slug
                        (JSON_stringify
                           (Shorten.record context normalisedUrl slug (clock o)))
                        (entries w) /\
         kv_fails o (length (events w ++ map KvGet keys)) = false /\
         match out with
         | Thrown => True
         | Returned r =>
             res_status r = 200 /\
             res_headers r
             = assign [(lit "Content-Type", lit "application/json")]
                 (secureHeaders
                    [set_key (lit "X-Status") Shorten.RECORD_CREATED
                             (assign [] CORS_PUBLIC)]) /\
             exists truth,
               res_body r
               = JsonBody [ (lit "shortUrl", Text (origin context ++ lit "/" ++ slug));
                            (lit "slug", Text slug);
                            (lit "url", Text normalisedUrl);
                            (lit "truth", Text truth) ]
         end)))).
Proof.
  unfold Shorten.onRequestPost. intro H.
  apply bind_cases in H as [[H _]|(bodyResult & w1 & H1 & H)]; [discriminate|].
  unfold readBody in H1. injection H1 as <- <-.
  set (w1 := mkWorld (entries w) (events w) (drawn w) (asked w)
                     (reads w ++ snd (readJsonBody (request context)))) in H.
  assert (Quiet : forall data status,
             (truth <- getRandomConspiracy ;;
              jsonResponse (data truth) status CORS_PUBLIC) o w1 = (out, w') ->
             In status [400; 422; 409] ->
             reads w' = reads w ++ snd (readJsonBody (request context)) /\
             ((entries w' = entries w /\
               (exists keys, events w' = events w ++ map KvGet keys) /\
               match out with
               | Thrown => True
               | Returned r =>
                   In (res_status r) [400; 422; 409] /\
                   res_headers r
                   = assign [(lit "Content-Type", lit "application/json")]
                            (secureHeaders [CORS_PUBLIC])
               end) \/
              (exists payload normalisedUrl slug keys,
                  fst (readJsonBody (request context)) = Ok payload /\
                  validateUrl (to_jsvalue (prop payload (lit "url")))
                  = Ok normalisedUrl /\
                  match prop payload (lit "customSlug") with
                  | Some raw =>
                      validateCustomSlug (to_jsvalue (Some raw)) = Ok slug /\
                      keys = [slug] /\
                      truthy_opt (get_key slug (entries w)) = false
                  | None =>
                      forallb is_lower_alnum slug = true /\
                      (4 <= length slug <= 6)%nat /\
                      (length slug = 6%nat \/
                       truthy_opt (get_key slug (entries w)) = false)
                  end /\
                  events w' = events w ++ map KvGet keys
                              ++ [KvPut slug
                                    (JSON_stringify
                                       (Shorten.record context normalisedUrl slug
                                                       (clock o)))] /\
                  ((entries w' = entries w /\ out = Thrown) \/
                   (entries w' = set_key slug
                                   (JSON_stringify
                                      (Shorten.record context normalisedUrl slug
                                                      (clock o)))
                                   (entries w) /\
                    kv_fails o (length (events w ++ map KvGet keys)) = false /\
                    match out with
                    | Thrown => True
                    | Returned r =>
                        res_status r = 200 /\
             res_headers r
             = assign [(lit "Content-Type", lit "application/json")]
                 (secureHeaders
                    [set_key (lit "X-Status") Shorten.RECORD_CREATED
                             (assign [] CORS_PUBLIC)]) /\
             exists truth,
               res_body r
               = JsonBody [ (lit "shortUrl", Text (origin context ++ lit "/" ++ slug));
                            (lit "slug", Text slug);
                            (lit "url", Text normalisedUrl);
                            (lit "truth", Text truth) ]
                    end))))).
  { intros data status R S. apply reply_cases in R as (He & Hv & Hr & Hout).
    split; [exact Hr|]. left. split; [exact He|]. split.
    - exists []. rewrite Hv, app_nil_r. reflexivity.
    - destruct out as [r|]; [|exact I]. destruct Hout as (-> & -> & _). auto. }
  destruct (fst (readJsonBody (request context))) as [payload|e] eqn:B.
  2:{ apply (Quiet (fun truth => [ (lit "error", Message (BodyFailure e));
                                   (lit "truth", Text truth) ]) 400 H).
      simpl. tauto. }
  cbv zeta in H.
  destruct (nullish (prop payload (lit "url"))).
  { apply (Quiet (fun truth => [ (lit "error", Message UrlFieldRequired);
                                 (lit "truth", Text truth) ]) 400 H).
    simpl. tauto. }
  destruct (validateUrl (to_jsvalue (prop payload (lit "url"))))
    as [normalisedUrl|e] eqn:V.
  2:{ apply (Quiet (fun truth => [ (lit "error", Message (UrlFailure e));
                                   (lit "truth", Text truth) ]) 422 H).
      simpl. tauto. }
  destruct (prop payload (lit "customSlug")) as [raw|] eqn:C.
  - destruct (validateCustomSlug (to_jsvalue (Some raw))) as [slug|e] eqn:S.
    2:{ apply (Quiet (fun truth => [ (lit "error", Message (SlugFailure e));
                                     (lit "truth", Text truth) ]) 422 H).
        simpl. tauto. }
    apply bind_cases in H as [[H ->]|(existing & w2 & H2 & H)].
    + apply kv_get_cases in H as [-> _]. cbn.
      split; [reflexivity|]. left. split; [reflexivity|]. split; [|exact I].
      exists [slug]. reflexivity.
    + apply kv_get_cases in H2 as [-> [H2|[H2 _]]]; [|discriminate].
      injection H2 as ->. cbn [entries w1] in H.
      destruct (truthy_opt (get_key slug (entries w))) eqn:T.
      * apply reply_cases in H as (He & Hv & Hr & Hout).
        cbn in He, Hv, Hr. split; [exact Hr|]. left.
        split; [exact He|]. split; [exists [slug]; exact Hv|].
        destruct out as [r|]; [|exact I]. destruct Hout as (-> & -> & _).
        simpl. tauto.
      * apply store_cases in H as (Hr & Hv & Hcase). cbn in Hr, Hv, Hcase.
        split; [exact Hr|]. right.
        exists payload, normalisedUrl, slug, [slug].
        split; [reflexivity|]. split; [exact V|]. rewrite C.
        split; [auto|]. split; [rewrite Hv, <- app_assoc; reflexivity|].
        destruct Hcase as [(He & -> & _)|(He & Hf & Hout)]; [left; auto|].
        right. split; [exact He|]. split; [exact Hf|].
        destruct out as [r|]; [|exact I].
        destruct Hout as (A1 & A2 & A3). repeat split; auto. eexists. exact A3.
  - apply bind_cases in H as [[H ->]|(slug & w2 & H2 & H)].
    + apply unique_loop_quiet in H as (He & Hr & keys & Hv).
      cbn in He, Hr, Hv. split; [exact Hr|]. left.
      split; [exact He|]. split; [exists keys; exact Hv | exact I].
    + pose proof (unique_loop_quiet _ _ _ _ _ H2) as (He2 & Hr2 & _).
      apply unique_loop_returns in H2
        as (_ & _ & _ & Hs & keys & Hv2 & Hl & Hk & Hcase).
      cbn in He2, Hr2, Hv2, Hcase.
      apply store_cases in H as (Hr & Hv & Hcase').
      rewrite He2 in Hcase'. rewrite Hr2 in Hr. rewrite Hv2 in Hv.
      split; [exact Hr|]. right.
      exists payload, normalisedUrl, slug, keys.
      split; [reflexivity|]. split; [exact V|]. rewrite C.
      split.
      * split; [exact Hs|].
        destruct Hcase as [(before & -> & _ & Hf)|(_ & H6 & _)].
        -- assert (4 <= length slug <= 5)%nat
             by (apply (Hk slug), in_or_app; right; left; reflexivity).
           split; [lia | right; exact Hf].
        -- split; [lia | left; exact H6].
      * split; [rewrite Hv, <- app_assoc; reflexivity|].
        destruct Hcase' as [(He & -> & _)|(He & Hf & Hout)]; [left; auto|].
        right. split; [exact He|]. split; [rewrite <- Hv2; exact Hf|].
        destruct out as [r|]; [|exact I].
        destruct Hout as (A1 & A2 & A3). repeat split; auto. eexists. exact A3.
Qed.


(** X20. [onRequestPost] writes only what it has validated.  Either the
    handler makes no write, changes no entry, and its answer, if any, has
    status 400, 422 or 409; or the body was read as an object, its [url] was
    accepted by [validateUrl], the slug is the one [validateCustomSlug]
    accepted, looked up and found without entry, or a generated one, and the
    handler makes one write, its last operation: the record of the
    normalised URL under that slug.  An answer of status 200 is made only
    after that write succeeded. *)
Theorem onRequestPost_writes_validated
        (context : EventContext) (o : Outside) (w w' : World)
        (out : outcome Response) :
  Shorten.onRequestPost context o w = (out, w') ->
  reads w' = reads w ++ snd (readJsonBody (request context)) /\
  ((entries w' = entries w /\
    (exists keys, events w' = events w ++ map KvGet keys) /\
    match out with
    | Thrown => True
    | Returned r => In (res_status r) [400; 422; 409]
    end) \/
   (exists payload normalisedUrl slug keys,
       fst (readJsonBody (request context)) = Ok payload /\
       validateUrl (to_jsvalue (prop payload (lit "url"))) = Ok normalisedUrl /\
       match prop payload (lit "customSlug") with
       | Some raw =>
           validateCustomSlug (to_jsvalue (Some raw)) = Ok slug /\
           keys = [slug] /\
           truthy_opt (get_key slug (entries w)) = false
       | None =>
           forallb is_lower_alnum slug = true /\
           (4 <= length slug <= 6)%nat /\
           (length slug = 6%nat \/ truthy_opt (get_key slug (entries w)) = false)
       end /\
       events w' = events w ++ map KvGet keys
                   ++ [KvPut slug (JSON_stringify
                                     (Shorten.record context normalisedUrl slug
                                                     (clock o)))] /\
       ((entries w' = entries w /\ out = Thrown) \/
        (entries w' = set_key slug
                        (JSON_stringify
                           (Shorten.record context normalisedUrl slug (clock o)))
                        (entries w) /\
         match out with
         | Thrown => True
         | Returned r => res_status r = 200
         end)))).
Proof.
  intro H. apply onRequestPost_cases in H as [Hr [(He & Hv & Hout)|Hw]].
  - split; [exact Hr|]. left. split; [exact He|]. split; [exact Hv|].
    destruct out as [r|]; tauto.
  - split; [exact Hr|]. right.
    destruct Hw as (payload & normalisedUrl & slug & keys & B & V & C & Hv & Hcase).
    exists payload, normalisedUrl, slug, keys. repeat split; auto.
    destruct Hcase as [Hcase|(He & _ & Hout)]; [left; exact Hcase|].
    right. split; [exact He|]. destruct out as [r|]; tauto.
Qed.

End ShortenFacts.

(* ================================================================== *)
(** * The handler that follows links *)
(* ================================================================== *)

Section RedirectFacts.

Context `{SB : StringBuiltins} `{BB : BodyBuiltins} `{HB : HandlerBuiltins}.

(** The pattern of the route check accepts the strings of 1 to 64
    characters that are letters, digits, hyphens or underscores, in either
    letter case, the first one a letter or a digit. *)
Lemma ROUTE_RE_shape (s : jsstring) :
  test Redirect.ROUTE_RE s = true <->
  exists h t, s = h :: t /\ cls_test true SLUG_HEAD_CLASS h = true /\
              forallb (cls_test true SLUG_CLASS) t = true /\ (length t <= 63)%nat.
Proof.
  unfold Redirect.ROUTE_RE, quant. rewrite RegExpFacts.test_whole.
  change (63 - 0)%nat with 63%nat. split.
  - intros H. apply RegExpFacts.matches_cat_inv in H as (s1 & s2 & -> & H1 & H2).
    apply RegExpFacts.matches_cls_inv in H1 as (c & -> & Hc).
    apply RegExpFacts.matches_rep_cls in H2 as [F L].
    exists c, s2. repeat split; auto; lia.
  - intros (h & t & -> & Hh & Ht & L).
    change (h :: t) with ([h] ++ t). constructor.
    + constructor. exact Hh.
    + apply RegExpFacts.matches_rep_cls. split; [exact Ht | lia].
Qed.

Lemma route_class (c : Z) :
  cls_test true SLUG_CLASS c = true ->
  is_ascii c = true /\ is_slug_char (ascii_lower c) = true.
Proof.
  unfold cls_test, in_ranges, swap_case, SLUG_CLASS, is_ascii, is_slug_char,
    ascii_lower, is_upper, is_lower, is_digit. simpl.
  destruct ((65 <=? c) && (c <=? 90)) eqn:U;
    destruct ((97 <=? c) && (c <=? 122)) eqn:L; lia.
Qed.

Lemma route_head_class (c : Z) :
  cls_test true SLUG_HEAD_CLASS c = true -> cls_test true SLUG_CLASS c = true.
Proof.
  unfold cls_test, in_ranges, swap_case, SLUG_CLASS, SLUG_HEAD_CLASS,
    is_upper, is_lower. simpl.
  destruct ((65 <=? c) && (c <=? 90)) eqn:U;
    destruct ((97 <=? c) && (c <=? 122)) eqn:L; lia.
Qed.

Lemma ROUTE_RE_chars (s : jsstring) :
  test Redirect.ROUTE_RE s = true ->
  forallb is_ascii s = true /\
  forallb is_slug_char (map ascii_lower s) = true /\
  (1 <= length s <= 64)%nat.
Proof.
  intro T. apply ROUTE_RE_shape in T as (h & t & -> & Hh & Ht & L).
  assert (F : forallb (cls_test true SLUG_CLASS) (h :: t) = true)
    by (simpl; rewrite (route_head_class h Hh), Ht; reflexivity).
  split; [|split; [|simpl; lia]].
  - revert F. apply forallb_impl. intros c Hc. apply route_class, Hc.
  - rewrite forallb_forall. intros x I. apply in_map_iff in I as (c & <- & I).
    rewrite forallb_forall in F. apply route_class, F, I.
Qed.

Lemma new_Response_cases (b : response_body) (status : Z) (headers : object)
      (o : Outside) (w w' : World) (out : outcome Response) :
  new_Response b status headers o w = (out, w') ->
  w' = w /\
  ((out = Thrown /\ Response_new_ok status headers = false) \/
   (out = Returned (mkResponse status headers b) /\
    Response_new_ok status headers = true)).
Proof.
  unfold new_Response. destruct (Response_new_ok status headers); intro H;
    injection H as <- <-; auto.
Qed.

(** The answers of [plain] leave the namespace alone. *)
Lemma plain_cases (status : Z) (o : Outside) (w w' : World) (out : outcome Response) :
  Redirect.plain status o w = (out, w') ->
  entries w' = entries w /\ events w' = events w /\ reads w' = reads w /\
  match out with
  | Thrown => True
  | Returned r =>
      res_status r = status /\
      res_headers r
      = set_key (lit "X-Truth") (conspiracies o (asked w))
          (assign [(lit "Content-Type", Redirect.TEXT_PLAIN)] Redirect.BASE_HEADERS)
  end.
Proof.
  unfold Redirect.plain. intro H.
  apply bind_cases in H as [[H _]|(message & w1 & H1 & H)]; [discriminate|].
  unfold statusMessage in H1. injection H1 as <- <-.
  apply bind_cases in H as [[H _]|(truth & w2 & H2 & H)]; [discriminate|].
  unfold getRandomConspiracy in H2. injection H2 as <- <-.
  apply new_Response_cases in H as [-> [[-> _]|[-> _]]]; cbn; auto.
Qed.

Lemma kv_get_json_cases (key : jsstring) (o : Outside) (w w' : World)
      (out : outcome json) :
  kv_get_json key o w = (out, w') ->
  w' = mkWorld (entries w) (events w ++ [KvGet key]) (drawn w) (asked w) (reads w) /\
  match out with
  | Thrown =>
      kv_fails o (length (events w)) = true \/
      exists t, get_key key (entries w) = Some t /\ JSON_parse t = None
  | Returned v =>
      kv_fails o (length (events w)) = false /\
      match get_key key (entries w) with
      | None => v = JNull
      | Some t => JSON_parse t = Some v
      end
  end.
Proof.
  unfold kv_get_json. intro H.
  apply bind_cases in H as [[H ->]|(text & w1 & H1 & H)].
  - apply kv_get_cases in H as [-> [H|[_ H]]]; [discriminate|]. auto.
  - unfold kv_get in H1.
    destruct (kv_fails o (length (events w))) eqn:F; [discriminate|].
    injection H1 as <- <-.
    destruct (get_key key (entries w)) as [t|].
    + destruct (JSON_parse t) as [v|] eqn:P.
      * unfold ret in H. injection H as <- <-. auto.
      * unfold throw in H. injection H as <- <-. split; [reflexivity|].
        right. exists t. auto.
    + unfold ret in H. injection H as <- <-. auto.
Qed.

(** The [try] block: one read of the namespace, under the slug in lower
    case, and an answer of status 404 or 302. *)
Lemma lookup_cases (slug : jsstring) (o : Outside) (w w' : World)
      (out : outcome Response) :
  Redirect.lookup slug o w = (out, w') ->
  entries w' = entries w /\ events w' = events w ++ [KvGet (toLowerCase slug)] /\
  reads w' = reads w /\
  match out with
  | Thrown => True
  | Returned r => res_status r = 404 \/ res_status r = 302
  end.
Proof.
  unfold Redirect.lookup. intro H.
  apply bind_cases in H as [[H ->]|(data & w1 & H1 & H)].
  - apply kv_get_json_cases in H as [-> _]. cbn. auto.
  - apply kv_get_json_cases in H1 as [-> _].
    destruct (negb (json_truthy data)).
    + apply bind_cases in H as [[H _]|(message & w2 & H2 & H)]; [discriminate|].
      unfold statusMessage in H2. injection H2 as <- <-.
      apply bind_cases in H as [[H _]|(truth & w3 & H3 & H)]; [discriminate|].
      unfold getRandomConspiracy in H3. injection H3 as <- <-.
      apply new_Response_cases in H as [-> [[-> _]|[-> _]]]; cbn; auto.
    + apply bind_cases in H as [[H _]|(truth & w2 & H2 & H)]; [discriminate|].
      unfold getRandomConspiracy in H2. injection H2 as <- <-.
      apply bind_cases in H as [[H _]|(message & w3 & H3 & H)]; [discriminate|].
      unfold statusMessage in H3. injection H3 as <- <-.
      apply new_Response_cases in H as [-> [[-> _]|[-> _]]]; cbn; auto.
Qed.

(** What [onRequest] does with the slug of the route. *)
Lemma onRequest_cases (context : EventContext) (o : Outside) (w w' : World)
      (out : outcome Redirect.answer) :
  Redirect.onRequest context o w = (out, w') ->
  entries w' = entries w /\ reads w' = reads w /\
  ((out = Returned Redirect.Next /\ w' = w /\
    match params_slug context with
    | None => True
    | Some slug =>
        slug = [] \/ startsWith (lit "api") slug = true \/
        includes (lit ".") slug = true
    end) \/
   (exists slug,
       params_slug context = Some slug /\ slug <> [] /\
       startsWith (lit "api") slug = false /\ includes (lit ".") slug = false /\
       ((test Redirect.ROUTE_RE slug = false /\ events w' = events w /\
         match out with
         | Thrown => True
         | Returned a => exists r, a = Redirect.Respond r /\ res_status r = 400
         end) \/
        (test Redirect.ROUTE_RE slug = true /\
         events w' = events w ++ [KvGet (toLowerCase slug)] /\
         match out with
         | Thrown => True
         | Returned a =>
             exists r, a = Redirect.Respond r /\
                       In (res_status r) [404; 302; 500]
         end)))).
Proof.
  unfold Redirect.onRequest. intro H.
  destruct (params_slug context) as [slug|] eqn:P.
  2:{ unfold ret in H. injection H as <- <-. repeat split. left. auto. }
  destruct (negb (truthy slug) || startsWith (lit "api") slug ||
            includes (lit ".") slug) eqn:G.
  { unfold ret in H. injection H as <- <-. repeat split. left.
    repeat split.
    apply orb_true_iff in G as [G|G]; [|auto].
    apply orb_true_iff in G as [G|G]; [|auto].
    left. apply negb_true_iff in G. destruct slug; [reflexivity | discriminate]. }
  apply orb_false_iff in G as [G G3]. apply orb_false_iff in G as [G1 G2].
  apply negb_false_iff in G1.
  assert (N : slug <> []) by (intros ->; discriminate).
  destruct (test Redirect.ROUTE_RE slug) eqn:T; cbn [negb orb] in H.
  - replace (64 <? length slug)%nat with false in H
      by (symmetry; apply Nat.ltb_ge; apply ROUTE_RE_chars in T; lia).
    apply bind_cases in H as [[H ->]|(r & w1 & H1 & H)].
    + unfold try_catch in H.
      destruct (Redirect.lookup slug o w) as [[r|] w1] eqn:L; [discriminate|].
      apply lookup_cases in L as (Le & Lv & Lr & _).
      apply plain_cases in H as (He & Hv & Hr & _).
      rewrite He, Hv, Hr, Le, Lv, Lr. repeat split. right.
      exists slug. repeat split; auto.
    + unfold ret in H. injection H as <- <-. unfold try_catch in H1.
      destruct (Redirect.lookup slug o w) as [[r'|] w2] eqn:L.
      * injection H1 as <- <-. apply lookup_cases in L as (Le & Lv & Lr & Ls).
        repeat split; auto. right. exists slug. repeat split; auto.
        right. repeat split; auto. exists r'. split; [reflexivity|].
        simpl. destruct Ls as [-> | ->]; auto.
      * apply lookup_cases in L as (Le & Lv & Lr & _).
        apply plain_cases in H1 as (He & Hv & Hr & Hs & _).
        rewrite He, Hv, Hr, Le, Lv, Lr. repeat split. right.
        exists slug. repeat split; auto. right. repeat split; auto.
        exists r. split; [reflexivity|]. rewrite Hs. simpl. auto.
  - apply bind_cases in H as [[H ->]|(r & w1 & H1 & H)].
    + apply plain_cases in H as (He & Hv & Hr & _). repeat split; auto.
      right. exists slug. repeat split; auto.
    + unfold ret in H. injection H as <- <-.
      apply plain_cases in H1 as (He & Hv & Hr & Hs & _). repeat split; auto.
      right. exists slug. repeat split; auto. left. repeat split; auto.
      exists r. auto.
Qed.

Context {SL : StringLaws}.

(** X21. [onRequest] never writes to the namespace and reads it at most once,
    under a key that the lookup policy accepts: 1 to 64 lower-case letters,
    digits, hyphens or underscores.  The pattern of its check admits no
    slug of more than 64 characters, so that the second part of the check,
    on the length, decides nothing. *)
Theorem onRequest_reads_valid_key
        (context : EventContext) (o : Outside) (w w' : World)
        (out : outcome Redirect.answer) :
  Redirect.onRequest context o w = (out, w') ->
  entries w' = entries w /\
  (events w' = events w \/
   exists key,
     events w' = events w ++ [KvGet key] /\
     validateLookupSlug (JString key) = Ok key) /\
  (forall slug, test Redirect.ROUTE_RE slug = true -> (length slug <= 64)%nat).
Proof.
  intro H. split; [|split].
  - apply onRequest_cases in H. tauto.
  - apply onRequest_cases in H
      as (_ & _ & [(_ & -> & _)|(slug & _ & _ & _ & _ & [(_ & E & _)|(T & E & _)])]);
      auto.
    right. exists (toLowerCase slug). split; [exact E|].
    apply ROUTE_RE_chars in T as (A & F & L).
    rewrite toLowerCase_ascii by exact A.
    apply validateLookupSlug_accepts; [exact F|]. rewrite length_map. lia.
  - intros slug T. apply ROUTE_RE_chars in T. lia.
Qed.

End RedirectFacts.

(* ================================================================== *)
(** * Headers *)
(* ================================================================== *)

Section Headers.

Lemma get_set_key (k j v : jsstring) (o : object) :
  get_key k (set_key j v o) = if str_eqb j k then Some v else get_key k o.
Proof.
  destruct (str_eqb j k) eqn:JK.
  - apply str_eqb_eq in JK. subst j.
    induction o as [|[k' v'] o IH]; simpl; [rewrite str_eqb_refl; reflexivity|].
    destruct (str_eqb k' k) eqn:E; simpl; rewrite E; [reflexivity | exact IH].
  - induction o as [|[k' v'] o IH]; simpl; [rewrite JK; reflexivity|].
    destruct (str_eqb k' j) eqn:E; simpl.
    + apply str_eqb_eq in E. subst k'. rewrite JK. reflexivity.
    + destruct (str_eqb k' k); [reflexivity | exact IH].
Qed.




Lemma set_key_keys (x j v : jsstring) (o : object) :
  In x (map fst (set_key j v o)) -> In x (map fst o) \/ x = j.
Proof.
  induction o as [|[k' v'] o IH]; simpl.
  - intros [E|[]]. auto.
  - destruct (str_eqb k' j); simpl; [tauto|].
    intros [E|I]; [auto|]. apply IH in I. tauto.
Qed.

(** Assignments keep the keys of an object different from one another. *)
Lemma set_key_NoDup (j v : jsstring) (o : object) :
  NoDup (map fst o) -> NoDup (map fst (set_key j v o)).
Proof.
  induction o as [|[k' v'] o IH]; simpl; intro N.
  - constructor; [intros [] | constructor].
  - inversion N as [|x l Nin N' E]; subst.
    destruct (str_eqb k' j) eqn:E; simpl; [constructor; assumption|].
    constructor; [|apply IH, N'].
    intro I. apply set_key_keys in I as [I|I]; [auto|].
    subst k'. rewrite str_eqb_refl in E. discriminate.
Qed.

Lemma assign_NoDup (target source : object) :
  NoDup (map fst target) -> NoDup (map fst (assign target source)).
Proof.
  unfold assign. revert target.
  induction source as [|[j v] source IH]; intros target N; simpl; [exact N|].
  apply IH, set_key_NoDup, N.
Qed.

Lemma secureHeaders_NoDup (sets : list object) :
  NoDup (map fst (secureHeaders sets)).
Proof.
  unfold secureHeaders.
  assert (G : forall (l : list object) (base : object),
             NoDup (map fst base) -> NoDup (map fst (fold_left assign l base))).
  { induction l as [|set l IH]; intros base N; simpl; [exact N|].
    apply IH, assign_NoDup, N. }
  apply G. constructor.
Qed.



End Headers.

(* ================================================================== *)
(** * From creation to redirection *)
(* ================================================================== *)

Section Resolution.

Context `{SB : StringBuiltins} `{UB : URLBuiltin} `{BB : BodyBuiltins}
        `{HB : HandlerBuiltins}.
Context {SL : StringLaws}.

Lemma cls_test_flag (rs : list (Z * Z)) (c : Z) :
  cls_test false rs c = true -> cls_test true rs c = true.
Proof. unfold cls_test. intro H. rewrite orb_false_r in H. rewrite H. reflexivity. Qed.

(** A stored slug passes the checks of the route, the one on the prefix
    [api] apart, and is its own lower case. *)
Lemma stored_slug_route (slug : jsstring) :
  forallb is_slug_char slug = true ->
  match slug with [] => False | h :: _ => is_lower_alnum h = true end ->
  (length slug <= 64)%nat ->
  slug <> [] /\ includes (lit ".") slug = false /\
  test Redirect.ROUTE_RE slug = true /\ toLowerCase slug = slug /\
  validateLookupSlug (JString slug) = Ok slug.
Proof.
  intros F Hh L. destruct slug as [|h t]; [destruct Hh|].
  split; [discriminate|]. split.
  { change (lit ".") with (46 :: []).
    apply (@slug_chars_exclude (h :: t) 46 [] F). reflexivity. }
  split.
  { apply ROUTE_RE_shape. exists h, t. split; [reflexivity|].
    simpl in F. apply andb_true_iff in F as [_ Ft]. simpl in L.
    split; [apply cls_test_flag; rewrite slug_head_class; exact Hh|].
    split; [|lia].
    revert Ft. apply forallb_impl. intros c Hc.
    apply cls_test_flag. rewrite slug_class. exact Hc. }
  split.
  { apply toLowerCase_plain. revert F. apply forallb_impl. intros c Hc.
    destruct (slug_char_plain c Hc) as [G U].
    rewrite (graphic_ascii c G), U. reflexivity. }
  apply validateLookupSlug_accepts; [exact F | simpl in *; lia].
Qed.

(** The [try] block on a slug whose entry parses to a truthy value. *)
Lemma lookup_found (slug t : jsstring) (data : json) (o : Outside) (w : World) :
  kv_fails o (length (events w)) = false ->
  get_key (toLowerCase slug) (entries w) = Some t ->
  JSON_parse t = Some data -> json_truthy data = true ->
  Redirect.lookup slug o w
  = new_Response
      (TextBody (Redirect.notice (getStatusMessage o 302)
                                 (ToString (prop data (lit "url")))))
      302
      (Redirect.found_headers (ToString (prop data (lit "url")))
                              (conspiracies o (asked w)))
      o
      (mkWorld (entries w) (events w ++ [KvGet (toLowerCase slug)])
               (drawn w) (S (asked w)) (reads w)).
Proof.
  intros F G P T. unfold Redirect.lookup, kv_get_json, bind, kv_get.
  rewrite F, G, P. unfold ret. rewrite T. reflexivity.
Qed.

(** X22. A link that was made can be followed, unless its slug starts with
    [api].  After an answer of status 200 of [onRequestPost] the namespace
    holds, under a slug that the lookup policy accepts, the record of the
    URL that [validateUrl] returned.  On a later request for that slug, the
    entry being still there and [JSON.parse] reading it back, [onRequest]
    passes the request on when the slug starts with [api]; otherwise it
    answers with status 302 and that URL as [Location], or with status 500,
    and this only when the read of the namespace failed or the response
    could not be made. *)
Theorem created_link_resolves
        (context : EventContext) (o : Outside) (w w1 : World) (r : Response) :
  Shorten.onRequestPost context o w = (Returned r, w1) ->
  res_status r = 200 ->
  exists payload normalisedUrl slug,
    fst (readJsonBody (request context)) = Ok payload /\
    validateUrl (to_jsvalue (prop payload (lit "url"))) = Ok normalisedUrl /\
    get_key slug (entries w1)
    = Some (JSON_stringify (Shorten.record context normalisedUrl slug (clock o))) /\
    validateLookupSlug (JString slug) = Ok slug /\
    forall (context' : EventContext) (o' : Outside) (w2 w2' : World)
           (out : outcome Redirect.answer),
      params_slug context' = Some slug ->
      get_key slug (entries w2)
      = Some (JSON_stringify (Shorten.record context normalisedUrl slug (clock o))) ->
      JSON_parse (JSON_stringify (Shorten.record context normalisedUrl slug (clock o)))
      = Some (Shorten.record context normalisedUrl slug (clock o)) ->
      ToString (Some (JText normalisedUrl)) = normalisedUrl ->
      Redirect.onRequest context' o' w2 = (out, w2') ->
      if startsWith (lit "api") slug then out = Returned Redirect.Next
      else
        match out with
        | Returned Redirect.Next => False
        | Returned (Redirect.Respond r') =>
            (res_status r' = 302 /\
             get_key (lit "Location") (res_headers r') = Some normalisedUrl /\
             get_key (lit "X-Redirect-To") (res_headers r') = Some normalisedUrl) \/
            (res_status r' = 500 /\
             (kv_fails o' (length (events w2)) = true \/
              Response_new_ok 302
                (Redirect.found_headers normalisedUrl (conspiracies o' (asked w2)))
              = false))
        | Thrown =>
            kv_fails o' (length (events w2)) = true \/
            Response_new_ok 302
              (Redirect.found_headers normalisedUrl (conspiracies o' (asked w2)))
            = false
        end.
Proof.
  intros H S. apply onRequestPost_cases in H as [_ [(_ & _ & St & _)|Hw]].
  { rewrite S in St. simpl in St. destruct St as [St|[St|[St|[]]]]; discriminate. }
  destruct Hw as (payload & normalisedUrl & slug & keys & B & V & C & _ & Hcase).
  destruct Hcase as [(_ & Hc)|(He & _ & _)]; [discriminate|].
  exists payload, normalisedUrl, slug.
  split; [exact B|]. split; [exact V|].
  split; [rewrite He, get_set_key, str_eqb_refl; reflexivity|].
  assert (Shape : forallb is_slug_char slug = true /\
                  match slug with [] => False | h :: _ => is_lower_alnum h = true end /\
                  (length slug <= 64)%nat).
  { destruct (prop payload (lit "customSlug")) as [raw|].
    - destruct C as (Vs & _ & _).
      destruct raw as [| | |s| |]; try discriminate. cbn [to_jsvalue] in Vs.
      apply validateCustomSlug_iff in Vs as (_ & Sh & _).
      destruct (slug_shape_chars Sh) as [F L].
      destruct Sh as (h & t & -> & Hh & _). repeat split; auto. lia.
    - destruct C as (F & L & _). split; [apply lower_alnum_slug_chars, F|].
      split; [|lia].
      destruct slug as [|h t]; [simpl in L; lia|].
      simpl in F. apply andb_true_iff in F. tauto. }
  destruct Shape as (F & Hh & L).
  destruct (stored_slug_route slug F Hh L) as (Ne & Dot & Route & Low & Look).
  split; [exact Look|].
  intros context' o' w2 w2' out P G Parse Str R.
  unfold Redirect.onRequest in R. rewrite P in R.
  replace (truthy slug) with true in R by (destruct slug; [destruct Ne|]; reflexivity).
  rewrite Dot in R. cbn [negb orb] in R. rewrite orb_false_r in R.
  destruct (startsWith (lit "api") slug).
  { unfold ret in R. injection R as <- _. reflexivity. }
  rewrite Route in R. cbn [negb orb] in R.
  replace (64 <? length slug)%nat with false in R
    by (symmetry; apply Nat.ltb_ge; exact L).
  unfold bind, try_catch in R.
  destruct (kv_fails o' (length (events w2))) eqn:Fail.
  - destruct (Redirect.lookup slug o' w2) as [[r'|] wx] eqn:Lk.
    + exfalso. unfold Redirect.lookup, kv_get_json, bind, kv_get in Lk.
      rewrite Fail in Lk. discriminate.
    + destruct (Redirect.plain 500 o' wx) as [[r5|] wy] eqn:Pl.
      * unfold ret in R. injection R as <- _.
        apply plain_cases in Pl as (_ & _ & _ & St & _). right. auto.
      * injection R as <- _. left. reflexivity.
  - rewrite (lookup_found slug _ _ o' w2 Fail ltac:(rewrite Low; exact G) Parse eq_refl)
      in R.
    cbn [Shorten.record prop field] in R.
    change (str_eqb (lit "url") (lit "url")) with true in R. cbv iota in R.
    rewrite Str in R. unfold new_Response in R.
    destruct (Response_new_ok 302
                (Redirect.found_headers normalisedUrl (conspiracies o' (asked w2))))
      eqn:Ok302.
    + unfold ret in R. injection R as <- _. left. repeat split.
    + destruct (Redirect.plain 500 o' _) as [[r5|] wy] eqn:Pl.
      * unfold ret in R. injection R as <- _.
        apply plain_cases in Pl as (_ & _ & _ & St & _). right. auto.
      * injection R as <- _. right. reflexivity.
Qed.

End Resolution.

(* ================================================================== *)
(** * Headers and routes of the answers *)
(* ================================================================== *)

Section Routes.

Context `{SB : StringBuiltins} `{UB : URLBuiltin} `{BB : BodyBuiltins}
        `{HB : HandlerBuiltins}.

(** The statuses and headers of the responses of [onRequest]. *)
Lemma onRequest_headers (context : EventContext) (o : Outside) (w w' : World)
      (r : Response) :
  Redirect.onRequest context o w = (Returned (Redirect.Respond r), w') ->
  (exists truth,
      In (res_status r) [400; 500] /\
      res_headers r
      = set_key (lit "X-Truth") truth
          (assign [(lit "Content-Type", Redirect.TEXT_PLAIN)] Redirect.BASE_HEADERS)) \/
  (exists truth,
      res_status r = 404 /\
      res_headers r
      = set_key (lit "X-Status") (lit "MEMORY-HOLED")
          (set_key (lit "X-Truth") truth
             (assign [(lit "Content-Type", Redirect.TEXT_PLAIN)]
                     Redirect.BASE_HEADERS))) \/
  (exists target truth,
      res_status r = 302 /\
      res_headers r = Redirect.found_headers target truth).
Proof.
  unfold Redirect.onRequest. intro H.
  destruct (params_slug context) as [slug|]; [|discriminate].
  destruct (negb (truthy slug) || startsWith (lit "api") slug ||
            includes (lit ".") slug); [discriminate|].
  assert (Plain : forall status wa wb ra,
             In status [400; 500] ->
             Redirect.plain status o wa = (Returned ra, wb) ->
             exists truth,
               In (res_status ra) [400; 500] /\
               res_headers ra
               = set_key (lit "X-Truth") truth
                   (assign [(lit "Content-Type", Redirect.TEXT_PLAIN)]
                           Redirect.BASE_HEADERS)).
  { intros status wa wb ra I P. apply plain_cases in P as (_ & _ & _ & -> & ->).
    eexists. split; [exact I | reflexivity]. }
  destruct (negb (test Redirect.ROUTE_RE slug) || (64 <? length slug)%nat).
  - apply bind_cases in H as [[_ H]|(r1 & w1 & H1 & H)]; [discriminate|].
    unfold ret in H. injection H as <- <-.
    left. apply (Plain 400 w w1 r1); [simpl; tauto | exact H1].
  - apply bind_cases in H as [[_ H]|(r1 & w1 & H1 & H)]; [discriminate|].
    unfold ret in H. injection H as <- <-. unfold try_catch in H1.
    destruct (Redirect.lookup slug o w) as [[r2|] w2] eqn:L.
    + injection H1 as <- <-. right.
      unfold Redirect.lookup in L.
      apply bind_cases in L as [[_ L]|(data & w3 & L3 & L)]; [discriminate|].
      destruct (negb (json_truthy data)).
      * apply bind_cases in L as [[_ L]|(message & w4 & L4 & L)]; [discriminate|].
        apply bind_cases in L as [[_ L]|(truth & w5 & L5 & L)]; [discriminate|].
        apply new_Response_cases in L as [_ [[L _]|[L _]]]; [discriminate|].
        injection L as ->. left. exists truth. split; reflexivity.
      * apply bind_cases in L as [[_ L]|(truth & w4 & L4 & L)]; [discriminate|].
        apply bind_cases in L as [[_ L]|(message & w5 & L5 & L)]; [discriminate|].
        apply new_Response_cases in L as [_ [[L _]|[L _]]]; [discriminate|].
        injection L as ->. right. eexists. eexists. split; reflexivity.
    + left. apply (Plain 500 w2 w1 r1); [simpl; tauto | exact H1].
Qed.

(** X23. The security headers of the answers.  Every response of
    [onRequestPost] carries the six headers of [SECURITY_HEADERS] and the
    three of [CORS_PUBLIC] with their values, and the content type
    [application/json].  The responses of [onRequest] of status 400, 404 and
    500 carry the six security headers; the response of status 302 carries
    three of them, [X-Content-Type-Options], [X-Frame-Options] and
    [Cache-Control], and not [Referrer-Policy], [Permissions-Policy] and
    [Content-Security-Policy]. *)
Theorem answers_security_headers :
  (forall (context : EventContext) (o : Outside) (w w' : World) (r : Response),
      Shorten.onRequestPost context o w = (Returned r, w') ->
      get_key (lit "Content-Type") (res_headers r) = Some (lit "application/json") /\
      forall h v, In (h, v) (SECURITY_HEADERS ++ CORS_PUBLIC) ->
                  get_key h (res_headers r) = Some v) /\
  (forall (context : EventContext) (o : Outside) (w w' : World) (r : Response),
      Redirect.onRequest context o w = (Returned (Redirect.Respond r), w') ->
      (res_status r <> 302 ->
       forall h v, In (h, v) SECURITY_HEADERS -> get_key h (res_headers r) = Some v) /\
      (res_status r = 302 ->
       get_key (lit "X-Content-Type-Options") (res_headers r) = Some (lit "nosniff") /\
       get_key (lit "X-Frame-Options") (res_headers r) = Some (lit "DENY") /\
       get_key (lit "Cache-Control") (res_headers r) = Some (lit "no-store, no-cache") /\
       get_key (lit "Referrer-Policy") (res_headers r) = None /\
       get_key (lit "Permissions-Policy") (res_headers r) = None /\
       get_key (lit "Content-Security-Policy") (res_headers r) = None)).
Proof.
  split.
  - intros context o w w' r H.
    apply onRequestPost_cases in H as [_ [(_ & _ & _ & Hh)|Hw]].
    + rewrite Hh. split; [reflexivity|]. intros h v I. simpl in I.
      repeat (destruct I as [I|I]; [injection I as <- <-; reflexivity|]).
      destruct I.
    + destruct Hw as (payload & normalisedUrl & slug & keys & _ & _ & _ & _ & Hcase).
      destruct Hcase as [(_ & Hc)|(_ & _ & _ & Hh & _)]; [discriminate|].
      rewrite Hh. split; [reflexivity|]. intros h v I. simpl in I.
      repeat (destruct I as [I|I]; [injection I as <- <-; reflexivity|]).
      destruct I.
  - intros context o w w' r H.
    apply onRequest_headers in H
      as [(truth & St & ->)|[(truth & St & ->)|(target & truth & St & ->)]].
    + split.
      * intros _ h v I. simpl in I.
        repeat (destruct I as [I|I]; [injection I as <- <-; reflexivity|]).
        destruct I.
      * intro E. rewrite E in St. simpl in St.
        destruct St as [St|[St|[]]]; discriminate.
    + split.
      * intros _ h v I. simpl in I.
        repeat (destruct I as [I|I]; [injection I as <- <-; reflexivity|]).
        destruct I.
      * intro E. rewrite E in St. discriminate.
    + split; [intro N; destruct N; exact St|].
      intros _. repeat split.
Qed.

Context {SL : StringLaws}.

(** X24. Slugs that start with [api] can be assigned and are never followed.
    [validateCustomSlug] accepts [api] followed by 1 to 29 slug characters,
    [generateCode] can give [api] followed by lower-case letters and digits,
    and [onRequest] passes every request for a slug that starts with [api]
    on to the next handler, without a lookup. *)
Theorem api_slugs_assigned_not_followed :
  (forall rest : jsstring,
      forallb is_slug_char rest = true -> (1 <= length rest <= 29)%nat ->
      validateCustomSlug (JString (lit "api" ++ rest)) = Ok (lit "api" ++ rest)) /\
  (forall rest : jsstring,
      forallb is_lower_alnum rest = true ->
      exists array,
        is_bytes array = true /\ length array = (3 + length rest)%nat /\
        generateCode array = lit "api" ++ rest) /\
  (forall (context : EventContext) (slug : jsstring) (o : Outside) (w : World),
      params_slug context = Some slug -> startsWith (lit "api") slug = true ->
      Redirect.onRequest context o w = (Returned Redirect.Next, w)).
Proof.
  split; [|split].
  - intros rest F L. apply validateCustomSlug_iff.
    assert (Fs : forallb is_slug_char (lit "api" ++ rest) = true)
      by (rewrite forallb_app, F; reflexivity).
    split; [symmetry; apply slug_chars_fixed, Fs|]. split.
    + exists 97, (lit "pi" ++ rest). split; [reflexivity|]. split; [reflexivity|].
      split; [rewrite forallb_app, F; reflexivity|].
      rewrite length_app. simpl. lia.
    + destruct rest as [|c rest]; [simpl in L; lia | reflexivity].
  - intros rest F.
    destruct (generateCode_onto (lit "api" ++ rest)) as (array & B & L & G).
    + rewrite forallb_app, F. reflexivity.
    + exists array. rewrite L, length_app. auto.
  - intros context slug o w P A. unfold Redirect.onRequest.
    rewrite P, A, orb_true_r. reflexivity.
Qed.

End Routes.

(* ================================================================== *)
(** * The lookup handler *)
(* ================================================================== *)

Section LookupFacts.

Context `{SB : StringBuiltins} `{BB : BodyBuiltins} `{HB : HandlerBuiltins}.

Lemma start_all_quiet (keys : list jsstring) (o : Outside) (w w' : World)
      (outcomes : list (outcome json)) :
  Lookup.start_all keys o w = (outcomes, w') ->
  entries w' = entries w /\ reads w' = reads w /\
  events w' = events w ++ map KvGet keys.
Proof.
  revert w outcomes. induction keys as [|key rest IH]; intros w outcomes H;
    simpl in H.
  - injection H as <- <-. rewrite app_nil_r. auto.
  - destruct (kv_get_json key o w) as [first w1] eqn:G.
    destruct (Lookup.start_all rest o w1) as [others w2] eqn:R.
    injection H as <- <-.
    apply kv_get_json_cases in G as [-> _].
    apply IH in R as (He & Hr & Hv). cbn in He, Hr, Hv.
    rewrite He, Hr, Hv, <- app_assoc. auto.
Qed.

(** What the loop of the batch lets through. *)
Lemma validate_all_accepted (items : list json) (validated : list jsstring) :
  Lookup.validate_all items = Ok validated ->
  length validated = length items /\
  forall k, In k validated ->
    forallb is_slug_char k = true /\ (1 <= length k <= 64)%nat.
Proof.
  revert validated. induction items as [|raw rest IH]; intros validated H;
    cbn [Lookup.validate_all] in H.
  - injection H as <-. split; [reflexivity | intros k []].
  - destruct (validateLookupSlug (to_jsvalue (Some raw))) as [slug|e] eqn:V;
      [|discriminate].
    destruct (Lookup.validate_all rest) as [others|f]; [|discriminate].
    injection H as <-. destruct (IH others eq_refl) as [L A].
    split; [simpl; rewrite L; reflexivity|].
    intros k [<-|I]; [|apply A, I].
    destruct raw as [| | |s| |]; try discriminate. cbn [to_jsvalue] in V.
    apply (proj1 (validateLookupSlug_iff s)) in V. tauto.
Qed.

(** The paths of [onRequestPost]: what is read, and what is answered. *)
Lemma lookup_handler_cases (context : EventContext) (env : Env) (o : Outside)
      (w w' : World) (out : outcome Response) :
  Lookup.onRequestPost context env o w = (out, w') ->
  entries w' = entries w /\
  (exists keys,
      events w' = events w ++ map KvGet keys /\
      (length keys <= 50)%nat /\
      forall k, In k keys ->
        forallb is_slug_char k = true /\ (1 <= length k <= 64)%nat) /\
  match out with
  | Thrown => True
  | Returned r =>
      exists data,
        res_body r = JsonBody data /\
        (Lookup.shows (lit "ip") (Fields data) = true \/
         Lookup.shows (lit "userAgent") (Fields data) = true ->
         fst (checkAdminAuth (request context) env) = true)
  end.
Proof.
  unfold Lookup.onRequestPost. intro H.
  apply bind_cases in H as [[H _]|(bodyResult & w1 & H1 & H)]; [discriminate|].
  unfold readBody in H1. injection H1 as <- <-.
  set (w1 := mkWorld (entries w) (events w) (drawn w) (asked w)
                     (reads w ++ snd (readJsonBody (request context)))) in H.
  assert (Quiet : forall data status extra wa,
             entries wa = entries w -> 
             (exists keys,
                 events wa = events w ++ map KvGet keys /\
                 (length keys <= 50)%nat /\
                 forall k, In k keys ->
                   forallb is_slug_char k = true /\ (1 <= length k <= 64)%nat) ->
             (forall truth,
                 Lookup.shows (lit "ip") (Fields (data truth)) = false /\
                 Lookup.shows (lit "userAgent") (Fields (data truth)) = false) ->
             (truth <- getRandomConspiracy ;;
              jsonResponse (data truth) status extra) o wa = (out, w') ->
             entries w' = entries w /\
             (exists keys,
                 events w' = events w ++ map KvGet keys /\
                 (length keys <= 50)%nat /\
                 forall k, In k keys ->
                   forallb is_slug_char k = true /\ (1 <= length k <= 64)%nat) /\
             match out with
             | Thrown => True
             | Returned r =>
                 exists data,
                   res_body r = JsonBody data /\
                   (Lookup.shows (lit "ip") (Fields data) = true \/
                    Lookup.shows (lit "userAgent") (Fields data) = true ->
                    fst (checkAdminAuth (request context) env) = true)
             end).
  { intros data status extra wa Ea Ka Sh R.
    apply reply_cases in R as (He & Hv & _ & Hout).
    rewrite He, Hv. split; [exact Ea|]. split; [exact Ka|].
    destruct out as [r|]; [|exact I]. destruct Hout as (_ & _ & Hb).
    eexists. split; [exact Hb|]. destruct (Sh (conspiracies o (asked wa))) as [A B].
    rewrite A, B. intros [X|X]; discriminate. }
  assert (None_ : exists keys,
             events w1 = events w ++ map KvGet keys /\
             (length keys <= 50)%nat /\
             forall k, In k keys ->
               forallb is_slug_char k = true /\ (1 <= length k <= 64)%nat).
  { exists []. simpl. rewrite app_nil_r. split; [reflexivity|].
    split; [lia | intros k []]. }
  destruct (fst (readJsonBody (request context))) as [payload|e].
  2:{ eapply (Quiet (fun truth => [ (lit "error", Message (BodyFailure e));
                                   (lit "truth", Text truth) ]) _ _ w1
                   eq_refl None_); [|exact H].
      intro truth. split; reflexivity. }
  cbv zeta in H.
  destruct (prop payload (lit "slug")) as [raw|].
  - destruct (validateLookupSlug (to_jsvalue (Some raw))) as [key|e] eqn:V.
    2:{ eapply (Quiet (fun truth => [ (lit "error", Message (SlugFailure e));
                                     (lit "truth", Text truth) ]) _ _ w1
                     eq_refl None_); [|exact H].
        intro truth. split; reflexivity. }
    assert (One : exists keys,
               events w ++ [KvGet key] = events w ++ map KvGet keys /\
               (length keys <= 50)%nat /\
               forall k, In k keys ->
                 forallb is_slug_char k = true /\ (1 <= length k <= 64)%nat).
    { exists [key]. split; [reflexivity|]. split; [simpl; lia|].
      intros k [<-|[]].
      destruct raw as [| | |s| |]; try discriminate. cbn [to_jsvalue] in V.
      apply (proj1 (validateLookupSlug_iff s)) in V. tauto. }
    apply bind_cases in H as [[H ->]|(record & w2 & H2 & H)].
    + apply kv_get_json_cases in H as [-> _]. cbn. auto.
    + apply kv_get_json_cases in H2 as [-> _].
      destruct (negb (json_truthy record)).
      * eapply (Quiet (fun truth => [ (lit "error", Message SlugNotFound);
                                     (lit "slug", Text key);
                                     (lit "truth", Text truth) ]) _ _
                     (mkWorld (entries w1) (events w1 ++ [KvGet key])
                              (drawn w1) (asked w1) (reads w1))
                     eq_refl One); [|exact H].
        intro truth. split; reflexivity.
      * apply jsonResponse_cases in H as [-> [->| ->]]; cbn.
        -- auto.
        -- split; [reflexivity|]. split; [exact One|].
           eexists. split; [reflexivity|].
           destruct (fst (checkAdminAuth (request context) env));
             [reflexivity|].
           intros [X|X]; discriminate.
  - destruct (prop payload (lit "slugs")) as [[| | | |items|]|];
      try (eapply (Quiet Lookup.usage _ _ w1 eq_refl None_); [|exact H];
           intro truth; split; reflexivity).
    destruct (length items =? 0)%nat.
    { eapply (Quiet (fun truth => [ (lit "error", Message EmptyBatch);
                                   (lit "truth", Text truth) ]) _ _ w1
                   eq_refl None_); [|exact H].
      intro truth. split; reflexivity. }
    destruct (Lookup.BATCH_LIMIT <? length items)%nat eqn:Lim.
    { eapply (Quiet (fun truth => [ (lit "error",
                                    Message (BatchTooLarge Lookup.BATCH_LIMIT));
                                   (lit "truth", Text truth) ]) _ _ w1
                   eq_refl None_); [|exact H].
      intro truth. split; reflexivity. }
    apply Nat.ltb_ge in Lim. unfold Lookup.BATCH_LIMIT in Lim.
    destruct (Lookup.validate_all items) as [validated|[raw e]] eqn:VA.
    2:{ eapply (Quiet (fun truth =>
                        [ (lit "error",
                           Message (InvalidBatchSlug
                                      (firstn 40 (ToString (Some raw))) e));
                          (lit "truth", Text truth) ]) _ _ w1
                     eq_refl None_); [|exact H].
        intro truth. split; reflexivity. }
    apply validate_all_accepted in VA as [VL VK].
    apply bind_cases in H as [[H ->]|(found & w2 & H2 & H)].
    + unfold Lookup.read_batch in H.
      destruct (Lookup.start_all validated o w1) as [outcomes wx] eqn:St.
      apply start_all_quiet in St as (He & _ & Hv).
      destruct (Lookup.all_returned outcomes); [discriminate|].
      injection H as <-. split; [exact He|]. split; [|exact I].
      exists validated. split; [exact Hv|]. split; [lia | exact VK].
    + unfold Lookup.read_batch in H2.
      destruct (Lookup.start_all validated o w1) as [outcomes wx] eqn:St.
      apply start_all_quiet in St as (He & _ & Hv).
      destruct (Lookup.all_returned outcomes) as [records|]; [|discriminate].
      injection H2 as <- <-.
      apply reply_cases in H as (He' & Hv' & _ & Hout).
      rewrite He', Hv'. split; [exact He|]. split.
      { exists validated. split; [exact Hv|]. split; [lia | exact VK]. }
      destruct out as [r|]; [|exact I]. destruct Hout as (_ & _ & Hb).
      eexists. split; [exact Hb|].
      destruct (fst (checkAdminAuth (request context) env)); [reflexivity|].
      cbn [fst snd].
      set (done := Lookup.completed o validated records).
      assert (Hide : forall k,
                 k = lit "ip" \/ k = lit "userAgent" ->
                 Lookup.shows k
                   (Fields
                      [ (lit "results",
                         Items (map (fun sr =>
                                       Fields (Lookup.formatRecord (snd sr)
                                                 (origin context) false))
                                    (filter (fun sr => json_truthy (snd sr)) done)));
                        (lit "notFound",
                         Items (map (fun sr => Text (fst sr))
                                    (filter (fun sr => negb (json_truthy (snd sr)))
                                            done)));
                        (lit "count",
                         Number (Z.of_nat
                                   (length (map (fun sr =>
                                                   Fields (Lookup.formatRecord (snd sr)
                                                             (origin context) false))
                                                (filter (fun sr => json_truthy (snd sr))
                                                        done)))));
                        (lit "truth", Text (conspiracies o (asked wx))) ])
                 = false).
      { intros k Hk.
        assert (A : existsb (Lookup.shows k)
                      (map (fun sr =>
                              Fields (Lookup.formatRecord (snd sr) (origin context) false))
                           (filter (fun sr => json_truthy (snd sr)) done)) = false).
        { induction (filter (fun sr => json_truthy (snd sr)) done) as [|sr l IH];
            [reflexivity|].
          cbn [map existsb]. rewrite IH, orb_false_r.
          destruct Hk as [-> | ->]; reflexivity. }
        assert (B : existsb (Lookup.shows k)
                      (map (fun sr : jsstring * json => Text (fst sr))
                           (filter (fun sr => negb (json_truthy (snd sr))) done))
                    = false).
        { induction (filter (fun sr => negb (json_truthy (snd sr))) done)
            as [|sr l IH]; [reflexivity|].
          cbn [map existsb]. rewrite IH. reflexivity. }
        cbn [Lookup.shows]. rewrite A, B.
        destruct Hk as [-> | ->]; reflexivity. }
      intros [X|X]; [rewrite Hide in X by auto | rewrite Hide in X by auto];
        discriminate.
Qed.

(** X25. What the lookup handler reads.  [onRequestPost] of [api/lookup.js]
    never writes, and reads the namespace under keys that the lookup policy
    accepted, 1 to 64 slug characters each, and under at most 50 of them. *)
Theorem lookup_reads_validated_keys
        (context : EventContext) (env : Env) (o : Outside) (w w' : World)
        (out : outcome Response) :
  Lookup.onRequestPost context env o w = (out, w') ->
  entries w' = entries w /\
  exists keys,
    events w' = events w ++ map KvGet keys /\
    (length keys <= 50)%nat /\
    forall k, In k keys ->
      forallb is_slug_char k = true /\ (1 <= length k <= 64)%nat.
Proof. intro H. apply lookup_handler_cases in H. tauto. Qed.

(** X26. The address and the user agent of a record are shown to the
    administrator only.  The lookup handler puts a key [ip] or [userAgent]
    in an answer, at its top or in an element of [results], only when
    [checkAdminAuth] accepts the request.  (The values copied from a stored
    record under the other keys are not looked into.) *)
Theorem lookup_shows_private_fields_to_admin_only
        (context : EventContext) (env : Env) (o : Outside) (w w' : World)
        (r : Response) (data : list (jsstring * datum)) :
  Lookup.onRequestPost context env o w = (Returned r, w') ->
  res_body r = JsonBody data ->
  Lookup.shows (lit "ip") (Fields data) = true \/
  Lookup.shows (lit "userAgent") (Fields data) = true ->
  fst (checkAdminAuth (request context) env) = true.
Proof.
  intros H B S. apply lookup_handler_cases in H as (_ & _ & data' & B' & A).
  rewrite B in B'. injection B' as <-. exact (A S).
Qed.

End LookupFacts.

(* ================================================================== *)
(** * The administration handlers *)
(* ================================================================== *)

Section AdminFacts.

Context `{SB : StringBuiltins} `{BB : BodyBuiltins} `{HB : HandlerBuiltins}.

Lemma unauthorized_cases (o : Outside) (w w' : World) (out : outcome Response) :
  Admin.unauthorized o w = (out, w') ->
  entries w' = entries w /\ events w' = events w /\ reads w' = reads w /\
  match out with
  | Thrown => True
  | Returned r =>
      res_status r = 401 /\
      get_key (lit "WWW-Authenticate") (res_headers r) = Some Admin.CHALLENGE
  end.
Proof.
  unfold Admin.unauthorized. intro H.
  apply reply_cases in H as (He & Hv & Hr & Hout).
  repeat split; auto. destruct out as [r|]; [|exact I].
  destruct Hout as (-> & -> & _). split; reflexivity.
Qed.

Lemma kv_list_cases (script : list page) (cursor : option jsstring)
      (o : Outside) (w w' : World) (out : outcome page) :
  kv_list script cursor o w = (out, w') ->
  w' = mkWorld (entries w) (events w ++ [KvList cursor]) (drawn w) (asked w) (reads w) /\
  match out with
  | Thrown => True
  | Returned p => In p script \/ page_keys p = []
  end.
Proof.
  unfold kv_list. destruct (kv_fails o (length (events w))); intro H;
    injection H as <- <-; split; auto.
  destruct script as [|p script]; [right; reflexivity | left; left; reflexivity].
Qed.

Lemma start_deletes_events (keys : list jsstring) (o : Outside) (w w' : World)
      (ok : bool) :
  Admin.start_deletes keys o w = (ok, w') ->
  reads w' = reads w /\ events w' = events w ++ map KvDelete keys.
Proof.
  revert w ok. induction keys as [|key rest IH]; intros w ok H; simpl in H.
  - injection H as <- <-. rewrite app_nil_r. auto.
  - destruct (kv_delete key o w) as [first w1] eqn:D.
    destruct (Admin.start_deletes rest o w1) as [others w2] eqn:R.
    injection H as <- <-.
    apply IH in R as (Hr & Hv).
    unfold kv_delete in D.
    destruct (kv_fails o (length (events w))); injection D as <- <-;
      cbn in Hr, Hv; rewrite Hr, Hv, <- app_assoc; auto.
Qed.

(** The events that an operation adds: none is a write, and the keys
    deleted come from the pages of the listing. *)
Lemma purge_loop_events (script : list page) (cursor : option jsstring)
      (deleted : nat) (o : Outside) (w w' : World) (out : outcome nat) :
  Admin.purge_loop script cursor deleted o w = (out, w') ->
  reads w' = reads w /\
  exists added,
    events w' = events w ++ added /\
    (forall k v, ~ In (KvPut k v) added) /\
    forall key, In (KvDelete key) added ->
      exists p, In p script /\ In key (page_keys p).
Proof.
  revert cursor deleted w.
  induction script as [|p0 rest IH]; intros cursor deleted w H.
  - cbn [Admin.purge_loop] in H.
    apply bind_cases in H as [[H _]|(result & w1 & H1 & H)].
    + apply kv_list_cases in H as [-> _]. cbn. split; [reflexivity|].
      exists [KvList cursor]. split; [reflexivity|]. split.
      * intros k v [X|[]]. discriminate.
      * intros key [X|[]]. discriminate.
    + unfold kv_list in H1.
      destruct (kv_fails o (length (events w))); [discriminate|].
      injection H1 as <- <-. cbn [page_keys page_cursor list_complete] in H.
      unfold bind, Admin.delete_page in H. cbn in H. unfold ret in H.
      injection H as <- <-. cbn. split; [reflexivity|].
      exists [KvList cursor]. split; [reflexivity|]. split.
      * intros k v [X|[]]. discriminate.
      * intros key [X|[]]. discriminate.
  - cbn [Admin.purge_loop] in H.
    apply bind_cases in H as [[H _]|(result & w1 & H1 & H)].
    + apply kv_list_cases in H as [-> _]. cbn. split; [reflexivity|].
      exists [KvList cursor]. split; [reflexivity|]. split.
      * intros k v [X|[]]. discriminate.
      * intros key [X|[]]. discriminate.
    + unfold kv_list in H1.
      destruct (kv_fails o (length (events w))); [discriminate|].
      injection H1 as <- <-.
      assert (Page : forall added' wa,
                 reads wa = reads w ->
                 events wa = events w ++ [KvList cursor]
                             ++ map KvDelete (page_keys p0) ++ added' ->
                 (forall k v, ~ In (KvPut k v) added') ->
                 (forall key, In (KvDelete key) added' ->
                    exists p, In p rest /\ In key (page_keys p)) ->
                 reads wa = reads w /\
                 exists added,
                   events wa = events w ++ added /\
                   (forall k v, ~ In (KvPut k v) added) /\
                   forall key, In (KvDelete key) added ->
                     exists p, In p (p0 :: rest) /\ In key (page_keys p)).
      { intros added' wa Hr Hv Np Dk. split; [exact Hr|].
        eexists. split; [exact Hv|]. split.
        - intros k v [X|X]; [discriminate|].
          cbn [app] in X.
          apply in_app_or in X as [Y|Y]; [|exact (Np k v Y)].
          apply in_map_iff in Y as (x & Y & _). discriminate.
        - intros key [X|X]; [discriminate|].
          cbn [app] in X.
          apply in_app_or in X as [Y|Y].
          + apply in_map_iff in Y as (x & Y & I). injection Y as ->.
            exists p0. split; [left; reflexivity | exact I].
          + destruct (Dk key Y) as (p & I & K). exists p. split; [right|]; auto. }
      apply bind_cases in H as [[H _]|([] & w2 & H2 & H)].
      * unfold Admin.delete_page in H.
        destruct (Admin.start_deletes (page_keys p0) o _) as [ok wx] eqn:D.
        apply start_deletes_events in D as (Hr & Hv). cbn in Hr, Hv.
        destruct ok; [discriminate|]. injection H as <-.
        apply (Page []); auto.
        -- rewrite Hv, app_nil_r, <- app_assoc. reflexivity.
        -- intros key [].
      * unfold Admin.delete_page in H2.
        destruct (Admin.start_deletes (page_keys p0) o _) as [ok wx] eqn:D.
        apply start_deletes_events in D as (Hr & Hv). cbn in Hr, Hv.
        destruct ok; [|discriminate]. injection H2 as <-.
        cbv zeta in H.
        destruct (list_complete p0).
        { unfold ret in H. injection H as <- <-. apply (Page []); auto.
          - rewrite Hv, app_nil_r, <- app_assoc. reflexivity.
          - intros key []. }
        destruct (truthy_opt (page_cursor p0)).
        -- apply IH in H as (Hr' & added' & Hv' & Np & Dk).
           apply (Page added'); auto; [congruence|].
           rewrite Hv', Hv, <- !app_assoc. reflexivity.
        -- unfold ret in H. injection H as <- <-. apply (Page []); auto.
           ++ rewrite Hv, app_nil_r, <- app_assoc. reflexivity.
           ++ intros key [].
Qed.

Lemma read_page_quiet (keys : list jsstring) (o : Outside) (w w' : World)
      (out : outcome (list json)) :
  Admin.read_page keys o w = (out, w') ->
  entries w' = entries w /\ reads w' = reads w.
Proof.
  unfold Admin.read_page. intro H.
  destruct (Lookup.start_all keys o w) as [outcomes wx] eqn:St.
  apply start_all_quiet in St as (He & Hr & _).
  destruct (Lookup.all_returned outcomes); injection H as <- <-; auto.
Qed.

Lemma links_loop_quiet (script : list page) (cursor : option jsstring)
      (links : list json) (o : Outside) (w w' : World) (out : outcome (list json)) :
  Admin.links_loop script cursor links o w = (out, w') ->
  entries w' = entries w /\ reads w' = reads w.
Proof.
  revert cursor links w.
  induction script as [|p0 rest IH]; intros cursor links w H;
    cbn [Admin.links_loop] in H;
    (apply bind_cases in H as [[H _]|(result & w1 & H1 & H)];
     [apply kv_list_cases in H as [-> _]; auto|]);
    apply kv_list_cases in H1 as [-> _];
    (apply bind_cases in H as [[H _]|(found & w2 & H2 & H)];
     [apply read_page_quiet in H; cbn in H; exact H|]);
    apply read_page_quiet in H2 as [He Hr]; cbn in He, Hr;
    cbv zeta in H;
    (destruct (list_complete result);
     [unfold ret in H; injection H as <- <-; auto|]);
    (destruct (truthy_opt (page_cursor result));
     [|unfold ret in H; injection H as <- <-; auto]).
  - unfold ret in H. injection H as <- <-. auto.
  - apply IH in H as [He' Hr']. split; congruence.
Qed.


(** X28. What the administration handlers change.  [onRequestGet] changes no
    entry.  [onRequestDelete] makes no write; what it deletes is, when the
    body has [purgeAll] equal to [true], keys that the listing returned, and
    otherwise the one key that [validateLookupSlug] made of the [slug] of the
    body, its only operation. *)
Theorem admin_delete_targets
        (context : EventContext) (env : Env) (o : Outside) (w w' : World)
        (out : outcome Response) :
  (Admin.onRequestGet context env o w = (out, w') -> entries w' = entries w) /\
  (Admin.onRequestDelete context env o w = (out, w') ->
   exists added,
     events w' = events w ++ added /\
     (forall k v, ~ In (KvPut k v) added) /\
     forall key, In (KvDelete key) added ->
       exists payload,
         fst (readJsonBody (request context)) = Ok payload /\
         ((Admin.is_true (prop payload (lit "purgeAll")) = true /\
           exists p, In p (pages o) /\ In key (page_keys p)) \/
          (Admin.is_true (prop payload (lit "purgeAll")) = false /\
           added = [KvDelete key] /\
           forallb is_slug_char key = true /\ (1 <= length key <= 64)%nat /\
           exists raw,
             prop payload (lit "slug") = Some raw /\
             validateLookupSlug (to_jsvalue (Some raw)) = Ok key))).
Proof.
  split.
  - unfold Admin.onRequestGet. intro H.
    destruct (negb (fst (checkAdminAuth (request context) env))).
    { apply unauthorized_cases in H. tauto. }
    unfold try_catch in H.
    destruct ((links <- Admin.getAllLinks ;;
               truth <- getRandomConspiracy ;;
               jsonResponse
                 [ (lit "links", Items (map (fun v => Value (Some v)) links));
                   (lit "count", Number (Z.of_nat (length links)));
                   (lit "truth", Text truth) ]
                 200 CORS_ADMIN) o w) as [[r|] wx] eqn:B.
    + injection H as <- <-.
      apply bind_cases in B as [[_ B]|(links & w1 & B1 & B)]; [discriminate|].
      unfold Admin.getAllLinks in B1. apply links_loop_quiet in B1 as [He _].
      apply reply_cases in B as (He' & _). congruence.
    + apply jsonResponse_cases in H as [-> _].
      apply bind_cases in B as [[B _]|(links & w1 & B1 & B)].
      * unfold Admin.getAllLinks in B. apply links_loop_quiet in B. tauto.
      * unfold Admin.getAllLinks in B1. apply links_loop_quiet in B1 as [He _].
        apply reply_cases in B as (He' & _). congruence.
  - unfold Admin.onRequestDelete. intro H.
    assert (Nothing : forall wa,
               events wa = events w ->
               exists added,
                 events wa = events w ++ added /\
                 (forall k v, ~ In (KvPut k v) added) /\
                 forall key, In (KvDelete key) added ->
                   exists payload,
                     fst (readJsonBody (request context)) = Ok payload /\
                     ((Admin.is_true (prop payload (lit "purgeAll")) = true /\
                       exists p, In p (pages o) /\ In key (page_keys p)) \/
                      (Admin.is_true (prop payload (lit "purgeAll")) = false /\
                       added = [KvDelete key] /\
                       forallb is_slug_char key = true /\
                       (1 <= length key <= 64)%nat /\
                       exists raw,
                         prop payload (lit "slug") = Some raw /\
                         validateLookupSlug (to_jsvalue (Some raw)) = Ok key))).
    { intros wa E. exists []. rewrite app_nil_r. split; [exact E|].
      split; [intros k v [] | intros key []]. }
    destruct (negb (fst (checkAdminAuth (request context) env))).
    { apply unauthorized_cases in H as (_ & Hv & _). apply Nothing, Hv. }
    apply bind_cases in H as [[H _]|(bodyResult & w1 & H1 & H)]; [discriminate|].
    unfold readBody in H1. injection H1 as <- <-.
    set (w1 := mkWorld (entries w) (events w) (drawn w) (asked w)
                       (reads w ++ snd (readJsonBody (request context)))) in H.
    destruct (fst (readJsonBody (request context))) as [payload|e] eqn:B in H.
    2:{ apply reply_cases in H as (_ & Hv & _). apply Nothing, Hv. }
    cbv zeta in H.
    destruct (Admin.is_true (prop payload (lit "purgeAll"))) eqn:P.
    + unfold try_catch in H.
      assert (Purge : forall wa added,
                 events wa = events w ++ added ->
                 (forall k v, ~ In (KvPut k v) added) ->
                 (forall key, In (KvDelete key) added ->
                    exists p, In p (pages o) /\ In key (page_keys p)) ->
                 exists added,
                   events wa = events w ++ added /\
                   (forall k v, ~ In (KvPut k v) added) /\
                   forall key, In (KvDelete key) added ->
                     exists payload0,
                       fst (readJsonBody (request context)) = Ok payload0 /\
                       ((Admin.is_true (prop payload0 (lit "purgeAll")) = true /\
                         exists p, In p (pages o) /\ In key (page_keys p)) \/
                        (Admin.is_true (prop payload0 (lit "purgeAll")) = false /\
                         added = [KvDelete key] /\
                         forallb is_slug_char key = true /\
                         (1 <= length key <= 64)%nat /\
                         exists raw,
                           prop payload0 (lit "slug") = Some raw /\
                           validateLookupSlug (to_jsvalue (Some raw)) = Ok key))).
      { intros wa added Hv Np Dk. exists added. split; [exact Hv|].
        split; [exact Np|]. intros key I. exists payload.
        split; [exact B|]. left. split; [exact P | apply Dk, I]. }
      match type of H with
      | match ?body o w1 with _ => _ end = _ =>
          destruct (body o w1) as [[r|] wx] eqn:Run
      end.
      * injection H as <- <-.
        apply bind_cases in Run as [[_ Run]|(deleted & w2 & R2 & Run)];
          [discriminate|].
        apply purge_loop_events in R2 as (_ & added & Hv & Np & Dk).
        apply reply_cases in Run as (_ & Hv' & _).
        apply (Purge _ added); auto. rewrite Hv', Hv. reflexivity.
      * apply jsonResponse_cases in H as [-> _].
        apply bind_cases in Run as [[Run _]|(deleted & w2 & R2 & Run)].
        -- apply purge_loop_events in Run as (_ & added & Hv & Np & Dk).
           apply (Purge _ added); auto.
        -- apply purge_loop_events in R2 as (_ & added & Hv & Np & Dk).
           apply reply_cases in Run as (_ & Hv' & _).
           apply (Purge _ added); auto. rewrite Hv', Hv. reflexivity.
    + destruct (prop payload (lit "slug")) as [raw|] eqn:S.
      2:{ apply reply_cases in H as (_ & Hv & _). apply Nothing, Hv. }
      destruct (validateLookupSlug (to_jsvalue (Some raw))) as [key|e] eqn:V.
      2:{ apply reply_cases in H as (_ & Hv & _). apply Nothing, Hv. }
      assert (One : forall wa,
                 events wa = events w ++ [KvDelete key] ->
                 exists added,
                   events wa = events w ++ added /\
                   (forall k v, ~ In (KvPut k v) added) /\
                   forall key0, In (KvDelete key0) added ->
                     exists payload0,
                       fst (readJsonBody (request context)) = Ok payload0 /\
                       ((Admin.is_true (prop payload0 (lit "purgeAll")) = true /\
                         exists p, In p (pages o) /\ In key0 (page_keys p)) \/
                        (Admin.is_true (prop payload0 (lit "purgeAll")) = false /\
                         added = [KvDelete key0] /\
                         forallb is_slug_char key0 = true /\
                         (1 <= length key0 <= 64)%nat /\
                         exists raw0,
                           prop payload0 (lit "slug") = Some raw0 /\
                           validateLookupSlug (to_jsvalue (Some raw0)) = Ok key0))).
      { intros wa Hv. exists [KvDelete key]. split; [exact Hv|]. split.
        - intros k v [X|[]]. discriminate.
        - intros key0 [X|[]]. injection X as <-. exists payload.
          split; [exact B|]. right. split; [exact P|].
          split; [reflexivity|].
          assert (Vk := V). destruct raw as [| | |s| |]; try discriminate.
          cbn [to_jsvalue] in Vk.
          apply (proj1 (validateLookupSlug_iff s)) in Vk as (_ & F & L).
          split; [exact F|]. split; [exact L|]. exists (JText s). auto. }
      unfold try_catch in H.
      match type of H with
      | match ?body o w1 with _ => _ end = _ =>
          destruct (body o w1) as [[r|] wx] eqn:Run
      end.
      * injection H as <- <-.
        apply bind_cases in Run as [[_ Run]|([] & w2 & R2 & Run)]; [discriminate|].
        unfold kv_delete in R2.
        destruct (kv_fails o (length (events w1))); [discriminate|].
        injection R2 as <-.
        apply reply_cases in Run as (_ & Hv' & _). apply One. exact Hv'.
      * apply jsonResponse_cases in H as [-> _].
        apply bind_cases in Run as [[Run _]|([] & w2 & R2 & Run)].
        -- unfold kv_delete in Run.
           destruct (kv_fails o (length (events w1))); [|discriminate].
           injection Run as <-. apply One. reflexivity.
        -- unfold kv_delete in R2.
           destruct (kv_fails o (length (events w1))); [discriminate|].
           injection R2 as <-.
           apply reply_cases in Run as (_ & Hv' & _). apply One. exact Hv'.
Qed.

End AdminFacts.

(* ================================================================== *)
(** * Runs of the handlers on the reference platform *)
(* ================================================================== *)

Lemma onRequestPost_writes_validated_witness :
  exists normalisedUrl slug keys,
    events Sample.stored
    = [] ++ map KvGet keys
      ++ [KvPut slug
            (@JSON_stringify ReferenceValues.values
               (Shorten.record (Sample.post Sample.link None) normalisedUrl slug
                               (clock Sample.steady)))].
Proof.
  destruct (@onRequestPost_writes_validated
              Reference.strings Reference.urls
              ReferenceValues.records ReferenceValues.values
              (Sample.post Sample.link None) Sample.steady (Sample.world [])
              Sample.stored (fst Sample.creation))
    as [_ [(E & _)|(p & u & s & k & _ & _ & _ & Ev & _)]].
  - vm_compute. reflexivity.
  - vm_compute in E. discriminate.
  - exists u, s, k. exact Ev.
Defined.

Lemma onRequest_reads_valid_key_witness :
  let run := @Redirect.onRequest Reference.strings ReferenceValues.records
               ReferenceValues.values (Sample.get (lit "My-Link"))
               Sample.steady Sample.stored in
  entries (snd run) = entries Sample.stored /\
  (events (snd run) = events Sample.stored \/
   exists key,
     events (snd run) = events Sample.stored ++ [KvGet key] /\
     @validateLookupSlug Reference.strings (JString key) = Ok key) /\
  (forall slug, test Redirect.ROUTE_RE slug = true -> (length slug <= 64)%nat).
Proof.
  intro run.
  apply (@onRequest_reads_valid_key
           Reference.strings ReferenceValues.records ReferenceValues.values
           reference_string_laws
           (Sample.get (lit "My-Link")) Sample.steady Sample.stored
           (snd run) (fst run)).
  vm_compute. reflexivity.
Defined.



Lemma created_link_resolves_witness :
  let run := @Redirect.onRequest Reference.strings ReferenceValues.records
               ReferenceValues.values (Sample.get (lit "my-link"))
               Sample.steady Sample.stored in
  match fst run with
  | Returned Redirect.Next => False
  | Returned (Redirect.Respond r') =>
      (res_status r' = 302 /\
       get_key (lit "Location") (res_headers r')
       = Some (lit "https://example.com/a%20b") /\
       get_key (lit "X-Redirect-To") (res_headers r')
       = Some (lit "https://example.com/a%20b")) \/
      (res_status r' = 500 /\
       (kv_fails Sample.steady (length (events Sample.stored)) = true \/
        @Response_new_ok ReferenceValues.values 302
          (Redirect.found_headers (lit "https://example.com/a%20b")
             (conspiracies Sample.steady (asked Sample.stored)))
        = false))
  | Thrown =>
      kv_fails Sample.steady (length (events Sample.stored)) = true \/
      @Response_new_ok ReferenceValues.values 302
        (Redirect.found_headers (lit "https://example.com/a%20b")
           (conspiracies Sample.steady (asked Sample.stored)))
      = false
  end.
Proof.
  intro run.
  lazymatch eval vm_compute in (fst Sample.creation) with
  | Returned ?r =>
      destruct (@created_link_resolves
                  Reference.strings Reference.urls
                  ReferenceValues.records ReferenceValues.values
                  reference_string_laws
                  (Sample.post Sample.link None) Sample.steady (Sample.world [])
                  Sample.stored r)
        as (p & u & s & B & U & G & V & F)
  end.
  - vm_compute. reflexivity.
  - reflexivity.
  - vm_compute in B. injection B as <-.
    vm_compute in U. injection U as <-.
    assert (S : s = lit "my-link").
    { let e := eval vm_compute in (entries Sample.stored) in
      change (entries Sample.stored) with e in G.
      cbn [get_key] in G.
      match type of G with
      | context [str_eqb ?k s] => destruct (str_eqb k s) eqn:Q; [|discriminate]
      end.
      apply str_eqb_eq in Q. symmetry. exact Q. }
    subst s.
    apply (F (Sample.get (lit "my-link")) Sample.steady Sample.stored
             (snd run) (fst run)).
    + reflexivity.
    + exact G.
    + vm_compute. reflexivity.
    + reflexivity.
    + vm_compute. reflexivity.
Defined.
Lemma answers_security_headers_witness :
  exists r,
    fst Sample.creation = Returned r /\
    get_key (lit "Content-Type") (res_headers r) = Some (lit "application/json") /\
    forall h v, In (h, v) (SECURITY_HEADERS ++ CORS_PUBLIC) ->
                get_key h (res_headers r) = Some v.
Proof.
  lazymatch eval vm_compute in (fst Sample.creation) with
  | Returned ?r => exists r
  end.
  split; [vm_compute; reflexivity|].
  apply (proj1 (@answers_security_headers
                  Reference.strings Reference.urls
                  ReferenceValues.records ReferenceValues.values)
               (Sample.post Sample.link None) Sample.steady (Sample.world [])
               Sample.stored).
  vm_compute. reflexivity.
Defined.

Lemma api_slugs_assigned_not_followed_witness :
  @validateCustomSlug Reference.strings (JString (lit "api-docs"))
  = Ok (lit "api-docs") /\
  @Redirect.onRequest Reference.strings ReferenceValues.records
     ReferenceValues.values (Sample.get (lit "api-docs"))
     Sample.steady Sample.stored
  = (Returned Redirect.Next, Sample.stored).
Proof.
  destruct (@api_slugs_assigned_not_followed
              Reference.strings ReferenceValues.records ReferenceValues.values
              reference_string_laws) as (A & _ & C).
  split.
  - apply (A (lit "-docs")); [reflexivity | simpl; lia].
  - apply (C (Sample.get (lit "api-docs")) (lit "api-docs")); reflexivity.
Defined.

Lemma lookup_reads_validated_keys_witness :
  let run := @Lookup.onRequestPost Reference.strings ReferenceValues.records
               ReferenceValues.values (Sample.post Sample.query None)
               Sample.env Sample.steady Sample.stored in
  entries (snd run) = entries Sample.stored /\
  exists keys,
    events (snd run) = events Sample.stored ++ map KvGet keys /\
    (length keys <= 50)%nat /\
    forall k, In k keys ->
      forallb is_slug_char k = true /\ (1 <= length k <= 64)%nat.
Proof.
  intro run.
  apply (@lookup_reads_validated_keys
           Reference.strings ReferenceValues.records ReferenceValues.values
           (Sample.post Sample.query None) Sample.env Sample.steady
           Sample.stored (snd run) (fst run)).
  vm_compute. reflexivity.
Defined.

Lemma lookup_shows_private_fields_to_admin_only_witness :
  fst (checkAdminAuth (request (Sample.post Sample.query (Some Sample.bearer)))
                      Sample.env) = true.
Proof.
  lazymatch eval vm_compute in
      (@Lookup.onRequestPost Reference.strings ReferenceValues.records
         ReferenceValues.values (Sample.post Sample.query (Some Sample.bearer))
         Sample.env Sample.steady Sample.stored) with
  | (Returned ?r, ?w') =>
      eapply (@lookup_shows_private_fields_to_admin_only
                Reference.strings ReferenceValues.records ReferenceValues.values
                (Sample.post Sample.query (Some Sample.bearer)) Sample.env
                Sample.steady Sample.stored w' r)
  end.
  - vm_compute. reflexivity.
  - reflexivity.
  - left. vm_compute. reflexivity.
Defined.


Lemma admin_delete_targets_witness :
  let run := @Admin.onRequestDelete Reference.strings ReferenceValues.records
               ReferenceValues.values
               (Sample.post Sample.query (Some Sample.bearer))
               Sample.env Sample.steady Sample.stored in
  exists added,
    events (snd run) = events Sample.stored ++ added /\
    forall k v, ~ In (KvPut k v) added.
Proof.
  intro run.
  destruct (proj2 (@admin_delete_targets
                     Reference.strings ReferenceValues.records
                     ReferenceValues.values
                     (Sample.post Sample.query (Some Sample.bearer))
                     Sample.env Sample.steady Sample.stored (snd run) (fst run)))
    as (added & E & N & _).
  - vm_compute. reflexivity.
  - exists added. split; [exact E | exact N].
Defined.
